(** * Verification of trello_weekly_report_to_telegram.py

    A shallow embedding of the weekly report script: the time window
    (lines 27-37), [fmt_local], [build_report] and [tg_send_html], together
    with the parts of the Python standard library they call
    ([str.expandtabs], [textwrap.wrap], [sorted], [dict]).

    Python strings are sequences of Unicode code points; they are modelled
    as lists of code points, so that [length] is Python's [len]. *)

From Equations Require Import Equations.
From Stdlib Require Import String Ascii.
From Stdlib Require Import List Arith ZArith NArith Lia Bool.
From Stdlib Require Import Permutation Sorted DecimalString.
Import ListNotations.

Set Implicit Arguments.

(** ** Python strings *)

Definition char := N.
Definition str := list char.

(** UTF-8 decoding, used only to write the literals of the script as they
    appear in the source text. *)
Fixpoint utf8_go (need : nat) (acc : N) (bs : list N) : str :=
  match bs with
  | [] => []
  | b :: r =>
      match need with
      | O =>
          if (b <? 128)%N then b :: utf8_go 0 0 r
          else if (b <? 224)%N then utf8_go 1 (b - 192) r
          else if (b <? 240)%N then utf8_go 2 (b - 224) r
          else utf8_go 3 (b - 240) r
      | S n =>
          let acc' := (acc * 64 + (b - 128))%N in
          match n with
          | O => acc' :: utf8_go 0 0 r
          | S _ => utf8_go n acc' r
          end
      end
  end.

Definition u8 (s : string) : str :=
  utf8_go 0 0 (List.map N_of_ascii (list_ascii_of_string s)).

Definition str_eqb (a b : str) : bool :=
  if list_eq_dec N.eq_dec a b then true else false.

(** [''.join(parts)] *)
Definition join0 (parts : list str) : str := List.concat parts.

(** ** Exceptions

    A computation that may raise is a sum: [inl e] when [e] is raised,
    [inr v] when [v] is returned. *)
Inductive exn : Set :=
| ValueError
| AttributeError
| TypeError
| OverflowError
| KeyError
| HTTPError
| RequestException.

Definition result (A : Type) : Type := exn + A.

Definition ret {A} (a : A) : result A := inr a.
Definition raise {A} (e : exn) : result A := inl e.
Definition bind {A B} (m : result A) (k : A -> result B) : result B :=
  match m with
  | inl e => inl e
  | inr a => k a
  end.

Notation "x <- m ;; k" := (bind m (fun x => k))
  (at level 61, m at next level, right associativity).
Notation "' p <- m ;; k" := (bind m (fun x => let p := x in k))
  (at level 61, p pattern, m at next level, right associativity).

(** [for x in l: st = body(st, x)], stopping at the first exception *)
Fixpoint for_each {A S} (body : S -> A -> result S) (l : list A) (st : S)
  : result S :=
  match l with
  | [] => ret st
  | x :: r => st' <- body st x ;; for_each body r st'
  end.

(** [[f(x) for x in l]] *)
Fixpoint map_result {A B} (f : A -> result B) (l : list A)
  : result (list B) :=
  match l with
  | [] => ret []
  | x :: r => y <- f x ;; ys <- map_result f r ;; ret (y :: ys)
  end.

Module Textwrap.

(** *** [str.expandtabs(tabsize)]

    The column restarts after a line feed or a carriage return; a tab
    becomes the spaces that reach the next multiple of [tabsize]. *)
Definition TAB : char := 9%N.
Definition LF : char := 10%N.
Definition CR : char := 13%N.
Definition SPACE : char := 32%N.
Definition HYPHEN : char := 45%N.

Fixpoint expandtabs_from (tabsize col : nat) (s : str) : str :=
  match s with
  | [] => []
  | c :: r =>
      if (c =? TAB)%N then
        match tabsize with
        | O => expandtabs_from tabsize col r
        | S _ =>
            let incr := tabsize - (col mod tabsize) in
            repeat SPACE incr ++ expandtabs_from tabsize (col + incr) r
        end
      else if ((c =? LF) || (c =? CR))%N then
        c :: expandtabs_from tabsize 0 r
      else c :: expandtabs_from tabsize (S col) r
  end.

Definition expandtabs (tabsize : nat) (s : str) : str :=
  expandtabs_from tabsize 0 s.

(** *** The character classes of [TextWrapper.wordsep_re]

    [_whitespace = '\t\n\x0b\x0c\r '].  The classes [\w] and [\d] are those of
    the [re] module on [str] patterns: fixed on ASCII, and given by the
    Unicode database elsewhere, which is taken as a parameter. *)
Definition is_ws (c : char) : bool :=
  ((c =? 9) || (c =? 10) || (c =? 11) || (c =? 12) || (c =? 13) || (c =? 32))%N.

Section Classes.

Variable uni_alnum : char -> bool.
Variable uni_digit : char -> bool.

Definition ascii_digit (c : char) : bool := ((48 <=? c) && (c <=? 57))%N.
Definition ascii_alpha (c : char) : bool :=
  (((65 <=? c) && (c <=? 90)) || ((97 <=? c) && (c <=? 122)))%N.

Definition re_digit (c : char) : bool :=
  if (c <? 128)%N then ascii_digit c else uni_digit c.

Definition re_word (c : char) : bool :=
  if (c <? 128)%N then ascii_alpha c || ascii_digit c || (c =? 95)%N
  else uni_alnum c.

(** [letter = r'[^\d\W]'] *)
Definition re_letter (c : char) : bool := re_word c && negb (re_digit c).

(** [word_punct]: a word character or one of the seven punctuation marks
    ! (33), double quote (34), apostrophe (39), & (38), . (46), comma (44)
    and ? (63). *)
Definition re_word_punct (c : char) : bool :=
  re_word c
  || ((c =? 33) || (c =? 34) || (c =? 39) || (c =? 38)
      || (c =? 46) || (c =? 44) || (c =? 63))%N.

Fixpoint count_hyphens (s : str) : nat :=
  match s with
  | c :: r => if (c =? HYPHEN)%N then S (count_hyphens r) else 0
  | [] => 0
  end.

Fixpoint ws_run (s : str) : nat :=
  match s with
  | c :: r => if is_ws c then S (ws_run r) else 0
  | [] => 0
  end.

(** [-{2,}] followed by a [\w], at the head of [s]: the greedy run of
    hyphens is taken whole, since a hyphen is not a word character. *)
Definition emdash_len (s : str) : option nat :=
  let n := count_hyphens s in
  if 2 <=? n then
    match skipn n s with
    | c :: _ => if re_word c then Some n else None
    | [] => None
    end
  else None.

Definition head_is (p : char -> bool) (s : str) : bool :=
  match s with c :: _ => p c | [] => false end.

(** The tail of the third alternative, tried at the position that has
    [prev] (reversed) before it and [s] after it.  The result is the number
    of further characters the match takes: the hyphen of a hyphenated word,
    or none at the end of a word and before an em-dash. *)
Definition word_end (prev s : str) : option nat :=
  let hyphenated :=
    match s with
    | c :: r =>
        (c =? HYPHEN)%N
        && (match prev with
            | l2 :: l1 :: _ =>
                (re_letter l1 && re_letter l2)
                || (match prev with
                    | m2 :: h :: m1 :: _ =>
                        re_letter m1 && (h =? HYPHEN)%N && re_letter m2
                    | _ => false
                    end)
            | _ => false
            end)
        && (match r with
            | a :: b :: t =>
                re_letter a
                && (((b =? HYPHEN)%N && head_is re_letter t) || re_letter b)
            | _ => false
            end)
    | [] => false
    end in
  if hyphenated then Some 1
  else
    match s with
    | [] => Some 0
    | c :: _ =>
        if is_ws c then Some 0
        else if head_is re_word_punct prev
                && (match emdash_len s with Some _ => true | None => false end)
        then Some 0
        else None
    end.

(** [nws+?]: the shortest run of non-whitespace after which [word_end]
    succeeds; [n] characters are already taken. *)
Fixpoint lazy_word (prev s : str) (n : nat) : option nat :=
  match word_end prev s with
  | Some e => Some (n + e)
  | None =>
      match s with
      | c :: r => if is_ws c then None else lazy_word (c :: prev) r (S n)
      | [] => None
      end
  end.

(** The length of the match of [wordsep_re] that starts at the current
    position, alternatives in the order of the pattern. *)
Definition match_at (prev s : str) : option nat :=
  match ws_run s with
  | S n => Some (S n)
  | O =>
      match (if head_is re_word_punct prev then emdash_len s else None) with
      | Some n => Some n
      | None =>
          match s with
          | c :: r => if is_ws c then None else lazy_word (c :: prev) r 1
          | [] => None
          end
      end
  end.

(** [wordsep_re.split(text)]: the pattern is one capturing group, so the
    result alternates the text between matches and the matches.  [between]
    is the (reversed) text since the last match. *)
Equations? re_split (prev between s : str) : list str by wf (length s) lt :=
  re_split prev between [] := [rev between];
  re_split prev between (c :: r) with match_at prev (c :: r) => {
    | Some (S k) :=
        rev between :: (c :: firstn k r)
          :: re_split (rev (firstn k r) ++ c :: prev) [] (skipn k r);
    | _ := re_split (c :: prev) (c :: between) r }.
Proof.
  all: simpl; try lia.
  rewrite length_skipn. lia.
Qed.

Definition nonempty (s : str) : bool :=
  match s with [] => false | _ => true end.

(** [TextWrapper._split] with [break_on_hyphens=True] *)
Definition _split (text : str) : list str :=
  filter nonempty (re_split [] [] text).

(** *** [TextWrapper._wrap_chunks]

    The stack of reversed chunks is a list with its top first; [cur_line]
    is kept in order.  The options are those of the call in [tg_send_html]:
    no indent, [break_long_words] and [break_on_hyphens] at their default
    (true), [drop_whitespace=False], [max_lines=None]. *)

(** [chunk.rfind('-', 0, stop)] *)
Fixpoint rfind_go (i : nat) (s : str) (stop : nat) (found : option nat)
  : option nat :=
  match stop, s with
  | S k, c :: r =>
      rfind_go (S i) r k (if (c =? HYPHEN)%N then Some i else found)
  | _, _ => found
  end.

Definition rfind_hyphen (s : str) (stop : nat) : option nat :=
  rfind_go 0 s stop None.

(** [any(c != '-' for c in s)] *)
Definition any_non_hyphen (s : str) : bool :=
  existsb (fun c => negb (c =? HYPHEN)%N) s.

(** [_handle_long_word]: [cur_len] never exceeds [width] where it is called,
    so [width - cur_len] is the subtraction of natural numbers. *)
Definition _handle_long_word
    (reversed_chunks : list str) (cur_line : list str) (cur_len width : nat)
  : list str * list str :=
  let space_left := if width <? 1 then 1 else width - cur_len in
  match reversed_chunks with
  | [] => (reversed_chunks, cur_line)
  | chunk :: below =>
      let end_ :=
        if space_left <? List.length chunk then
          match rfind_hyphen chunk space_left with
          | Some hyphen =>
              if (0 <? hyphen) && any_non_hyphen (firstn hyphen chunk)
              then hyphen + 1 else space_left
          | None => space_left
          end
        else space_left in
      (skipn end_ chunk :: below, cur_line ++ [firstn end_ chunk])
  end.

(** The inner [while chunks:] loop, which pops the chunks that fit. *)
Fixpoint fill_line (width : nat) (cur_line : list str) (cur_len : nat)
    (chunks : list str) : list str * nat * list str :=
  match chunks with
  | [] => (cur_line, cur_len, [])
  | c :: r =>
      if cur_len + List.length c <=? width
      then fill_line width (cur_line ++ [c]) (cur_len + List.length c) r
      else (cur_line, cur_len, chunks)
  end.

(** One turn of the outer loop: the chunks of the next line and what is
    left on the stack. *)
Definition next_line (width : nat) (chunks : list str)
  : list str * list str :=
  let '(cur_line, cur_len, rest) := fill_line width [] 0 chunks in
  match rest with
  | top :: _ =>
      if width <? List.length top then
        let '(rest', cur_line') :=
          _handle_long_word rest cur_line cur_len width in
        (cur_line', rest')
      else (cur_line, rest)
  | [] => (cur_line, rest)
  end.

Definition stack_size (chunks : list str) : nat :=
  list_sum (List.map (fun c => S (List.length c)) chunks).

Lemma fill_line_spec width chunks : forall cur_line cur_len,
  let '(cl, n, rest) := fill_line width cur_line cur_len chunks in
  exists taken,
    cl = cur_line ++ taken /\ chunks = taken ++ rest
    /\ n = cur_len + List.length (List.concat taken)
    /\ (cur_len <= width -> n <= width)
    /\ (match rest with
        | top :: _ => width < n + List.length top
        | [] => True
        end).
Proof.
  induction chunks as [|c r IH]; intros cur_line cur_len; simpl.
  - exists []. rewrite app_nil_r. simpl. repeat split; auto; lia.
  - destruct (cur_len + List.length c <=? width) eqn:E.
    + specialize (IH (cur_line ++ [c]) (cur_len + List.length c)).
      destruct (fill_line width (cur_line ++ [c]) (cur_len + List.length c) r)
        as [[cl n] rest].
      destruct IH as (taken & -> & -> & -> & Hle & Htop).
      apply Nat.leb_le in E.
      exists (c :: taken). simpl. rewrite <- app_assoc, length_app.
      repeat split; auto; lia.
    + apply Nat.leb_gt in E.
      exists []. rewrite app_nil_r. simpl. repeat split; auto; lia.
Qed.

Lemma stack_size_app a b : stack_size (a ++ b) = stack_size a + stack_size b.
Proof.
  unfold stack_size. rewrite map_app, list_sum_app. reflexivity.
Qed.

Lemma stack_size_cons c l :
  stack_size (c :: l) = S (List.length c) + stack_size l.
Proof. reflexivity. Qed.

Lemma rfind_go_bound s : forall i stop found h,
  rfind_go i s stop found = Some h ->
  (found = Some h) \/ (i <= h < i + stop).
Proof.
  induction s as [|c r IH]; intros i stop found h H; destruct stop; simpl in H;
    auto.
  apply IH in H. destruct H as [H|H]; [|right; lia].
  destruct (c =? HYPHEN)%N; auto. inversion H; subst. right; lia.
Qed.

(** What [next_line] takes off a non-empty stack: the line and the rest
    make up the stack, the stack gets smaller, and the line fits. *)
Lemma next_line_spec width chunks :
  chunks <> [] ->
  let '(cur_line, rest) := next_line width chunks in
  List.concat cur_line ++ List.concat rest = List.concat chunks
  /\ stack_size rest < stack_size chunks
  /\ (1 <= width -> List.length (List.concat cur_line) <= width).
Proof.
  intros Hne. unfold next_line.
  pose proof (fill_line_spec width chunks [] 0) as F.
  destruct (fill_line width [] 0 chunks) as [[cl n] rest].
  destruct F as (taken & Hcl & Hch & Hn & Hle & Htop).
  simpl in Hcl, Hn. subst cl n.
  specialize (Hle (Nat.le_0_l _)).
  destruct rest as [|top below].
  - rewrite app_nil_r in Hch. subst taken. simpl. rewrite app_nil_r.
    repeat split; auto.
    destruct chunks; [congruence|]. unfold stack_size; simpl; lia.
  - destruct (width <? List.length top) eqn:Elong.
    + apply Nat.ltb_lt in Elong.
      unfold _handle_long_word.
      set (space_left :=
             if width <? 1 then 1
             else width - List.length (List.concat taken)).
      set (end_ := if space_left <? List.length top then _ else space_left).
      assert (Hsl : 1 <= space_left \/ taken <> []).
      { unfold space_left. destruct (width <? 1) eqn:Ew; [left; lia|].
        apply Nat.ltb_ge in Ew.
        destruct taken as [|t ts]; [left; simpl; lia | right; congruence]. }
      assert (Hend : end_ <= space_left /\ (1 <= space_left -> 1 <= end_)).
      { unfold end_. destruct (space_left <? List.length top); [|lia].
        unfold rfind_hyphen.
        destruct (rfind_go 0 top space_left None) as [h|] eqn:Eh; [|lia].
        apply rfind_go_bound in Eh. destruct Eh as [Eh|Eh]; [discriminate|].
        destruct ((0 <? h) && any_non_hyphen (firstn h top)); lia. }
      destruct Hend as [Hend1 Hend2].
      subst chunks. rewrite !concat_app, !concat_cons. simpl.
      rewrite app_nil_r, <- !app_assoc.
      rewrite (app_assoc (firstn end_ top)), firstn_skipn.
      repeat split; auto.
      * rewrite stack_size_app, !stack_size_cons, length_skipn.
        destruct Hsl as [Hsl|Hsl].
        -- specialize (Hend2 Hsl). lia.
        -- (* nothing of the long word need be taken: the line is not empty *)
           destruct taken as [|t ts]; [congruence|].
           rewrite stack_size_cons. lia.
      * intros Hw. rewrite length_app, length_firstn.
        unfold space_left in Hend1.
        destruct (width <? 1) eqn:Ew; [apply Nat.ltb_lt in Ew; lia|].
        lia.
    + subst chunks. rewrite concat_app. repeat split; auto.
      * rewrite stack_size_app.
        apply Nat.ltb_ge in Elong. simpl in Htop.
        destruct taken as [|t ts]; [simpl in Htop; lia|].
        rewrite (stack_size_cons t). lia.
Qed.

(** [if cur_line: lines.append(''.join(cur_line))] *)
Definition store_line (cur_line : list str) : list str :=
  match cur_line with
  | [] => []
  | _ => [join0 cur_line]
  end.

(** The outer [while chunks:] loop. *)
Equations? wrap_loop (width : nat) (chunks : list str) : list str
  by wf (stack_size chunks) lt :=
  wrap_loop width [] := [];
  wrap_loop width (c :: cs) :=
    store_line (fst (next_line width (c :: cs)))
      ++ wrap_loop width (snd (next_line width (c :: cs))).
Proof.
  pose proof (@next_line_spec width (c :: cs)) as S.
  destruct (next_line width (c :: cs)); apply S; discriminate.
Qed.

Definition _wrap_chunks (width : Z) (chunks : list str) : result (list str) :=
  if (width <=? 0)%Z then raise ValueError
  else ret (wrap_loop (Z.to_nat width) chunks).

(** [textwrap.wrap(text, width=width, replace_whitespace=False,
    drop_whitespace=False)]: [_munge_whitespace] expands the tabs
    ([expand_tabs] is left at its default) and replaces nothing. *)
Definition _munge_whitespace (text : str) : str := expandtabs 8 text.

Definition wrap (text : str) (width : Z) : result (list str) :=
  _wrap_chunks width (_split (_munge_whitespace text)).

End Classes.

End Textwrap.

(** ** Dates and times

    A [datetime] is kept as the proleptic Gregorian ordinal of its date
    ([date.toordinal()], day 1 is Monday 0001-01-01), the microseconds since
    the midnight of that day, and the UTC offset its [tzinfo] gives it (in
    microseconds; [None] for a naive value).  A [pytz] zone hands out one
    [tzinfo] object per UTC offset, and arithmetic on a [datetime] keeps the
    object it has. *)
Module Datetime.

Local Open Scope Z_scope.

Definition DAY : Z := 86400000000.
Definition MINUTE : Z := 60000000.
Definition HOUR : Z := 3600000000.
Definition MAXORD : Z := 3652059.

Record datetime : Set := mkdt {
  ordinal : Z;
  tod : Z;
  utcoffset : option Z
}.

(** [datetime.weekday()]: Monday is 0 *)
Definition weekday (d : datetime) : Z := (ordinal d + 6) mod 7.

(** [d - datetime.timedelta(days=k)], which raises [OverflowError] outside
    the years 1 to 9999 *)
Definition sub_days (d : datetime) (k : Z) : result datetime :=
  let o := ordinal d - k in
  if (1 <=? o) && (o <=? MAXORD)
  then ret (mkdt o (tod d) (utcoffset d))
  else raise OverflowError.

(** [d.replace(hour=0, minute=0, second=0, microsecond=0)] *)
Definition replace_midnight (d : datetime) : datetime :=
  mkdt (ordinal d) 0 (utcoffset d).

(** The microseconds from the midnight that starts day 0 to the wall-clock
    reading of [d], and the reading at a count of microseconds. *)
Definition wall (d : datetime) : Z := ordinal d * DAY + tod d.

Definition of_wall (w : Z) (off : option Z) : result datetime :=
  let o := w / DAY in
  if (1 <=? o) && (o <=? MAXORD)
  then ret (mkdt o (w mod DAY) off)
  else raise OverflowError.

(** The instant of an aware [datetime], on the UTC wall clock *)
Definition utc_of (d : datetime) : Z :=
  wall d - match utcoffset d with Some off => off | None => 0 end.

(** [a - b] for two values that carry the same [tzinfo] object: the
    difference of the wall-clock readings, as a [timedelta] in microseconds *)
Definition diff (a b : datetime) : Z := wall a - wall b.

(** *** Calendar dates, after [_ord2ymd] and [_ymd2ord] of [datetime.py] *)
Definition _is_leap (year : Z) : bool :=
  (year mod 4 =? 0) && (negb (year mod 100 =? 0) || (year mod 400 =? 0)).

Definition _days_before_year (year : Z) : Z :=
  let y := year - 1 in
  y * 365 + y / 4 - y / 100 + y / 400.

Definition _DAYS_IN_MONTH (month : Z) : Z :=
  match month with
  | 1 => 31 | 2 => 28 | 3 => 31 | 4 => 30 | 5 => 31 | 6 => 30
  | 7 => 31 | 8 => 31 | 9 => 30 | 10 => 31 | 11 => 30 | 12 => 31
  | _ => -1
  end.

Definition _DAYS_BEFORE_MONTH (month : Z) : Z :=
  match month with
  | 1 => 0 | 2 => 31 | 3 => 59 | 4 => 90 | 5 => 120 | 6 => 151
  | 7 => 181 | 8 => 212 | 9 => 243 | 10 => 273 | 11 => 304 | 12 => 334
  | _ => -1
  end.

Definition _days_before_month (year month : Z) : Z :=
  _DAYS_BEFORE_MONTH month
  + (if (2 <? month) && _is_leap year then 1 else 0).

Definition _ymd2ord (year month day : Z) : Z :=
  _days_before_year year + _days_before_month year month + day.

Definition _DI400Y : Z := 146097.
Definition _DI100Y : Z := 36524.
Definition _DI4Y : Z := 1461.

Definition _ord2ymd (n : Z) : Z * Z * Z :=
  let n := n - 1 in
  let n400 := n / _DI400Y in
  let n := n mod _DI400Y in
  let year := n400 * 400 + 1 in
  let n100 := n / _DI100Y in
  let n := n mod _DI100Y in
  let n4 := n / _DI4Y in
  let n := n mod _DI4Y in
  let n1 := n / 365 in
  let n := n mod 365 in
  let year := year + (n100 * 100 + n4 * 4 + n1) in
  if (n1 =? 4) || (n100 =? 4) then (year - 1, 12, 31)
  else
    let leapyear := (n1 =? 3) && (negb (n4 =? 24) || (n100 =? 3)) in
    let month := Z.shiftr (n + 50) 5 in
    let preceding :=
      _DAYS_BEFORE_MONTH month
      + (if (2 <? month) && leapyear then 1 else 0) in
    if n <? preceding then
      let month := month - 1 in
      let preceding :=
        preceding
        - (_DAYS_IN_MONTH month
           + (if (month =? 2) && leapyear then 1 else 0)) in
      (year, month, n - preceding + 1)
    else (year, month, n - preceding + 1).

Definition year (d : datetime) : Z := fst (fst (_ord2ymd (ordinal d))).
Definition month (d : datetime) : Z := snd (fst (_ord2ymd (ordinal d))).
Definition day (d : datetime) : Z := snd (_ord2ymd (ordinal d)).
Definition hour (d : datetime) : Z := tod d / HOUR.
Definition minute (d : datetime) : Z := (tod d mod HOUR) / MINUTE.

(** *** [strftime] *)
Definition digit (n : Z) : char := Z.to_N (48 + n).

(** [%m], [%d], [%H], [%M]: two digits *)
Definition two_digits (n : Z) : str := [digit (n / 10); digit (n mod 10)].

Definition four_digits (n : Z) : str :=
  [digit (n / 1000); digit ((n / 100) mod 10); digit ((n / 10) mod 10);
   digit (n mod 10)].

Section Strftime.

(** [%Y] is the year in four digits from the year 1000 on; how a smaller
    year is printed is left to the C library (glibc does not pad it). *)
Variable libc_small_year : Z -> str.

Definition fmt_Y (y : Z) : str :=
  if 1000 <=? y then four_digits y else libc_small_year y.

(** [d.strftime('%Y-%m-%d')] *)
Definition strftime_date (d : datetime) : str :=
  fmt_Y (year d) ++ [45%N] ++ two_digits (month d) ++ [45%N]
    ++ two_digits (day d).

(** [d.strftime('%Y-%m-%d %H:%M')] *)
Definition strftime_minute (d : datetime) : str :=
  strftime_date d ++ [32%N] ++ two_digits (hour d) ++ [58%N]
    ++ two_digits (minute d).

End Strftime.

(** *** Time zones

    A zone is the UTC offset (in microseconds) it has at each instant of
    the UTC wall clock: what [tz.fromutc] looks up. *)
Definition zone := Z -> Z.

(** [tz.fromutc]: the local reading, with the [tzinfo] of that offset *)
Definition fromutc (tz : zone) (u : Z) : result datetime :=
  of_wall (u + tz u) (Some (tz u)).

Definition UTC : zone := fun _ => 0.

(** [d.astimezone(tz)]: [d] is brought to UTC with its own offset and handed
    to [tz.fromutc]; both steps raise [OverflowError] outside the years 1 to
    9999.  A naive [d] is read in the system's local zone: [mktime] gives
    the instant of such a reading, or raises. *)
Definition astimezone (mktime : Z -> result Z) (tz : zone) (d : datetime)
  : result datetime :=
  u <- match utcoffset d with
       | Some off => ret (wall d - off)
       | None => mktime (wall d)
       end ;;
  _ <- of_wall u (Some 0) ;;
  fromutc tz u.

(** [d.isoformat()] for an aware [d] whose offset is a whole number of
    minutes and whose seconds are whole: [YYYY-MM-DDTHH:MM:SS+HH:MM] *)
Definition isoformat (d : datetime) : str :=
  let off := match utcoffset d with Some off => off | None => 0 end in
  four_digits (year d) ++ [45%N] ++ two_digits (month d) ++ [45%N]
    ++ two_digits (day d) ++ [84%N] ++ two_digits (hour d) ++ [58%N]
    ++ two_digits (minute d) ++ [58%N]
    ++ two_digits ((tod d mod MINUTE) / 1000000)
    ++ (if tod d mod 1000000 =? 0 then []
        else [46%N] ++ two_digits ((tod d mod 1000000) / 10000)
               ++ four_digits (tod d mod 10000))
    ++ match utcoffset d with
       | None => []
       | Some _ =>
           [if off <? 0 then 45%N else 43%N]
             ++ two_digits (Z.abs off / HOUR) ++ [58%N]
             ++ two_digits ((Z.abs off mod HOUR) / MINUTE)
       end.

End Datetime.

(** ** Python values

    What [r.json()] returns: [None], booleans, integers, strings, lists and
    dictionaries with string keys (JSON numbers are taken to be integers).
    A dictionary is the list of its items in insertion order, each key
    bound once. *)
Module Py.

#[local] Set Warnings "-register-all".

Inductive value : Type :=
| PNone
| PBool (b : bool)
| PInt (z : Z)
| PStr (s : str)
| PList (l : list value)
| PDict (d : list (str * value)).

(** [bool(v)] *)
Definition truthy (v : value) : bool :=
  match v with
  | PNone => false
  | PBool b => b
  | PInt z => negb (z =? 0)%Z
  | PStr s => match s with [] => false | _ => true end
  | PList l => match l with [] => false | _ => true end
  | PDict d => match d with [] => false | _ => true end
  end.

(** [a or b] *)
Definition or_ (a b : value) : value := if truthy a then a else b.

Fixpoint assoc {A} (k : str) (d : list (str * A)) : option A :=
  match d with
  | [] => None
  | (k', v) :: r => if str_eqb k k' then Some v else assoc k r
  end.

(** [isinstance(v, dict)] *)
Definition is_dict (v : value) : bool :=
  match v with PDict _ => true | _ => false end.

(** [v.get(k, default)]: only a dictionary has the attribute [get]. *)
Definition get (v : value) (k : str) (default : value) : result value :=
  match v with
  | PDict d =>
      ret (match assoc k d with Some x => x | None => default end)
  | _ => raise AttributeError
  end.

(** [a != b] where [b] is a string *)
Definition ne_str (a : value) (b : str) : bool :=
  match a with
  | PStr s => negb (str_eqb s b)
  | _ => true
  end.

(** *** Dictionaries keyed by values

    Hashing raises [TypeError] on a list or a dictionary, and [True] and
    [False] are the keys [1] and [0]. *)
Inductive key : Type :=
| KNone
| KInt (z : Z)
| KStr (s : str).

Definition hash (v : value) : result key :=
  match v with
  | PNone => ret KNone
  | PBool b => ret (KInt (if b then 1 else 0))
  | PInt z => ret (KInt z)
  | PStr s => ret (KStr s)
  | PList _ | PDict _ => raise TypeError
  end.

Definition key_eqb (a b : key) : bool :=
  match a, b with
  | KNone, KNone => true
  | KInt x, KInt y => (x =? y)%Z
  | KStr x, KStr y => str_eqb x y
  | _, _ => false
  end.

Definition dict (A : Type) : Type := list (key * A).

Fixpoint dict_get {A} (d : dict A) (k : key) : option A :=
  match d with
  | [] => None
  | (k', v) :: r => if key_eqb k k' then Some v else dict_get r k
  end.

(** [d[k] = v]: a key that is present keeps its place. *)
Fixpoint dict_set {A} (d : dict A) (k : key) (v : A) : dict A :=
  match d with
  | [] => [(k, v)]
  | (k', v') :: r =>
      if key_eqb k k' then (k', v) :: r else (k', v') :: dict_set r k v
  end.

Definition keys {A} (d : dict A) : list key := List.map fst d.

(** [d[k].append(x)] on a [defaultdict(list)] *)
Definition dict_append {A} (d : dict (list A)) (k : key) (x : A)
  : dict (list A) :=
  dict_set d k (match dict_get d k with Some l => l | None => [] end ++ [x]).

(** *** Strings *)
Fixpoint str_ltb (a b : str) : bool :=
  match a, b with
  | _, [] => false
  | [], _ :: _ => true
  | x :: a', y :: b' =>
      if (x <? y)%N then true
      else if (y <? x)%N then false
      else str_ltb a' b'
  end.

(** [sep.join(parts)] *)
Fixpoint join (sep : str) (parts : list str) : str :=
  match parts with
  | [] => []
  | [p] => p
  | p :: r => p ++ sep ++ join sep r
  end.

(** [s.replace(c, by)] for a pattern [c] of one character *)
Definition replace_char (c : char) (by_ : str) (s : str) : str :=
  flat_map (fun x => if (x =? c)%N then by_ else [x]) s.

(** The characters [str.strip()] removes: those with [str.isspace()]. *)
Definition isspace (c : char) : bool :=
  (((9 <=? c) && (c <=? 13)) || ((28 <=? c) && (c <=? 32))
   || (c =? 133) || (c =? 160) || (c =? 5760)
   || ((8192 <=? c) && (c <=? 8202)) || (c =? 8232) || (c =? 8233)
   || (c =? 8239) || (c =? 8287) || (c =? 12288))%N.

Fixpoint lstrip (s : str) : str :=
  match s with
  | c :: r => if isspace c then lstrip r else s
  | [] => []
  end.

Definition rstrip (s : str) : str := rev (lstrip (rev s)).
Definition strip (s : str) : str := rstrip (lstrip s).

Definition of_ascii (s : string) : str :=
  List.map N_of_ascii (list_ascii_of_string s).

(** [str(z)] *)
Definition str_of_int (z : Z) : str :=
  of_ascii (NilZero.string_of_int (Z.to_int z)).

Section Builtins.

(** [repr] of a list or of a dictionary, and [<] between two lists, are
    those of the interpreter. *)
Variable repr_container : value -> str.
Variable list_lt : list value -> list value -> result bool.

(** [str(v)], which is what an f-string puts for [{v}] *)
Definition to_str (v : value) : str :=
  match v with
  | PNone => of_ascii "None"
  | PBool true => of_ascii "True"
  | PBool false => of_ascii "False"
  | PInt z => str_of_int z
  | PStr s => s
  | PList _ | PDict _ => repr_container v
  end.

(** [a < b], which raises [TypeError] between values of different kinds *)
Definition lt (a b : value) : result bool :=
  let as_int v :=
    match v with
    | PBool b => Some (if b then 1 else 0)%Z
    | PInt z => Some z
    | _ => None
    end in
  match a, b with
  | PStr x, PStr y => ret (str_ltb x y)
  | PList x, PList y => list_lt x y
  | _, _ =>
      match as_int a, as_int b with
      | Some x, Some y => ret (x <? y)%Z
      | _, _ => raise TypeError
      end
  end.

End Builtins.

(** *** [sorted(l, key=key)]

    The keys are computed first, one per element and in order; the sort is
    stable, and an exception of a comparison is the exception of the
    sort. *)
Section Sorted.

Context {A K : Type}.
Variable ltb : K -> K -> result bool.

Fixpoint insert_by (x : K * A) (l : list (K * A)) : result (list (K * A)) :=
  match l with
  | [] => ret [x]
  | y :: r =>
      b <- ltb (fst y) (fst x) ;;
      if b then (r' <- insert_by x r ;; ret (y :: r'))
      else ret (x :: y :: r)
  end.

Fixpoint sort_by (l : list (K * A)) : result (list (K * A)) :=
  match l with
  | [] => ret []
  | x :: r => s <- sort_by r ;; insert_by x s
  end.

Definition sorted (key : A -> result K) (l : list A) : result (list A) :=
  keyed <- map_result (fun x => k <- key x ;; ret (k, x)) l ;;
  s <- sort_by keyed ;;
  ret (List.map snd s).

End Sorted.

End Py.

(** ** The script *)
Module Script.

Import Datetime Py.

(** The literals of the script *)
Definition K_data : str := Eval vm_compute in u8 "data".
Definition K_checkItem : str := Eval vm_compute in u8 "checkItem".
Definition K_state : str := Eval vm_compute in u8 "state".
Definition K_name : str := Eval vm_compute in u8 "name".
Definition K_card : str := Eval vm_compute in u8 "card".
Definition K_id : str := Eval vm_compute in u8 "id".
Definition K_shortLink : str := Eval vm_compute in u8 "shortLink".
Definition K_date : str := Eval vm_compute in u8 "date".
Definition S_complete : str := Eval vm_compute in u8 "complete".
Definition S_untitled : str := Eval vm_compute in u8 "Без названия".
Definition S_card_url : str := Eval vm_compute in u8 "https://trello.com/c/".
Definition S_title : str :=
  Eval vm_compute in u8 "Отчёт по выполненным чек-пунктам: ".
Definition S_dash : str := Eval vm_compute in u8 " — ".
(** What starts the line of a completion: U+2003 (em space), U+2014 (em
    dash) and a space *)
Definition S_item : str := [8195%N; 8212%N; 32%N].
Definition S_nothing : str :=
  Eval vm_compute in u8 "За указанную неделю выполненных пунктов не найдено.".
Definition S_href : str := Eval vm_compute in u8 "🔹 <a href=".
Definition QUOTE : char := 34%N.
Definition S_gt : str := Eval vm_compute in u8 ">".
Definition S_a_end : str := Eval vm_compute in u8 "</a>".
Definition S_utc_offset : str := Eval vm_compute in u8 "+00:00".
Definition S_api : str := Eval vm_compute in u8 "https://api.telegram.org/bot".
Definition S_sendMessage : str := Eval vm_compute in u8 "/sendMessage".
Definition NEWLINE : str := [10%N].

#[global] Opaque K_data K_checkItem K_state K_name K_card K_id K_shortLink
  K_date S_complete S_untitled S_card_url S_title S_dash S_item S_nothing
  S_href S_gt S_a_end S_utc_offset S_api S_sendMessage.

Section Script.

(** The interpreter and the platform: the Unicode tables behind [\w], [\d]
    and [str.lower], the [repr] and the order of containers, the C library's
    [%Y] of a small year, the system's local zone, and
    [datetime.fromisoformat]. *)
Variables uni_alnum uni_digit : char -> bool.
Variable str_lower : str -> str.
Variable repr_container : value -> str.
Variable list_lt : list value -> list value -> result bool.
Variable libc_small_year : Z -> str.
Variable mktime : Z -> result Z.
Variable fromisoformat : str -> result datetime.

(** [tz = pytz.timezone(TZ_NAME)] *)
Variable tz : zone.

(** *** The week before the current one (lines 27-37) *)
Section Window.

(** The instant at which the script runs, on the UTC wall clock *)
Variable now_utc : Z.

(** [datetime.datetime.now(tz)] *)
Definition now : result datetime := fromutc tz now_utc.

Definition monday_this_week : result datetime :=
  n <- now ;;
  d <- sub_days n (weekday n) ;;
  ret (replace_midnight d).

Definition start : result datetime :=
  m <- monday_this_week ;; sub_days m 7.

Definition end_ : result datetime := monday_this_week.

Definition to_utc_iso (dt : datetime) : result str :=
  d <- astimezone mktime UTC dt ;; ret (isoformat d).

Definition SINCE : result str := s <- start ;; to_utc_iso s.
Definition BEFORE : result str := e <- end_ ;; to_utc_iso e.

End Window.

(** *** [fmt_local] *)

(** The body of the [try]: [iso_str.replace] exists on a string only. *)
Definition fmt_local_try (iso_str : value) : result value :=
  s <- match iso_str with
       | PStr s => ret (replace_char 90%N S_utc_offset s)
       | _ => raise AttributeError
       end ;;
  dt <- fromisoformat s ;;
  dt <- astimezone mktime tz dt ;;
  ret (PStr (strftime_minute libc_small_year dt)).

(** [except Exception: return iso_str] *)
Definition fmt_local (iso_str : value) : value :=
  match fmt_local_try iso_str with
  | inr v => v
  | inl _ => iso_str
  end.

(** *** [build_report]

    [start_] and [end_v] are the values of the globals [start] and [end]. *)
Section Report.

Variables start_ end_v : datetime.

Record dicts : Type := mkdicts {
  by_card : dict (list (value * value));
  card_meta : dict (value * str)
}.

Definition no_dicts : dicts := mkdicts [] [].

(** What lines 65-76 read from an entry that is kept *)
Record completion : Type := mkcompletion {
  card_id : value;
  card_name : value;
  card_url : str;
  date : value;
  item_name : value
}.

(** Lines 65-76: [None] when the entry is passed over by a [continue]. *)
Definition read_entry (a : value) : result (option completion) :=
  if negb (is_dict a) then ret None
  else
    data <- get a K_data (PDict []) ;;
    ci <- get data K_checkItem (PDict []) ;;
    state <- get ci K_state PNone ;;
    if ne_str state S_complete then ret None
    else
      item_name <- get ci K_name (PStr []) ;;
      card0 <- get data K_card (PDict []) ;;
      let card := or_ card0 (PDict []) in
      card_id <- get card K_id PNone ;;
      card_name <- get card K_name (PStr S_untitled) ;;
      short <- get card K_shortLink (PStr []) ;;
      let card_url :=
        if truthy short then S_card_url ++ to_str repr_container short
        else [] in
      date <- get a K_date PNone ;;
      ret (Some (mkcompletion card_id card_name card_url date item_name)).

(** Lines 77-78: the two dictionaries are updated under the card's key. *)
Definition record_completion (st : dicts) (c : completion) : result dicts :=
  k <- hash (card_id c) ;;
  ret (mkdicts (dict_append (by_card st) k (date c, item_name c))
               (dict_set (card_meta st) k (card_name c, card_url c))).

(** The body of [for a in actions:] *)
Definition scan_step (st : dicts) (a : value) : result dicts :=
  e <- read_entry a ;;
  match e with
  | None => ret st
  | Some c => record_completion st c
  end.

Definition scan (actions : list value) : result dicts :=
  for_each scan_step actions no_dicts.

Definition title : result str :=
  last_day <- sub_days end_v 1 ;;
  ret (S_title ++ strftime_date libc_small_year start_ ++ S_dash
         ++ strftime_date libc_small_year last_day).

(** [d[k]] *)
Definition subscript {A} (d : dict A) (k : key) : result A :=
  match dict_get d k with
  | Some v => ret v
  | None => raise KeyError
  end.

(** [lambda cid: (card_meta[cid][0] or "").lower()] *)
Definition card_sort_key (st : dicts) (cid : key) : result str :=
  meta <- subscript (card_meta st) cid ;;
  match or_ (fst meta) (PStr []) with
  | PStr s => ret (str_lower s)
  | _ => raise AttributeError
  end.

(** [lambda x: x[0] or ""] *)
Definition completion_sort_key (x : value * value) : result value :=
  ret (or_ (fst x) (PStr [])).

Definition header_line (card_name : value) (card_url : str) : str :=
  S_href ++ [QUOTE] ++ card_url ++ [QUOTE] ++ S_gt
    ++ to_str repr_container card_name ++ S_a_end.

Definition completion_line (x : value * value) : str :=
  S_item ++ to_str repr_container (fmt_local (fst x)) ++ S_dash
    ++ to_str repr_container (snd x).

(** The lines that one turn of [for card_id in sorted(...)] appends *)
Definition card_block (st : dicts) (card_id : key) : result (list str) :=
  meta <- subscript (card_meta st) card_id ;;
  completions <- subscript (by_card st) card_id ;;
  ordered <- sorted (lt list_lt) completion_sort_key completions ;;
  ret (header_line (fst meta) (snd meta)
         :: List.map completion_line ordered ++ [[]]).

Definition report_lines (st : dicts) : result (list str) :=
  card_ids <- sorted (fun a b => ret (str_ltb a b)) (card_sort_key st)
                (keys (by_card st)) ;;
  blocks <- map_result (card_block st) card_ids ;;
  ret (List.concat blocks).

Definition build_report (actions : list value) : result (str * str) :=
  st <- scan actions ;;
  t <- title ;;
  match by_card st with
  | [] => ret (t, S_nothing)
  | _ =>
      lines <- report_lines st ;;
      ret (t, strip (join NEWLINE lines))
  end.

End Report.

(** *** [tg_send_html]

    The messaging endpoint is a function of what was posted before and of
    the request: it answers with a status code, or the call itself raises
    (a timeout, a broken connection). *)
Record request : Type := mkreq {
  req_url : str;
  req_chat_id : str;
  req_text : str
}.

Inductive reply : Type :=
| Status (code : Z)
| Broken.

Variable endpoint : list request -> request -> reply.

(** [resp.raise_for_status()] *)
Definition raise_for_status (code : Z) : result unit :=
  if ((400 <=? code) && (code <? 600))%Z then raise HTTPError else ret tt.

(** The body of [for chunk in ...]: the request is posted, then its status
    is checked. *)
Definition post_chunk (token chat_id chunk : str) (posted : list request)
  : list request * result unit :=
  let rq := mkreq (S_api ++ token ++ S_sendMessage) chat_id chunk in
  (posted ++ [rq],
   match endpoint posted rq with
   | Status code => raise_for_status code
   | Broken => raise RequestException
   end).

Fixpoint send_chunks (token chat_id : str) (chunks : list str)
    (posted : list request) : list request * result unit :=
  match chunks with
  | [] => (posted, ret tt)
  | chunk :: rest =>
      match post_chunk token chat_id chunk posted with
      | (posted', inr _) => send_chunks token chat_id rest posted'
      | (posted', inl e) => (posted', raise e)
      end
  end.

(** [textwrap.wrap(text, width=3500, replace_whitespace=False,
    drop_whitespace=False)] *)
Definition chunks_of (text : str) : result (list str) :=
  Textwrap.wrap uni_alnum uni_digit text 3500.

Definition tg_send_html (token chat_id text : str) (posted : list request)
  : list request * result unit :=
  match chunks_of text with
  | inr chunks => send_chunks token chat_id chunks posted
  | inl e => (posted, raise e)
  end.

End Script.

End Script.

(** ** The rest of the script: the settings, the fetch and [main] *)
Module Program.

Import Datetime Py Script.

Definition N_TRELLO_KEY : str := Eval vm_compute in u8 "TRELLO_KEY".
Definition N_TRELLO_TOKEN : str := Eval vm_compute in u8 "TRELLO_TOKEN".
Definition N_BOARD_ID : str := Eval vm_compute in u8 "BOARD_ID".
Definition N_TG_TOKEN : str := Eval vm_compute in u8 "TG_TOKEN".
Definition N_TG_CHAT_ID : str := Eval vm_compute in u8 "TG_CHAT_ID".
Definition N_TZ_NAME : str := Eval vm_compute in u8 "TZ_NAME".
Definition S_Europe_Moscow : str := Eval vm_compute in u8 "Europe/Moscow".
Definition S_boards : str :=
  Eval vm_compute in u8 "https://api.trello.com/1/boards/".
Definition S_actions : str := Eval vm_compute in u8 "/actions".
Definition P_key : str := Eval vm_compute in u8 "key".
Definition P_token : str := Eval vm_compute in u8 "token".
Definition P_filter : str := Eval vm_compute in u8 "filter".
Definition P_limit : str := Eval vm_compute in u8 "limit".
Definition P_since : str := Eval vm_compute in u8 "since".
Definition P_before : str := Eval vm_compute in u8 "before".
Definition S_updateCheckItemStateOnCard : str :=
  Eval vm_compute in u8 "updateCheckItemStateOnCard".
Definition S_b : str := Eval vm_compute in u8 "<b>".
Definition S_b_end : str := Eval vm_compute in u8 "</b>".
Definition S_OK : str := Eval vm_compute in u8 "OK".

#[global] Opaque N_TRELLO_KEY N_TRELLO_TOKEN N_BOARD_ID N_TG_TOKEN
  N_TG_CHAT_ID N_TZ_NAME S_Europe_Moscow S_boards S_actions P_key P_token
  P_filter P_limit P_since P_before S_updateCheckItemStateOnCard S_b S_b_end
  S_OK.

(** *** The settings (lines 13-27)

    The environment is the list of its variables, the first binding of a
    name counting.  What stops the script before it does anything: a
    required variable that is unset or empty ([RuntimeError], with the name
    in its message), and a zone name that [pytz] does not know. *)
Definition environ : Type := list (str * str).

Inductive startup_error : Type :=
| Required (name : str)
| UnknownTimeZone (name : str).

(** [os.getenv(name)] *)
Definition getenv (env : environ) (name : str) : option str :=
  assoc name env.

(** [need]: [not v] holds of [None] and of the empty string. *)
Definition need (env : environ) (name : str) : startup_error + str :=
  match getenv env name with
  | Some (c :: r) => inr (c :: r)
  | Some [] | None => inl (Required name)
  end.

Record settings : Type := mksettings {
  TRELLO_KEY : str;
  TRELLO_TOKEN : str;
  BOARD_ID : str;
  TG_TOKEN : str;
  TG_CHAT_ID : str;
  TZ_NAME : str
}.

Definition and_then {E A B} (m : E + A) (k : A -> E + B) : E + B :=
  match m with
  | inl e => inl e
  | inr a => k a
  end.

(** Lines 19-24, in their order; [os.getenv("TZ_NAME", "Europe/Moscow")]
    takes the default only when the variable is unset. *)
Definition load_settings (env : environ) : startup_error + settings :=
  and_then (need env N_TRELLO_KEY) (fun key =>
  and_then (need env N_TRELLO_TOKEN) (fun token =>
  and_then (need env N_BOARD_ID) (fun board =>
  and_then (need env N_TG_TOKEN) (fun tg_token =>
  and_then (need env N_TG_CHAT_ID) (fun chat =>
  inr (mksettings key token board tg_token chat
         (match getenv env N_TZ_NAME with
          | Some v => v
          | None => S_Europe_Moscow
          end))))))).

(** [tz = pytz.timezone(TZ_NAME)], over the zones [pytz] knows *)
Definition load_zone (timezone : str -> option zone) (cfg : settings)
  : startup_error + zone :=
  match timezone (TZ_NAME cfg) with
  | Some z => inr z
  | None => inl (UnknownTimeZone (TZ_NAME cfg))
  end.

(** *** [get_actions] and [main]

    The board API answers a request with a status code and a body, or the
    call raises; [r.json()] parses the body, or raises. *)
Record get_request : Type := mkget {
  get_url : str;
  get_params : list (str * value)
}.

Inductive get_reply : Type :=
| Answer (code : Z) (body : str)
| Unreachable.

(** [for a in actions]: the elements of a list, the keys of a dictionary,
    the characters of a string; nothing else can be iterated. *)
Definition iterate (v : value) : result (list value) :=
  match v with
  | PList l => ret l
  | PDict d => ret (List.map (fun kv => PStr (fst kv)) d)
  | PStr s => ret (List.map (fun c => PStr [c]) s)
  | PNone | PBool _ | PInt _ => raise TypeError
  end.

Section Run.

Variables uni_alnum uni_digit : char -> bool.
Variable str_lower : str -> str.
Variable repr_container : value -> str.
Variable list_lt : list value -> list value -> result bool.
Variable libc_small_year : Z -> str.
Variable mktime : Z -> result Z.
Variable fromisoformat : str -> result datetime.
Variable tz : zone.

(** The values of the globals *)
Variable cfg : settings.
Variables start_ end_v : datetime.
Variables since before : str.

Variable board : get_request -> get_reply.
Variable json : str -> result value.
Variable endpoint : list request -> request -> reply.

Definition actions_request : get_request :=
  mkget (S_boards ++ BOARD_ID cfg ++ S_actions)
    [(P_key, PStr (TRELLO_KEY cfg));
     (P_token, PStr (TRELLO_TOKEN cfg));
     (P_filter, PStr S_updateCheckItemStateOnCard);
     (P_limit, PInt 1000);
     (P_since, PStr since);
     (P_before, PStr before)].

Definition get_actions : result value :=
  match board actions_request with
  | Unreachable => raise RequestException
  | Answer code body =>
      _ <- raise_for_status code ;;
      json body
  end.

(** [build_report(actions)] on whatever [get_actions] returned *)
Definition build_report_of (actions : value) : result (str * str) :=
  l <- iterate actions ;;
  build_report str_lower repr_container list_lt libc_small_year mktime
    fromisoformat tz start_ end_v l.

(** [main]: what has been posted, what has been printed, and how it ends *)
Definition main (posted : list request)
  : list request * list str * result unit :=
  match get_actions with
  | inl e => (posted, [], raise e)
  | inr actions =>
      match build_report_of actions with
      | inl e => (posted, [], raise e)
      | inr (title, body) =>
          match tg_send_html uni_alnum uni_digit endpoint (TG_TOKEN cfg)
                  (TG_CHAT_ID cfg) (S_b ++ title ++ S_b_end) posted with
          | (posted1, inl e) => (posted1, [], raise e)
          | (posted1, inr _) =>
              match tg_send_html uni_alnum uni_digit endpoint (TG_TOKEN cfg)
                      (TG_CHAT_ID cfg) body posted1 with
              | (posted2, inl e) => (posted2, [], raise e)
              | (posted2, inr _) => (posted2, [S_OK], ret tt)
              end
          end
      end
  end.

End Run.

End Program.

(** ** An instance of the interpreter and of the platform

    Used to run the script on concrete inputs: ASCII case mapping and
    character classes, glibc's unpadded [%Y], a system clock on UTC, and
    [fromisoformat] on the timestamps of the board API
    ([YYYY-MM-DDTHH:MM:SS], an optional fraction of three digits, an
    optional offset [+HH:MM] or [-HH:MM]). *)
Module Host.

Import Datetime Py.
Local Open Scope Z_scope.

Definition no_unicode : char -> bool := fun _ => false.

Definition ascii_lower (s : str) : str :=
  List.map (fun c => if ((65 <=? c) && (c <=? 90))%N then (c + 32)%N else c) s.

Definition repr_unused : value -> str := fun _ => [].
Definition list_lt_unused : list value -> list value -> result bool :=
  fun _ _ => raise TypeError.

Definition glibc_small_year : Z -> str := str_of_int.

Definition mktime_utc : Z -> result Z := fun w => ret w.

Definition dig (c : char) : option Z :=
  if ((48 <=? c) && (c <=? 57))%N then Some (Z.of_N c - 48) else None.

Definition num2 (a b : char) : option Z :=
  match dig a, dig b with
  | Some x, Some y => Some (10 * x + y)
  | _, _ => None
  end.

Definition num3 (a b c : char) : option Z :=
  match dig a, num2 b c with
  | Some x, Some y => Some (100 * x + y)
  | _, _ => None
  end.

Definition num4 (a b c d : char) : option Z :=
  match num2 a b, num2 c d with
  | Some x, Some y => Some (100 * x + y)
  | _, _ => None
  end.

(** The offset [+HH:MM] or [-HH:MM] that may end a timestamp *)
Definition parse_offset (s : str) : option (option Z) :=
  match s with
  | [] => Some None
  | [sign; h1; h2; colon; m1; m2] =>
      match num2 h1 h2, num2 m1 m2 with
      | Some h, Some m =>
          if ((colon =? 58)%N && (h <? 24) && (m <? 60)) then
            if (sign =? 43)%N then Some (Some (h * HOUR + m * MINUTE))
            else if (sign =? 45)%N then Some (Some (- (h * HOUR + m * MINUTE)))
            else None
          else None
      | _, _ => None
      end
  | _ => None
  end.

Definition parse_fraction (s : str) : option (Z * str) :=
  match s with
  | 46%N :: f1 :: f2 :: f3 :: rest =>
      match num3 f1 f2 f3 with
      | Some ms => Some (ms * 1000, rest)
      | None => None
      end
  | _ => Some (0, s)
  end.

Definition fromisoformat (s : str) : result datetime :=
  match s with
  | y1 :: y2 :: y3 :: y4 :: 45%N :: mo1 :: mo2 :: 45%N :: d1 :: d2 :: 84%N
      :: h1 :: h2 :: 58%N :: mi1 :: mi2 :: 58%N :: s1 :: s2 :: rest =>
      match num4 y1 y2 y3 y4, num2 mo1 mo2, num2 d1 d2,
            num2 h1 h2, num2 mi1 mi2, num2 s1 s2, parse_fraction rest with
      | Some y, Some mo, Some d, Some h, Some mi, Some sec, Some (us, rest') =>
          match parse_offset rest' with
          | Some off =>
              if (1 <=? y) && (1 <=? mo) && (mo <=? 12) && (1 <=? d)
                 && (d <=? (if (mo =? 2) && _is_leap y then 29
                            else _DAYS_IN_MONTH mo))
                 && (h <? 24) && (mi <? 60) && (sec <? 60)
              then ret (mkdt (_ymd2ord y mo d)
                          (h * HOUR + mi * MINUTE + sec * 1000000 + us) off)
              else raise ValueError
          | None => raise ValueError
          end
      | _, _, _, _, _, _, _ => raise ValueError
      end
  | _ => raise ValueError
  end.

(** Europe/Moscow since 26 October 2014: UTC+3 *)
Definition moscow : zone := fun _ => 3 * HOUR.

(** Europe/Berlin in 2024: UTC+1, and UTC+2 from 31 March 01:00 UTC to
    27 October 01:00 UTC *)
Definition berlin_2024 : zone :=
  fun u =>
    if (_ymd2ord 2024 3 31 * DAY + 1 * HOUR <=? u)
       && (u <? _ymd2ord 2024 10 27 * DAY + 1 * HOUR)
    then 2 * HOUR else 1 * HOUR.

(** An endpoint that accepts every request *)
Definition accepting : list Script.request -> Script.request -> Script.reply :=
  fun _ _ => Script.Status 200.


(** An endpoint that cannot be reached from the [n]-th request on *)
Definition unreachable_from (n : nat)
  : list Script.request -> Script.request -> Script.reply :=
  fun posted _ =>
    if (n <=? List.length posted)%nat then Script.Broken
    else Script.Status 200.

End Host.

(** * Notions for the statements *)

(** ** Delivery *)
Section DeliveryNotions.

Import Script.

Variable endpoint : list request -> request -> reply.

(** The request that carries a chunk *)
Definition request_of (token chat_id chunk : str) : request :=
  mkreq (S_api ++ token ++ S_sendMessage) chat_id chunk.

(** The endpoint's answer to chunk [i], after the chunks before it *)
Definition answer (token chat_id : str) (posted : list request)
    (chunks : list str) (i : nat) : reply :=
  endpoint (posted ++ List.map (request_of token chat_id) (firstn i chunks))
    (request_of token chat_id (nth i chunks [])).


Definition accepted (r : reply) : Prop :=
  exists code, r = Status code /\ ~ (400 <= code < 600)%Z.

(** A message for the chat [chat_id] through the bot [token]: at least one
    character, at most 3500, and no tab *)
Definition bounded_message (token chat_id : str) (rq : request) : Prop :=
  req_url rq = S_api ++ token ++ S_sendMessage
  /\ req_chat_id rq = chat_id
  /\ 1 <= List.length (req_text rq) <= 3500
  /\ ~ In Textwrap.TAB (req_text rq).

End DeliveryNotions.

(** ** Sorting without exceptions

    [isort] is insertion into a sorted list with a comparison that raises
    nothing: what [sorted] computes when no key and no comparison raises. *)
Section SortNotions.

Context {A K : Type}.
Variable cmp : K -> K -> bool.

Fixpoint insert_pure (x : K * A) (l : list (K * A)) : list (K * A) :=
  match l with
  | [] => [x]
  | y :: r =>
      if cmp (fst y) (fst x) then y :: insert_pure x r else x :: y :: r
  end.

Fixpoint isort (l : list (K * A)) : list (K * A) :=
  match l with
  | [] => []
  | x :: r => insert_pure x (isort r)
  end.

Definition sorted_pure (f : A -> K) (l : list A) : list A :=
  List.map snd (isort (List.map (fun x => (f x, x)) l)).

(** [x] is not after [y] *)
Definition key_le (x y : K * A) : Prop := cmp (fst y) (fst x) = false.

(** [x] and [y] tie: neither key is before the other. *)
Definition tie (x y : K * A) : Prop := key_le x y /\ key_le y x.

End SortNotions.

(** ** The kept entries and their report *)
Section ReportNotions.

Import Datetime Py Script.

Variable str_lower : str -> str.
Variable repr_container : value -> str.
Variable libc_small_year : Z -> str.
Variable mktime : Z -> result Z.
Variable fromisoformat : str -> result datetime.
Variable tz : zone.

(** *** What the loop has stored

    An entry that is kept, under the key of its card *)
Definition keyed_entry (a : value) : result (option (key * completion)) :=
  e <- read_entry repr_container a ;;
  match e with
  | None => ret None
  | Some c => k <- hash (card_id c) ;; ret (Some (k, c))
  end.

(** The kept entries of a sequence, in order *)
Fixpoint kept (actions : list value) : result (list (key * completion)) :=
  match actions with
  | [] => ret []
  | a :: r =>
      e <- keyed_entry a ;;
      l <- kept r ;;
      ret (match e with Some x => x :: l | None => l end)
  end.

(** An entry that the loop passes over with [continue] *)
Definition skipped (a : value) : bool :=
  match read_entry repr_container a with
  | inr None => true
  | _ => false
  end.

Definition store (st : dicts) (x : key * completion) : dicts :=
  mkdicts
    (dict_append (by_card st) (fst x) (date (snd x), item_name (snd x)))
    (dict_set (card_meta st) (fst x) (card_name (snd x), card_url (snd x))).

Definition stored (l : list (key * completion)) : dicts :=
  fold_left store l no_dicts.

Definition of_card (k : key) (l : list (key * completion))
  : list (key * completion) :=
  filter (fun x => key_eqb (fst x) k) l.

(** The completions of card [k], in the order of the input *)
Definition comps_of (k : key) (l : list (key * completion))
  : list (value * value) :=
  List.map (fun x => (date (snd x), item_name (snd x))) (of_card k l).

(** The name and the URL of the last kept entry of card [k] *)
Definition last_meta (k : key) (l : list (key * completion))
  : option (value * str) :=
  match rev (of_card k l) with
  | x :: _ => Some (card_name (snd x), card_url (snd x))
  | [] => None
  end.

(** The name and the URL of the first kept entry of card [k] *)
Definition first_meta (k : key) (l : list (key * completion))
  : option (value * str) :=
  match of_card k l with
  | x :: _ => Some (card_name (snd x), card_url (snd x))
  | [] => None
  end.

(** *** The report of tidy entries

    When every card name and every timestamp is a string, or is falsy, the
    rendering raises nothing and is the following function of the kept
    entries. *)
Definition text_or_falsy (v : value) : bool :=
  match or_ v (PStr []) with PStr _ => true | _ => false end.

Definition names_text (l : list (key * completion)) : bool :=
  forallb (fun x => text_or_falsy (card_name (snd x))) l.

Definition dates_text (l : list (key * completion)) : bool :=
  forallb (fun x => text_or_falsy (date (snd x))) l.

Definition str_of (v : value) : str :=
  match v with PStr s => s | _ => [] end.

(** [(name or "").lower()] *)
Definition name_key (name : value) : str :=
  str_lower (str_of (or_ name (PStr []))).

(** [x[0] or ""] *)
Definition date_key (x : value * value) : value := or_ (fst x) (PStr []).

Definition value_ltb (a b : value) : bool := str_ltb (str_of a) (str_of b).

Definition sort_name (l : list (key * completion)) (k : key) : str :=
  match last_meta k l with
  | Some m => name_key (fst m)
  | None => []
  end.

(** The name a card is shown under: [str] of the name of its last kept
    entry, and that text in lower case *)
Definition displayed_name (l : list (key * completion)) (k : key) : str :=
  match last_meta k l with
  | Some m => to_str repr_container (fst m)
  | None => []
  end.

Definition display_key (l : list (key * completion)) (k : key) : str :=
  str_lower (displayed_name l k).

Definition ordered_cards (l : list (key * completion)) : list key :=
  sorted_pure str_ltb (sort_name l) (keys (by_card (stored l))).

Definition ordered_completions (l : list (key * completion)) (k : key)
  : list (value * value) :=
  sorted_pure value_ltb date_key (comps_of k l).

Definition header_of (l : list (key * completion)) (k : key) : str :=
  match last_meta k l with
  | Some m => header_line repr_container (fst m) (snd m)
  | None => []
  end.

(** The line of a kept entry *)
Definition line_of (x : key * completion) : str :=
  completion_line repr_container libc_small_year mktime fromisoformat tz
    (date (snd x), item_name (snd x)).

Definition block_of (l : list (key * completion)) (k : key) : list str :=
  header_of l k
    :: List.map
         (completion_line repr_container libc_small_year mktime fromisoformat
            tz)
         (ordered_completions l k)
    ++ [[]].

Definition body_of (l : list (key * completion)) : str :=
  match l with
  | [] => S_nothing
  | _ =>
      strip (join NEWLINE (List.concat (List.map (block_of l) (ordered_cards l))))
  end.

(** *** Reordering the input

    The kept entries are tidy when, besides names and timestamps being
    text, the entries of one card agree on the header they give and on the
    sort key of the name, two cards differ in that sort key, and the
    entries of one card differ in their timestamps. *)
Definition entry_header (x : key * completion) : str :=
  header_line repr_container (card_name (snd x)) (card_url (snd x)).

Definition entry_name_key (x : key * completion) : str :=
  name_key (card_name (snd x)).

Definition entry_date (x : key * completion) : str :=
  str_of (date_key (date (snd x), item_name (snd x))).

Definition cards_agree (l : list (key * completion)) : bool :=
  forallb
    (fun x =>
       forallb
         (fun y =>
            if key_eqb (fst x) (fst y)
            then str_eqb (entry_header x) (entry_header y)
                 && str_eqb (entry_name_key x) (entry_name_key y)
            else negb (str_eqb (entry_name_key x) (entry_name_key y)))
         l)
    l.

Fixpoint distinct (l : list str) : bool :=
  match l with
  | [] => true
  | x :: r => negb (existsb (str_eqb x) r) && distinct r
  end.

Definition dates_distinct (l : list (key * completion)) : bool :=
  forallb (fun x => distinct (List.map entry_date (of_card (fst x) l))) l.

Definition tidy (l : list (key * completion)) : bool :=
  names_text l && dates_text l && cards_agree l && dates_distinct l.

End ReportNotions.

(** ** Entries of the board API *)
Section Entries.

Import Py Script.

(** An action with the fields the script reads: the fields of the card, the
    fields of the checklist item, and the date. *)
Definition action (card_fields check_fields : list (str * value))
    (date_field : option value) : value :=
  PDict ((K_data, PDict [(K_card, PDict card_fields);
                         (K_checkItem, PDict check_fields)])
           :: match date_field with
              | Some d => [(K_date, d)]
              | None => []
              end).

(** A completion of item [item] on the card [id], at [date] *)
Definition completed (id name short date_ item : str) : value :=
  action [(K_id, PStr id); (K_name, PStr name); (K_shortLink, PStr short)]
    [(K_state, PStr S_complete); (K_name, PStr item)]
    (Some (PStr date_)).

Definition field (d : list (str * value)) (k : str) (default : value)
  : value :=
  match assoc k d with Some v => v | None => default end.

(** The fields of an entry: those of the card, those of the checklist item,
    and the date *)
Definition entry_fields : Type :=
  list (str * value) * list (str * value) * option value.

Definition action_of (e : entry_fields) : value :=
  action (fst (fst e)) (snd (fst e)) (snd e).

(** The card's identifier can be a key, and the card's name and the date
    are text, or falsy, or missing. *)
Definition plain (e : entry_fields) : bool :=
  match hash (field (fst (fst e)) K_id PNone) with
  | inr _ => true
  | inl _ => false
  end
  && text_or_falsy (field (fst (fst e)) K_name (PStr S_untitled))
  && text_or_falsy (match snd e with Some d => d | None => PNone end).

End Entries.

(** ** Inputs *)

(** A text of 7001 letters is cut into chunks of 3500, 3500 and 1. *)
Definition long_text : str := repeat 97%N 7001.

(** Wednesday 3 April 2024, 10:00 UTC: noon in Berlin, three days after the
    clocks went forward. *)
Definition april_3_2024 : Z :=
  (Datetime._ymd2ord 2024 4 3 * Datetime.DAY + 10 * Datetime.HOUR)%Z.

(** The two completions of the scenario, on one card *)
Definition item_A : Py.value :=
  completed (u8 "c1") (u8 "Card") (u8 "abc") (u8 "2024-01-02T10:00:00Z")
    (u8 "A").
Definition item_B : Py.value :=
  completed (u8 "c1") (u8 "Card") (u8 "abc") (u8 "2024-01-01T09:00:00Z")
    (u8 "B").

(** [build_report] on the instance [Host], in the zone Europe/Moscow, for a
    run on 3 April 2024 *)
Definition host_build (actions : list Py.value)
  : result (str * str) :=
  Script.build_report Host.ascii_lower Host.repr_unused Host.list_lt_unused
    Host.glibc_small_year Host.mktime_utc Host.fromisoformat Host.moscow
    (Datetime.mkdt (Datetime._ymd2ord 2024 3 25) 0 (Some (3 * Datetime.HOUR)%Z))
    (Datetime.mkdt (Datetime._ymd2ord 2024 4 1) 0 (Some (3 * Datetime.HOUR)%Z))
    actions.

Definition host_title : str :=
  Eval vm_compute in
    u8 "Отчёт по выполненным чек-пунктам: 2024-03-25 — 2024-03-31".

(** A card whose name is null, and a card named Alpha *)
Definition null_named : Py.value :=
  action [(Script.K_id, Py.PStr (u8 "c1")); (Script.K_name, Py.PNone)]
    [(Script.K_state, Py.PStr Script.S_complete);
     (Script.K_name, Py.PStr (u8 "x"))]
    (Some (Py.PStr (u8 "2024-03-26T09:00:00Z"))).
Definition alpha_named : Py.value :=
  completed (u8 "c2") (u8 "Alpha") (u8 "abc") (u8 "2024-03-27T09:00:00Z")
    (u8 "y").

(** The card [c1] is renamed between two completions. *)
Definition before_renaming : Py.value :=
  completed (u8 "c1") (u8 "Old name") (u8 "abc") (u8 "2024-03-26T09:00:00Z")
    (u8 "first").
Definition after_renaming : Py.value :=
  completed (u8 "c1") (u8 "New name") (u8 "abc") (u8 "2024-03-27T09:00:00Z")
    (u8 "second").

(** Two completions of one card at the same minute *)
Definition tie_A : Py.value :=
  completed (u8 "c1") (u8 "Card") (u8 "abc") (u8 "2024-03-26T09:00:00Z")
    (u8 "A").
Definition tie_B : Py.value :=
  completed (u8 "c1") (u8 "Card") (u8 "abc") (u8 "2024-03-26T09:00:00Z")
    (u8 "B").

(** What is kept of the completions A and B *)
Definition kept_A_B : list (Py.key * Script.completion) :=
  List.map (fun c => (Py.KStr (u8 "c1"), c))
    [Script.mkcompletion (Py.PStr (u8 "c1")) (Py.PStr (u8 "Card"))
       (u8 "https://trello.com/c/abc") (Py.PStr (u8 "2024-01-02T10:00:00Z"))
       (Py.PStr (u8 "A"));
     Script.mkcompletion (Py.PStr (u8 "c1")) (Py.PStr (u8 "Card"))
       (u8 "https://trello.com/c/abc") (Py.PStr (u8 "2024-01-01T09:00:00Z"))
       (Py.PStr (u8 "B"))].

(** * Properties *)

(** ** The splitter and the wrapping loop *)
Section TextwrapFacts.

Import Textwrap.

Variables uni_alnum uni_digit : char -> bool.

Lemma re_split_concat prev between s :
  List.concat (re_split uni_alnum uni_digit prev between s) = rev between ++ s.
Proof.
  funelim (re_split uni_alnum uni_digit prev between s); simp re_split.
  - simpl. rewrite !app_nil_r. reflexivity.
  - match goal with IH : List.concat _ = _ |- _ => rewrite IH end.
    simpl. rewrite <- app_assoc. reflexivity.
  - simpl.
    match goal with IH : List.concat _ = _ |- _ => rewrite IH end.
    simpl. rewrite firstn_skipn. reflexivity.
  - match goal with IH : List.concat _ = _ |- _ => rewrite IH end.
    simpl. rewrite <- app_assoc. reflexivity.
Qed.

Lemma concat_filter_nonempty (l : list str) :
  List.concat (filter nonempty l) = List.concat l.
Proof.
  induction l as [|c l IH]; simpl; [reflexivity|].
  destruct c; simpl; [exact IH | rewrite IH; reflexivity].
Qed.

Lemma _split_concat text :
  List.concat (_split uni_alnum uni_digit text) = text.
Proof.
  unfold _split. rewrite concat_filter_nonempty, re_split_concat.
  reflexivity.
Qed.

Lemma _split_nonempty text : Forall (fun c => c <> []) (_split uni_alnum uni_digit text).
Proof.
  unfold _split. apply Forall_forall. intros c Hc.
  apply filter_In in Hc. destruct Hc as [_ Hc]. destruct c; [discriminate|].
  discriminate.
Qed.

Lemma store_line_concat cur_line :
  List.concat (store_line cur_line) = List.concat cur_line.
Proof.
  destruct cur_line; simpl; [reflexivity|].
  unfold join0. rewrite app_nil_r. reflexivity.
Qed.

Lemma wrap_loop_concat width chunks :
  List.concat (wrap_loop width chunks) = List.concat chunks.
Proof.
  funelim (wrap_loop width chunks); simp wrap_loop; [reflexivity|].
  rewrite concat_app, store_line_concat.
  match goal with IH : List.concat (wrap_loop _ _) = _ |- _ => rewrite IH end.
  pose proof (@next_line_spec width (c :: cs)) as S.
  destruct (next_line width (c :: cs)) as [cur_line rest].
  apply S. discriminate.
Qed.

Lemma wrap_loop_width width chunks :
  1 <= width ->
  Forall (fun line => List.length line <= width) (wrap_loop width chunks).
Proof.
  intros Hw.
  funelim (wrap_loop width chunks); simp wrap_loop; [constructor|].
  apply Forall_app. split; [|auto].
  pose proof (@next_line_spec width (c :: cs)) as S.
  destruct (next_line width (c :: cs)) as [cur_line rest].
  destruct S as (_ & _ & S); [discriminate|]. simpl.
  destruct cur_line; simpl; constructor; [|constructor].
  apply (S Hw).
Qed.

Lemma expandtabs_from_no_tab tabsize s : forall col,
  ~ In TAB s -> expandtabs_from tabsize col s = s.
Proof.
  induction s as [|c r IH]; intros col Hno; simpl; [reflexivity|].
  destruct (N.eqb_spec c TAB) as [->|Hc].
  - exfalso. apply Hno. left. reflexivity.
  - destruct ((c =? LF) || (c =? CR))%N; rewrite IH; auto;
      intros H; apply Hno; right; exact H.
Qed.

Lemma wrap_ok text width :
  (0 < width)%Z ->
  exists chunks,
    wrap uni_alnum uni_digit text width = inr chunks
    /\ List.concat chunks = expandtabs 8 text
    /\ Forall (fun c => Z.of_nat (List.length c) <= width)%Z chunks.
Proof.
  intros Hw. unfold wrap, _wrap_chunks.
  destruct (Z.leb_spec width 0) as [H|_]; [lia|].
  unfold ret. eexists. split; [reflexivity|]. split.
  - rewrite wrap_loop_concat, _split_concat. reflexivity.
  - eapply Forall_impl; [|apply wrap_loop_width; lia].
    simpl. intros a Ha. lia.
Qed.

End TextwrapFacts.

(** ** Delivery: [tg_send_html] *)
Section Delivery.

Import Script.

Variables uni_alnum uni_digit : char -> bool.
Variable endpoint : list request -> request -> reply.

Lemma raise_for_status_error code :
  (400 <= code < 600)%Z -> raise_for_status code = raise HTTPError.
Proof.
  intros H. unfold raise_for_status.
  destruct (Z.leb_spec 400 code); [|lia].
  destruct (Z.ltb_spec code 600); [reflexivity | lia].
Qed.

Lemma raise_for_status_ok code :
  ~ (400 <= code < 600)%Z -> raise_for_status code = ret tt.
Proof.
  intros H. unfold raise_for_status.
  destruct (Z.leb_spec 400 code); destruct (Z.ltb_spec code 600);
    simpl; try reflexivity; lia.
Qed.


Lemma send_chunks_all token chat_id chunks : forall posted,
  (forall i, i < List.length chunks ->
             accepted (answer endpoint token chat_id posted chunks i)) ->
  send_chunks endpoint token chat_id chunks posted
  = (posted ++ List.map (request_of token chat_id) chunks, ret tt).
Proof.
  induction chunks as [|c rest IH]; intros posted Hok.
  - simpl. rewrite app_nil_r. reflexivity.
  - destruct (Hok 0%nat ltac:(simpl; lia)) as (code & Hr & Hcode).
    unfold answer in Hr. simpl in Hr. rewrite app_nil_r in Hr.
    cbn [Script.send_chunks]. unfold post_chunk.
    fold (request_of token chat_id c).
    rewrite Hr, (raise_for_status_ok Hcode). unfold ret.
    rewrite (IH (posted ++ [request_of token chat_id c])).
    + rewrite <- app_assoc. reflexivity.
    + intros i Hi. specialize (Hok (S i) ltac:(simpl; lia)).
      unfold answer in *. simpl in Hok. rewrite <- app_assoc. exact Hok.
Qed.

Lemma chunks_of_total text :
  exists chunks,
    chunks_of uni_alnum uni_digit text = inr chunks
    /\ List.concat chunks = Textwrap.expandtabs 8 text
    /\ Forall (fun c => List.length c <= 3500) chunks.
Proof.
  destruct (@wrap_ok uni_alnum uni_digit text 3500 ltac:(lia))
    as (chunks & E & Hc & Hw).
  exists chunks. repeat split; auto.
  eapply Forall_impl; [|exact Hw]. simpl. intros a Ha. lia.
Qed.

End Delivery.

(** ** The time window *)
Section WindowFacts.

Import Datetime Script.
Local Open Scope Z_scope.

Variable tz : zone.
Variable now_utc : Z.

Lemma of_wall_inv w off d :
  of_wall w off = inr d ->
  ordinal d = w / DAY /\ tod d = w mod DAY /\ utcoffset d = off
  /\ 1 <= ordinal d <= MAXORD /\ 0 <= tod d < DAY.
Proof.
  unfold of_wall.
  destruct (Z.leb_spec 1 (w / DAY)); destruct (Z.leb_spec (w / DAY) MAXORD);
    simpl; try discriminate.
  intros E. inversion E; subst; simpl.
  pose proof (Z.mod_pos_bound w DAY ltac:(unfold DAY; lia)).
  repeat split; auto; lia.
Qed.

Lemma sub_days_ok d k :
  1 <= ordinal d - k <= MAXORD ->
  sub_days d k = inr (mkdt (ordinal d - k) (tod d) (utcoffset d)).
Proof.
  intros H. unfold sub_days.
  destruct (Z.leb_spec 1 (ordinal d - k));
    destruct (Z.leb_spec (ordinal d - k) MAXORD); simpl; try lia.
  reflexivity.
Qed.

Lemma weekday_range d : 0 <= weekday d < 7.
Proof. unfold weekday. apply Z.mod_pos_bound. lia. Qed.

Lemma weekday_of_monday o : (o - (o + 6) mod 7 + 6) mod 7 = 0.
Proof.
  pose proof (Z.div_mod (o + 6) 7 ltac:(lia)) as E.
  replace (o - (o + 6) mod 7 + 6) with ((o + 6) / 7 * 7) by lia.
  apply Z.mod_mul. lia.
Qed.

(** What the script computes on the wall clock: [start] and [end] read
    Monday 00:00, seven days apart, [end] being the Monday of the week of
    [now]; both carry the [tzinfo] of [now], that is the offset the zone has
    at the instant of the run. *)
Lemma window_wall_clock n :
  now tz now_utc = inr n ->
  14 <= ordinal n ->
  exists s e,
    start tz now_utc = inr s /\ end_ tz now_utc = inr e
    /\ weekday s = 0 /\ tod s = 0 /\ weekday e = 0 /\ tod e = 0
    /\ ordinal e <= ordinal n < ordinal e + 7
    /\ ordinal s = ordinal e - 7
    /\ diff e s = 7 * DAY
    /\ utc_of e - utc_of s = 7 * DAY
    /\ utcoffset s = Some (tz now_utc) /\ utcoffset e = Some (tz now_utc)
    /\ utc_of e <= now_utc.
Proof.
  intros Hn H14.
  pose proof Hn as Hn'. unfold now, fromutc in Hn'.
  apply of_wall_inv in Hn'. destruct Hn' as (Ho & Ht & Hoff & Hr & Htod).
  pose proof (weekday_range n) as Hw.
  unfold start, end_, monday_this_week. rewrite Hn. simpl.
  rewrite sub_days_ok by lia. simpl.
  rewrite sub_days_ok by (simpl; lia). simpl.
  eexists. eexists. split; [reflexivity|]. split; [reflexivity|].
  unfold weekday, diff, utc_of, wall in *. simpl. rewrite Hoff.
  replace (ordinal n - (ordinal n + 6) mod 7 - 7 + 6)
    with ((ordinal n - (ordinal n + 6) mod 7 + 6) + (-1) * 7) by lia.
  rewrite Z.mod_add by lia.
  rewrite weekday_of_monday.
  repeat split; try reflexivity; try lia.
  - unfold DAY. lia.
  - unfold DAY. lia.
  - pose proof (Z.div_mod (now_utc + tz now_utc) DAY
                  ltac:(unfold DAY; lia)) as E.
    rewrite <- Ho, <- Ht in E. unfold DAY in *. lia.
Qed.

End WindowFacts.

(** ** Strings, dictionaries and [sorted] *)
Section PyFacts.

Import Py.

Lemma str_eqb_eq a b : str_eqb a b = true <-> a = b.
Proof.
  unfold str_eqb. destruct (list_eq_dec N.eq_dec a b); split; congruence.
Qed.

(** *** The order of strings *)
Lemma str_ltb_irrefl a : str_ltb a a = false.
Proof.
  induction a as [|x a IH]; simpl; [reflexivity|].
  rewrite N.ltb_irrefl. exact IH.
Qed.

Lemma str_ltb_trans a : forall b c,
  str_ltb a b = true -> str_ltb b c = true -> str_ltb a c = true.
Proof.
  induction a as [|x a IH]; intros [|y b] [|z c]; simpl; try discriminate;
    auto.
  destruct (N.ltb_spec x y) as [Hxy|Hxy].
  - intros _. destruct (N.ltb_spec y z) as [Hyz|Hyz].
    + intros _. destruct (N.ltb_spec x z); [reflexivity | lia].
    + destruct (N.ltb_spec z y); [discriminate|].
      intros _. destruct (N.ltb_spec x z); [reflexivity | lia].
  - destruct (N.ltb_spec y x); [discriminate|].
    assert (x = y) by lia. subst y. intros Hab.
    destruct (N.ltb_spec x z); [reflexivity|].
    destruct (N.ltb_spec z x); [discriminate|].
    apply IH. exact Hab.
Qed.

Lemma str_ltb_total a : forall b,
  str_ltb a b = false -> str_ltb b a = false -> a = b.
Proof.
  induction a as [|x a IH]; intros [|y b]; simpl; try discriminate; auto.
  destruct (N.ltb_spec x y), (N.ltb_spec y x); try discriminate; try lia.
  intros H1 H2. assert (x = y) by lia. subst. f_equal. auto.
Qed.

Lemma str_ltb_asym a b : str_ltb a b = true -> str_ltb b a = false.
Proof.
  intros H. destruct (str_ltb b a) eqn:E; [|reflexivity].
  pose proof (str_ltb_trans _ _ _ H E) as T.
  rewrite str_ltb_irrefl in T. discriminate.
Qed.

Lemma str_ltb_nil a : str_ltb a [] = false.
Proof. destruct a; reflexivity. Qed.

(** *** Keys *)
Lemma key_eqb_eq a b : key_eqb a b = true <-> a = b.
Proof.
  destruct a, b; simpl; split; try discriminate; try congruence.
  - intros H. apply Z.eqb_eq in H. congruence.
  - intros H. inversion H. apply Z.eqb_refl.
  - intros H. apply str_eqb_eq in H. congruence.
  - intros H. inversion H. apply str_eqb_eq. reflexivity.
Qed.

Lemma key_eqb_refl a : key_eqb a a = true.
Proof. apply key_eqb_eq. reflexivity. Qed.

Lemma key_eqb_sym a b : key_eqb a b = key_eqb b a.
Proof.
  destruct (key_eqb a b) eqn:E1, (key_eqb b a) eqn:E2; auto.
  - apply key_eqb_eq in E1. subst. rewrite key_eqb_refl in E2. discriminate.
  - apply key_eqb_eq in E2. subst. rewrite key_eqb_refl in E1. discriminate.
Qed.

Lemma key_eq_dec (a b : key) : {a = b} + {a <> b}.
Proof.
  destruct (key_eqb a b) eqn:E.
  - left. apply key_eqb_eq. exact E.
  - right. intros H. apply key_eqb_eq in H. congruence.
Qed.

(** *** Dictionaries *)
Lemma dict_get_set {A} (d : dict A) k v k' :
  dict_get (dict_set d k v) k'
  = if key_eqb k' k then Some v else dict_get d k'.
Proof.
  induction d as [|[k0 v0] d IH]; simpl.
  - destruct (key_eqb k' k); reflexivity.
  - destruct (key_eqb k k0) eqn:E; simpl.
    + apply key_eqb_eq in E. subst k0.
      destruct (key_eqb k' k); reflexivity.
    + rewrite IH. destruct (key_eqb k' k0) eqn:E'; [|reflexivity].
      apply key_eqb_eq in E'. subst k0.
      rewrite key_eqb_sym, E. reflexivity.
Qed.

Lemma keys_set {A} (d : dict A) k v :
  keys (dict_set d k v)
  = match dict_get d k with
    | Some _ => keys d
    | None => keys d ++ [k]
    end.
Proof.
  unfold keys. induction d as [|[k0 v0] d IH]; simpl; [reflexivity|].
  destruct (key_eqb k k0) eqn:E; simpl; [reflexivity|].
  rewrite IH. destruct (dict_get d k); reflexivity.
Qed.

Lemma dict_get_in_keys {A} (d : dict A) k :
  In k (keys d) <-> dict_get d k <> None.
Proof.
  unfold keys. induction d as [|[k0 v0] d IH]; simpl.
  - split; [tauto | congruence].
  - destruct (key_eqb k k0) eqn:E.
    + apply key_eqb_eq in E. subst. split; [discriminate | auto].
    + rewrite <- IH. split; [|auto].
      intros [H|H]; [|exact H]. subst.
      rewrite key_eqb_refl in E. discriminate.
Qed.

End PyFacts.

(** *** [sorted] when the keys and their comparisons do not raise

    [isort] is the sort without exceptions; under a strict total order of
    the keys it returns the one sorted arrangement. *)
Section SortFacts.

Import Py.

Context {A K : Type}.
Variable cmp : K -> K -> bool.

Lemma insert_pure_perm (x : K * A) (l : list (K * A)) :
  Permutation (insert_pure cmp x l) (x :: l).
Proof.
  induction l as [|y r IH]; simpl; [apply Permutation_refl|].
  destruct (cmp (fst y) (fst x)); [|apply Permutation_refl].
  eapply Permutation_trans; [apply perm_skip, IH | apply perm_swap].
Qed.

Lemma isort_perm (l : list (K * A)) : Permutation (isort cmp l) l.
Proof.
  induction l as [|x r IH]; simpl; [constructor|].
  eapply Permutation_trans; [apply insert_pure_perm | apply perm_skip, IH].
Qed.

Lemma sorted_pure_perm (f : A -> K) (l : list A) : Permutation (sorted_pure cmp f l) l.
Proof.
  unfold sorted_pure.
  eapply Permutation_trans; [apply Permutation_map, isort_perm|].
  rewrite map_map. simpl. rewrite map_id. apply Permutation_refl.
Qed.

Variable ltb : K -> K -> result bool.

Lemma insert_by_pure (x : K * A) (l : list (K * A)) :
  (forall y, In y l -> ltb (fst y) (fst x) = ret (cmp (fst y) (fst x))) ->
  insert_by ltb x l = ret (insert_pure cmp x l).
Proof.
  induction l as [|y r IH]; intros H; simpl; [reflexivity|].
  rewrite (H y (or_introl eq_refl)). simpl.
  destruct (cmp (fst y) (fst x)); [|reflexivity].
  rewrite IH; [reflexivity|]. intros z Hz. apply H. right. exact Hz.
Qed.

Lemma sort_by_pure (l : list (K * A)) :
  (forall a b, In a l -> In b l ->
               ltb (fst a) (fst b) = ret (cmp (fst a) (fst b))) ->
  sort_by ltb l = ret (isort cmp l).
Proof.
  induction l as [|x r IH]; intros H; simpl; [reflexivity|].
  rewrite IH by (intros a b Ha Hb; apply H; right; assumption). simpl.
  apply insert_by_pure. intros y Hy.
  apply H; [right | left; reflexivity].
  eapply Permutation_in; [apply isort_perm | exact Hy].
Qed.

Lemma map_result_pure {B C} (g : B -> result C) (f : B -> C) (l : list B) :
  (forall x, In x l -> g x = ret (f x)) ->
  map_result g l = ret (List.map f l).
Proof.
  induction l as [|x r IH]; intros H; simpl; [reflexivity|].
  rewrite (H x (or_introl eq_refl)). simpl.
  rewrite IH by (intros y Hy; apply H; right; exact Hy). reflexivity.
Qed.

Lemma sorted_is_pure (key : A -> result K) (f : A -> K) (l : list A) :
  (forall x, In x l -> key x = ret (f x)) ->
  (forall a b, In a l -> In b l -> ltb (f a) (f b) = ret (cmp (f a) (f b))) ->
  sorted ltb key l = ret (sorted_pure cmp f l).
Proof.
  intros Hk Hc. unfold sorted, sorted_pure.
  rewrite (@map_result_pure _ _ _ (fun x => (f x, x))).
  - simpl. rewrite sort_by_pure; [reflexivity|].
    intros a b Ha Hb. apply in_map_iff in Ha, Hb.
    destruct Ha as (a' & <- & Ha), Hb as (b' & <- & Hb). simpl. auto.
  - intros x Hx. rewrite (Hk x Hx). reflexivity.
Qed.

(** **** Under a strict weak order *)
Hypothesis cmp_irrefl : forall a, cmp a a = false.
Hypothesis cmp_trans :
  forall a b c, cmp a b = true -> cmp b c = true -> cmp a c = true.
Hypothesis cmp_le_trans :
  forall a b c, cmp b a = false -> cmp c b = false -> cmp c a = false.

Lemma insert_pure_sorted (x : K * A) (l : list (K * A)) :
  StronglySorted (key_le cmp) l -> StronglySorted (key_le cmp) (insert_pure cmp x l).
Proof.
  induction l as [|y r IH]; intros Hs; simpl.
  - constructor; constructor.
  - inversion Hs as [|? ? Hr Hy]; subst.
    destruct (cmp (fst y) (fst x)) eqn:E.
    + constructor; [apply IH; exact Hr|].
      apply Forall_forall. intros z Hz.
      apply (Permutation_in _ (insert_pure_perm x r)) in Hz.
      destruct Hz as [<-|Hz].
      * unfold key_le. destruct (cmp (fst x) (fst y)) eqn:E'; [|reflexivity].
        pose proof (cmp_trans E E') as T. rewrite cmp_irrefl in T.
        discriminate.
      * rewrite Forall_forall in Hy. apply Hy. exact Hz.
    + constructor; [exact Hs|].
      constructor; [exact E|].
      apply Forall_forall. intros z Hz.
      rewrite Forall_forall in Hy.
      unfold key_le. eapply cmp_le_trans; [exact E | apply Hy; exact Hz].
Qed.

Lemma isort_sorted (l : list (K * A)) : StronglySorted (key_le cmp) (isort cmp l).
Proof.
  induction l as [|x r IH]; simpl; [constructor|].
  apply insert_pure_sorted. exact IH.
Qed.

(** Two sorted arrangements of the same elements are equal when only equal
    elements tie. *)
Lemma sorted_unique (l : list (K * A)) : forall l',
  StronglySorted (key_le cmp) l -> StronglySorted (key_le cmp) l' ->
  (forall x y, In x l -> In y l -> tie cmp x y -> x = y) ->
  Permutation l l' -> l = l'.
Proof.
  induction l as [|x r IH]; intros l' Hs Hs' Hties Hp.
  - apply Permutation_nil in Hp. congruence.
  - destruct l' as [|x' r'];
      [apply Permutation_sym, Permutation_nil in Hp; discriminate|].
    assert (Hin : In x (x' :: r'))
      by (eapply Permutation_in; [exact Hp | left; reflexivity]).
    assert (Hin' : In x' (x :: r))
      by (eapply Permutation_in;
          [apply Permutation_sym, Hp | left; reflexivity]).
    assert (Hx : x = x').
    { inversion Hs as [|? ? _ Hall]; subst.
      inversion Hs' as [|? ? _ Hall']; subst.
      rewrite Forall_forall in Hall, Hall'.
      destruct Hin as [E|Hin]; [congruence|].
      pose proof Hin' as Hin2.
      destruct Hin' as [E|Hin']; [congruence|].
      apply Hties; [left; reflexivity | exact Hin2 |].
      split; [apply (Hall x' Hin') | apply (Hall' x Hin)]. }
    subst x'. f_equal.
    inversion Hs; inversion Hs'; subst.
    apply IH; auto.
    + intros a b Ha Hb. apply Hties; right; assumption.
    + eapply Permutation_cons_inv. exact Hp.
Qed.

Lemma isort_unique (l l' : list (K * A)) :
  (forall x y, In x l -> In y l -> tie cmp x y -> x = y) ->
  Permutation l l' -> isort cmp l = isort cmp l'.
Proof.
  intros Hties Hp. apply sorted_unique; try apply isort_sorted.
  - intros x y Hx Hy. apply Hties; eapply Permutation_in;
      try apply isort_perm; assumption.
  - eapply Permutation_trans; [apply isort_perm|].
    eapply Permutation_trans; [exact Hp | apply Permutation_sym, isort_perm].
Qed.

Lemma sorted_pure_unique (f : A -> K) (l l' : list A) :
  (forall x y, In x l -> In y l ->
               cmp (f x) (f y) = false -> cmp (f y) (f x) = false -> x = y) ->
  Permutation l l' ->
  sorted_pure cmp f l = sorted_pure cmp f l'.
Proof.
  intros Hties Hp. unfold sorted_pure. f_equal. apply isort_unique.
  - intros x y Hx Hy [H1 H2]. apply in_map_iff in Hx, Hy.
    destruct Hx as (a & <- & Ha), Hy as (b & <- & Hb).
    unfold key_le in H1, H2. simpl in H1, H2.
    rewrite (Hties a b Ha Hb H2 H1). reflexivity.
  - apply Permutation_map. exact Hp.
Qed.

Lemma sorted_pure_ext (f g : A -> K) (l : list A) :
  (forall x, In x l -> f x = g x) -> sorted_pure cmp f l = sorted_pure cmp g l.
Proof.
  intros H. unfold sorted_pure. f_equal. f_equal.
  apply map_ext_in. intros x Hx. rewrite (H x Hx). reflexivity.
Qed.

(** The result is in ascending order of the keys. *)
Lemma sorted_pure_ascending (f : A -> K) (l : list A) :
  StronglySorted (fun x y => cmp (f y) (f x) = false) (sorted_pure cmp f l).
Proof.
  unfold sorted_pure.
  assert (Hall : Forall (fun p => fst p = f (snd p))
                   (isort cmp (List.map (fun x => (f x, x)) l))).
  { apply Forall_forall. intros p Hp.
    apply (Permutation_in _ (isort_perm _)) in Hp.
    apply in_map_iff in Hp. destruct Hp as (x & <- & _). reflexivity. }
  pose proof (isort_sorted (List.map (fun x => (f x, x)) l)) as Hs.
  induction Hs as [|p r Hr IH Hp]; simpl; [constructor|].
  inversion Hall as [|? ? Hp0 Hall0]; subst.
  constructor; [apply IH; exact Hall0|].
  apply Forall_forall. intros y Hy. apply in_map_iff in Hy.
  destruct Hy as (q & <- & Hq).
  rewrite Forall_forall in Hp, Hall0.
  specialize (Hp q Hq). unfold key_le in Hp.
  rewrite Hp0, (Hall0 q Hq) in Hp. exact Hp.
Qed.

End SortFacts.

(** ** The report *)
Section ReportFacts.

Import Datetime Py Script.

Variable str_lower : str -> str.
Variable repr_container : value -> str.
Variable list_lt : list value -> list value -> result bool.
Variable libc_small_year : Z -> str.
Variable mktime : Z -> result Z.
Variable fromisoformat : str -> result datetime.
Variable tz : zone.

Local Notation "'READ'" := (read_entry repr_container).
Local Notation "'SCAN'" := (scan repr_container).
Local Notation "'LINE'" :=
  (completion_line repr_container libc_small_year mktime fromisoformat tz).
Local Notation "'BLOCK'" :=
  (card_block repr_container list_lt libc_small_year mktime fromisoformat tz).
Local Notation "'LINES'" :=
  (report_lines str_lower repr_container list_lt libc_small_year mktime
     fromisoformat tz).
Local Notation "'BUILD'" :=
  (build_report str_lower repr_container list_lt libc_small_year mktime
     fromisoformat tz).

Lemma scan_step_keyed st a :
  scan_step repr_container st a
  = (e <- keyed_entry repr_container a ;;
     ret (match e with Some x => store st x | None => st end)).
Proof.
  unfold scan_step, keyed_entry, record_completion, store.
  destruct (READ a) as [e|[c|]]; simpl; try reflexivity.
  destruct (hash (card_id c)); reflexivity.
Qed.

Lemma for_each_scan actions : forall st,
  for_each (scan_step repr_container) actions st
  = (l <- kept repr_container actions ;; ret (fold_left store l st)).
Proof.
  induction actions as [|a r IH]; intros st; simpl; [reflexivity|].
  rewrite scan_step_keyed.
  destruct (keyed_entry repr_container a) as [e|[x|]]; simpl; [reflexivity| |].
  - rewrite IH. destruct (kept repr_container r); reflexivity.
  - rewrite IH. destruct (kept repr_container r); reflexivity.
Qed.

Lemma scan_kept actions :
  SCAN actions = (l <- kept repr_container actions ;; ret (stored l)).
Proof. apply for_each_scan. Qed.

Lemma of_card_snoc k l x :
  of_card k (l ++ [x])
  = of_card k l ++ (if key_eqb (fst x) k then [x] else []).
Proof.
  unfold of_card. rewrite filter_app. simpl.
  destruct (key_eqb (fst x) k); reflexivity.
Qed.

Lemma stored_snoc l x : stored (l ++ [x]) = store (stored l) x.
Proof. unfold stored. rewrite fold_left_app. reflexivity. Qed.

(** The two dictionaries have the cards of the kept entries as keys, each
    once; a card is bound to its completions in the order of the input, and
    to the name and the URL of its last entry. *)
Lemma stored_spec l :
  NoDup (keys (by_card (stored l)))
  /\ keys (card_meta (stored l)) = keys (by_card (stored l))
  /\ (forall k, In k (keys (by_card (stored l)))
                <-> In k (List.map fst l))
  /\ (forall k, dict_get (by_card (stored l)) k
                = match of_card k l with
                  | [] => None
                  | _ => Some (comps_of k l)
                  end)
  /\ (forall k, dict_get (card_meta (stored l)) k = last_meta k l).
Proof.
  induction l as [|x l IH] using rev_ind.
  - simpl. repeat split; try constructor; simpl; tauto.
  - destruct IH as (Hnd & Hkeys & Hin & Hby & Hmeta).
    rewrite stored_snoc. unfold store. simpl.
    unfold dict_append. rewrite !keys_set.
    assert (Hsame : dict_get (card_meta (stored l)) (fst x) = None
                    <-> dict_get (by_card (stored l)) (fst x) = None).
    { pose proof (dict_get_in_keys (card_meta (stored l)) (fst x)) as H1.
      pose proof (dict_get_in_keys (by_card (stored l)) (fst x)) as H2.
      rewrite Hkeys in H1.
      destruct (dict_get (card_meta (stored l)) (fst x)),
        (dict_get (by_card (stored l)) (fst x)); split; intros; auto;
        try discriminate.
      - exfalso. apply H2; [apply H1; discriminate | reflexivity].
      - exfalso. apply H1; [apply H2; discriminate | reflexivity]. }
    split; [|split; [|split; [|split]]].
    + destruct (dict_get (by_card (stored l)) (fst x)) eqn:E; [exact Hnd|].
      apply NoDup_app; [exact Hnd | repeat constructor; simpl; tauto |].
      intros k Hk [<-|[]].
      apply dict_get_in_keys in Hk. congruence.
    + destruct (dict_get (card_meta (stored l)) (fst x)) eqn:E1,
        (dict_get (by_card (stored l)) (fst x)) eqn:E2; try congruence.
      * destruct Hsame as [_ H]. specialize (H eq_refl). discriminate.
      * destruct Hsame as [H _]. specialize (H eq_refl). discriminate.
    + intros k. rewrite map_app, in_app_iff. simpl.
      destruct (dict_get (by_card (stored l)) (fst x)) eqn:E.
      * rewrite Hin. split; [tauto|].
        intros [H|[<-|[]]]; [exact H|].
        apply Hin. apply dict_get_in_keys. congruence.
      * rewrite in_app_iff, Hin. simpl. tauto.
    + intros k. rewrite dict_get_set, Hby.
      unfold comps_of. rewrite of_card_snoc, key_eqb_sym.
      destruct (key_eqb (fst x) k) eqn:E.
      * apply key_eqb_eq in E. subst k.
        rewrite map_app. simpl.
        destruct (of_card (fst x) l) eqn:El; reflexivity.
      * rewrite app_nil_r, ?Hby. reflexivity.
    + intros k. rewrite dict_get_set, ?Hmeta.
      unfold last_meta. rewrite of_card_snoc, key_eqb_sym.
      destruct (key_eqb (fst x) k) eqn:E.
      * rewrite rev_app_distr. reflexivity.
      * rewrite app_nil_r. reflexivity.
Qed.

Lemma of_card_in k l x : In x (of_card k l) <-> In x l /\ fst x = k.
Proof.
  unfold of_card. rewrite filter_In, key_eqb_eq. tauto.
Qed.

Lemma of_card_nonempty k l : In k (List.map fst l) <-> of_card k l <> [].
Proof.
  split.
  - intros H. apply in_map_iff in H. destruct H as (x & <- & Hx).
    assert (In x (of_card (fst x) l)) by (apply of_card_in; auto).
    intros E. rewrite E in H. contradiction.
  - intros H. destruct (of_card k l) as [|x r] eqn:E; [congruence|].
    assert (Hx : In x (of_card k l)) by (rewrite E; left; reflexivity).
    apply of_card_in in Hx. destruct Hx as [Hx <-].
    apply in_map. exact Hx.
Qed.

Lemma last_meta_in k l :
  In k (List.map fst l) ->
  exists x, In x l /\ fst x = k
            /\ last_meta k l = Some (card_name (snd x), card_url (snd x)).
Proof.
  intros H. apply of_card_nonempty in H. unfold last_meta.
  destruct (rev (of_card k l)) as [|x r] eqn:E.
  - apply (f_equal (@rev _)) in E. rewrite rev_involutive in E.
    simpl in E. congruence.
  - exists x. assert (Hx : In x (of_card k l)).
    { apply in_rev. rewrite E. left. reflexivity. }
    apply of_card_in in Hx. tauto.
Qed.

Lemma text_or_falsy_str v :
  text_or_falsy v = true -> or_ v (PStr []) = PStr (str_of (or_ v (PStr []))).
Proof.
  unfold text_or_falsy. destruct (or_ v (PStr [])); try discriminate.
  reflexivity.
Qed.

Lemma card_sort_key_spec l k :
  names_text l = true ->
  In k (List.map fst l) ->
  card_sort_key str_lower (stored l) k = ret (sort_name str_lower l k).
Proof.
  intros Hn Hk. unfold card_sort_key, subscript, sort_name.
  destruct (stored_spec l) as (_ & _ & _ & _ & Hmeta). rewrite Hmeta.
  destruct (last_meta_in _ _ Hk) as (x & Hx & _ & ->). simpl.
  unfold names_text in Hn. rewrite forallb_forall in Hn.
  specialize (Hn x Hx). unfold name_key.
  rewrite (text_or_falsy_str _ Hn) at 1. reflexivity.
Qed.

Lemma comps_of_in k l c :
  In c (comps_of k l) ->
  exists x, In x l /\ fst x = k /\ c = (date (snd x), item_name (snd x)).
Proof.
  unfold comps_of. intros H. apply in_map_iff in H.
  destruct H as (x & <- & Hx). apply of_card_in in Hx.
  exists x. tauto.
Qed.

(** Sorting the completions of a card raises nothing when their timestamps
    are text. *)
Lemma sorted_completions_spec (comps : list (value * value)) :
  Forall (fun c => text_or_falsy (fst c) = true) comps ->
  sorted (lt list_lt) completion_sort_key comps
  = ret (sorted_pure value_ltb date_key comps).
Proof.
  intros Hall. rewrite Forall_forall in Hall.
  apply (@sorted_is_pure _ _ value_ltb (lt list_lt) completion_sort_key
           date_key).
  - intros c _. reflexivity.
  - intros a b Ha Hb.
    pose proof (text_or_falsy_str _ (Hall a Ha)) as Ea.
    pose proof (text_or_falsy_str _ (Hall b Hb)) as Eb.
    unfold date_key, value_ltb. rewrite Ea, Eb. reflexivity.
Qed.

Lemma card_block_spec l k :
  dates_text l = true ->
  In k (List.map fst l) ->
  BLOCK (stored l) k = ret (block_of repr_container libc_small_year mktime fromisoformat tz l k).
Proof.
  intros Hd Hk. unfold card_block, subscript, block_of, header_of.
  destruct (stored_spec l) as (_ & _ & _ & Hby & Hmeta).
  rewrite Hmeta, Hby.
  destruct (last_meta_in _ _ Hk) as (x & Hx & _ & ->). simpl.
  apply of_card_nonempty in Hk.
  destruct (of_card k l) eqn:E; [congruence|]. simpl.
  rewrite sorted_completions_spec; [reflexivity|].
  apply Forall_forall. intros c Hc.
  apply comps_of_in in Hc. destruct Hc as (y & Hy & _ & ->).
  unfold dates_text in Hd. rewrite forallb_forall in Hd. apply (Hd y Hy).
Qed.

Lemma ordered_cards_perm l :
  Permutation (ordered_cards str_lower l) (keys (by_card (stored l))).
Proof. apply sorted_pure_perm. Qed.

Lemma report_lines_spec l :
  names_text l = true -> dates_text l = true ->
  LINES (stored l)
  = ret (List.concat (List.map (block_of repr_container libc_small_year mktime fromisoformat tz l) (ordered_cards str_lower l))).
Proof.
  intros Hn Hd. unfold report_lines.
  destruct (stored_spec l) as (_ & _ & Hin & _ & _).
  rewrite (@sorted_is_pure _ _ str_ltb _ _ (sort_name str_lower l)).
  - simpl. fold (ordered_cards str_lower l).
    rewrite (@map_result_pure _ _ _ (block_of repr_container libc_small_year mktime fromisoformat tz l)); [reflexivity|].
    intros k Hk. apply card_block_spec; [exact Hd|].
    apply Hin. eapply Permutation_in; [apply ordered_cards_perm | exact Hk].
  - intros k Hk. apply card_sort_key_spec; [exact Hn|]. apply Hin. exact Hk.
  - reflexivity.
Qed.

Lemma stored_empty l : by_card (stored l) = [] <-> l = [].
Proof.
  split; [|intros ->; reflexivity].
  intros E. destruct l as [|x r]; [reflexivity|].
  destruct (stored_spec (x :: r)) as (_ & _ & Hin & _).
  assert (H : In (fst x) (keys (by_card (stored (x :: r)))))
    by (apply Hin; left; reflexivity).
  rewrite E in H. contradiction.
Qed.

Lemma distinct_NoDup l : distinct l = true -> NoDup l.
Proof.
  induction l as [|x r IH]; simpl; [constructor|].
  intros H. apply andb_prop in H. destruct H as [Hx Hr].
  constructor; [|apply IH; exact Hr].
  intros Hin. apply negb_true_iff in Hx.
  assert (E : existsb (str_eqb x) r = true).
  { apply existsb_exists. exists x. split; [exact Hin|].
    apply str_eqb_eq. reflexivity. }
  congruence.
Qed.

Lemma NoDup_map_inj {B C} (f : B -> C) (l : list B) a b :
  NoDup (List.map f l) -> In a l -> In b l -> f a = f b -> a = b.
Proof.
  induction l as [|x r IH]; intros Hnd Ha Hb E; [contradiction|].
  simpl in Hnd. inversion Hnd as [|? ? Hx Hr]; subst.
  destruct Ha as [->|Ha], Hb as [->|Hb]; auto.
  - exfalso. apply Hx. rewrite E. apply in_map. exact Hb.
  - exfalso. apply Hx. rewrite <- E. apply in_map. exact Ha.
Qed.

Lemma str_ltb_le_trans a b c :
  str_ltb b a = false -> str_ltb c b = false -> str_ltb c a = false.
Proof.
  intros Hab Hbc. destruct (str_ltb c a) eqn:E; [|reflexivity].
  destruct (str_ltb a b) eqn:E'.
  - rewrite (@str_ltb_trans _ _ _ E E') in Hbc. discriminate.
  - rewrite (@str_ltb_total _ _ E' Hab) in E. congruence.
Qed.

Lemma of_card_perm k l l' :
  Permutation l l' -> Permutation (of_card k l) (of_card k l').
Proof.
  unfold of_card. induction 1; simpl.
  - constructor.
  - destruct (key_eqb (fst x) k); [constructor|]; assumption.
  - destruct (key_eqb (fst x) k), (key_eqb (fst y) k);
      try apply Permutation_refl. apply perm_swap.
  - eapply Permutation_trans; eassumption.
Qed.

Lemma comps_of_perm k l l' :
  Permutation l l' -> Permutation (comps_of k l) (comps_of k l').
Proof.
  intros H. unfold comps_of. apply Permutation_map, of_card_perm. exact H.
Qed.

Lemma keys_perm l l' :
  Permutation l l' ->
  Permutation (keys (by_card (stored l))) (keys (by_card (stored l'))).
Proof.
  intros H.
  destruct (stored_spec l) as (Hnd & _ & Hin & _).
  destruct (stored_spec l') as (Hnd' & _ & Hin' & _).
  apply NoDup_Permutation; auto.
  intros k. rewrite Hin, Hin'.
  split; apply Permutation_in; [|apply Permutation_sym];
    apply Permutation_map; exact H.
Qed.

Lemma cards_agree_spec l x y :
  cards_agree str_lower repr_container l = true -> In x l -> In y l ->
  (fst x = fst y ->
   entry_header repr_container x = entry_header repr_container y /\ entry_name_key str_lower x = entry_name_key str_lower y)
  /\ (entry_name_key str_lower x = entry_name_key str_lower y -> fst x = fst y).
Proof.
  intros H Hx Hy. unfold cards_agree in H.
  rewrite forallb_forall in H. specialize (H x Hx).
  rewrite forallb_forall in H. specialize (H y Hy).
  destruct (key_eqb (fst x) (fst y)) eqn:E.
  - apply key_eqb_eq in E. apply andb_prop in H. destruct H as [H1 H2].
    apply str_eqb_eq in H1, H2. tauto.
  - apply negb_true_iff in H. split.
    + intros E'. apply key_eqb_eq in E'. congruence.
    + intros E'. apply str_eqb_eq in E'. congruence.
Qed.

Section Reordered.

Variables l l' : list (key * completion).
Hypothesis tidy_l : tidy str_lower repr_container l = true.
Hypothesis perm : Permutation l l'.

Lemma tidy_parts :
  names_text l = true /\ dates_text l = true
  /\ cards_agree str_lower repr_container l = true /\ dates_distinct l = true.
Proof.
  unfold tidy in tidy_l. repeat (apply andb_prop in tidy_l as [tidy_l ?]).
  auto.
Qed.

Lemma last_entries k :
  In k (List.map fst l) ->
  exists x x',
    In x l /\ In x' l /\ fst x = k /\ fst x' = k
    /\ last_meta k l = Some (card_name (snd x), card_url (snd x))
    /\ last_meta k l' = Some (card_name (snd x'), card_url (snd x')).
Proof.
  intros Hk.
  destruct (last_meta_in _ _ Hk) as (x & Hx & Ek & E).
  assert (Hk' : In k (List.map fst l'))
    by (eapply Permutation_in; [apply Permutation_map, perm | exact Hk]).
  destruct (last_meta_in _ _ Hk') as (x' & Hx' & Ek' & E').
  exists x, x'. repeat split; auto.
  eapply Permutation_in; [apply Permutation_sym, perm | exact Hx'].
Qed.

Lemma sort_name_perm k :
  In k (List.map fst l) -> sort_name str_lower l' k = sort_name str_lower l k.
Proof.
  intros Hk.
  destruct (@last_entries k Hk) as (x & x' & Hx & Hx' & E1 & E2 & E & E').
  unfold sort_name. rewrite E, E'. simpl.
  destruct tidy_parts as (_ & _ & Hc & _).
  destruct (@cards_agree_spec _ _ _ Hc Hx Hx') as [H _].
  symmetry. apply H. congruence.
Qed.

Lemma header_of_perm k :
  In k (List.map fst l) -> header_of repr_container l' k = header_of repr_container l k.
Proof.
  intros Hk.
  destruct (@last_entries k Hk) as (x & x' & Hx & Hx' & E1 & E2 & E & E').
  unfold header_of. rewrite E, E'. simpl.
  destruct tidy_parts as (_ & _ & Hc & _).
  destruct (@cards_agree_spec _ _ _ Hc Hx Hx') as [H _].
  symmetry. apply H. congruence.
Qed.

Lemma ordered_cards_reordered : ordered_cards str_lower l' = ordered_cards str_lower l.
Proof.
  unfold ordered_cards.
  destruct (stored_spec l) as (_ & _ & Hin & _).
  destruct (stored_spec l') as (_ & _ & Hin' & _).
  rewrite (@sorted_pure_ext _ _ str_ltb (sort_name str_lower l') (sort_name str_lower l)).
  - symmetry. apply sorted_pure_unique.
    + apply str_ltb_irrefl.
    + intros a b c. apply str_ltb_trans.
    + intros a b c. apply str_ltb_le_trans.
    + intros k1 k2 H1 H2 T1 T2.
      apply Hin in H1, H2.
      destruct (last_meta_in _ _ H1) as (x1 & Hx1 & <- & E1).
      destruct (last_meta_in _ _ H2) as (x2 & Hx2 & <- & E2).
      unfold sort_name in T1, T2. rewrite E1, E2 in T1, T2. simpl in T1, T2.
      destruct tidy_parts as (_ & _ & Hc & _).
      destruct (@cards_agree_spec _ _ _ Hc Hx1 Hx2) as [_ H]. apply H.
      apply str_ltb_total; assumption.
    + apply keys_perm. exact perm.
  - intros k Hk. apply sort_name_perm.
    apply Hin' in Hk.
    eapply Permutation_in; [apply Permutation_map, Permutation_sym, perm|].
    exact Hk.
Qed.

Lemma ordered_completions_reordered k :
  In k (List.map fst l) ->
  ordered_completions l' k = ordered_completions l k.
Proof.
  intros Hk. unfold ordered_completions. symmetry.
  apply sorted_pure_unique.
  - intros a. apply str_ltb_irrefl.
  - intros a b c. apply str_ltb_trans.
  - intros a b c. apply str_ltb_le_trans.
  - intros c1 c2 H1 H2 T1 T2.
    assert (E : str_of (date_key c1) = str_of (date_key c2))
      by (apply str_ltb_total; assumption).
    destruct tidy_parts as (_ & _ & _ & Hd).
    unfold dates_distinct in Hd. rewrite forallb_forall in Hd.
    apply in_map_iff in Hk. destruct Hk as (x & <- & Hx).
    specialize (Hd x Hx). apply distinct_NoDup in Hd.
    apply (@NoDup_map_inj _ _ (fun c => str_of (date_key c))
             (comps_of (fst x) l)); auto.
    unfold comps_of. rewrite map_map. exact Hd.
  - apply comps_of_perm. exact perm.
Qed.

End Reordered.

Lemma body_of_reordered l l' :
  tidy str_lower repr_container l = true -> Permutation l l' -> body_of str_lower repr_container libc_small_year mktime fromisoformat tz l' = body_of str_lower repr_container libc_small_year mktime fromisoformat tz l.
Proof.
  intros Ht Hp. unfold body_of.
  rewrite (ordered_cards_reordered Ht Hp).
  destruct l as [|x r] eqn:El.
  - apply Permutation_nil in Hp. rewrite Hp. reflexivity.
  - destruct l' as [|x' r'] eqn:El';
      [apply Permutation_sym, Permutation_nil in Hp; discriminate|].
    rewrite <- El, <- El' in *.
    do 3 f_equal.
    apply map_ext_in. intros k Hk.
    destruct (stored_spec l) as (_ & _ & Hin & _).
    assert (Hk' : In k (List.map fst l)).
    { apply Hin. eapply Permutation_in; [apply ordered_cards_perm|]. exact Hk. }
    unfold block_of.
    rewrite (@header_of_perm _ _ Ht Hp k Hk'),
      (@ordered_completions_reordered _ _ Ht Hp k Hk').
    reflexivity.
Qed.

Lemma keyed_entry_kept a r l :
  kept repr_container (a :: r) = inr l ->
  exists e lr, keyed_entry repr_container a = inr e /\ kept repr_container r = inr lr
               /\ l = match e with Some x => x :: lr | None => lr end.
Proof.
  simpl. destruct (keyed_entry repr_container a) as [?|e]; simpl; [discriminate|].
  destruct (kept repr_container r) as [?|lr]; simpl; [discriminate|].
  intros E. inversion E. eauto.
Qed.

Lemma kept_perm actions actions' :
  Permutation actions actions' ->
  forall l, kept repr_container actions = inr l ->
  exists l', kept repr_container actions' = inr l' /\ Permutation l l'.
Proof.
  induction 1 as [|a r r' Hp IH|a b r|r1 r2 r3 H1 IH1 H2 IH2]; intros l0 Hk.
  - exists l0. split; [exact Hk | apply Permutation_refl].
  - apply keyed_entry_kept in Hk. destruct Hk as (e & lr & Ea & Er & ->).
    destruct (IH _ Er) as (lr' & Er' & Hperm).
    simpl. rewrite Ea, Er'. simpl. eexists. split; [reflexivity|].
    destruct e; [apply perm_skip|]; exact Hperm.
  - apply keyed_entry_kept in Hk. destruct Hk as (eb & lr & Eb & Er & ->).
    apply keyed_entry_kept in Er. destruct Er as (ea & lr' & Ea & Er & ->).
    simpl. rewrite Ea, Eb, Er. simpl. eexists. split; [reflexivity|].
    destruct ea, eb; try apply Permutation_refl. apply perm_swap.
  - destruct (IH1 _ Hk) as (l1 & E1 & P1).
    destruct (IH2 _ E1) as (l2 & E2 & P2).
    exists l2. split; [exact E2 | eapply Permutation_trans; eassumption].
Qed.

Lemma forallb_perm {B} (f : B -> bool) (l l' : list B) :
  Permutation l l' -> forallb f l = true -> forallb f l' = true.
Proof.
  intros Hp H. rewrite forallb_forall in *. intros x Hx. apply H.
  eapply Permutation_in; [apply Permutation_sym, Hp | exact Hx].
Qed.

Variables start_ end_v : datetime.

(** [build_report] on tidy entries: the title, and the body above *)
Lemma build_report_spec actions l :
  kept repr_container actions = inr l ->
  names_text l = true -> dates_text l = true ->
  BUILD start_ end_v actions
  = (t <- title libc_small_year start_ end_v ;; ret (t, body_of str_lower repr_container libc_small_year mktime fromisoformat tz l)).
Proof.
  intros Hk Hn Hd. unfold build_report.
  rewrite scan_kept, Hk. simpl.
  destruct (title libc_small_year start_ end_v) as [e|t]; [reflexivity|].
  simpl. destruct (by_card (stored l)) eqn:E.
  - apply stored_empty in E. subst l. reflexivity.
  - rewrite (report_lines_spec _ Hn Hd). simpl.
    destruct l; [discriminate|]. reflexivity.
Qed.

End ReportFacts.

(** * The claims *)

(** ** Delivery *)

(** C1 (the code departs from it): a text that is one tab is not sent as
    it is.  [textwrap.wrap] is called without [expand_tabs=False], so the tab
    becomes the eight spaces that reach column 8: the one chunk is eight
    spaces, the chunks do not concatenate to the text, and that chunk is
    what [tg_send_html] posts. *)
Theorem C1_tab_is_sent_as_spaces
    (ua ud : char -> bool)
    (endpoint : list Script.request -> Script.request -> Script.reply)
    (token chat_id : str) (posted : list Script.request) :
  Script.chunks_of ua ud [Textwrap.TAB] = inr [repeat Textwrap.SPACE 8]
  /\ List.concat [repeat Textwrap.SPACE 8] <> [Textwrap.TAB]
  /\ fst (Script.tg_send_html ua ud endpoint token chat_id [Textwrap.TAB]
            posted)
     = posted ++ [request_of token chat_id (repeat Textwrap.SPACE 8)].
Proof.
  assert (E : Script.chunks_of ua ud [Textwrap.TAB]
              = inr [repeat Textwrap.SPACE 8]).
  { vm_compute. reflexivity. }
  split; [exact E|]. split; [discriminate|].
  unfold Script.tg_send_html. rewrite E. cbn [Script.send_chunks].
  unfold Script.post_chunk.
  destruct (endpoint posted _) as [code|];
    [destruct (Script.raise_for_status code) as [e|u]|]; reflexivity.
Qed.

(** X20: for every text, the chunks of [tg_send_html] concatenate, in
    order, to the text with its tabs expanded ([str.expandtabs(8)]), and so
    to the text itself when it holds no tab; no chunk is longer than 3500
    characters. *)
Theorem X20_chunks_rebuild_expanded_text (ua ud : char -> bool) (text : str) :
  exists chunks,
    Script.chunks_of ua ud text = inr chunks
    /\ List.concat chunks = Textwrap.expandtabs 8 text
    /\ (~ In Textwrap.TAB text -> List.concat chunks = text)
    /\ Forall (fun c => List.length c <= 3500) chunks.
Proof.
  destruct (chunks_of_total ua ud text) as (chunks & E & Hc & Hw).
  exists chunks. repeat split; auto.
  intros Hno. rewrite Hc. apply expandtabs_from_no_tab. exact Hno.
Qed.

Lemma X20_witness :
  exists chunks,
    Script.chunks_of Host.no_unicode Host.no_unicode long_text = inr chunks
    /\ List.map (@List.length char) chunks = [3500; 3500; 1]
    /\ List.concat chunks = long_text.
Proof.
  destruct (X20_chunks_rebuild_expanded_text Host.no_unicode Host.no_unicode
              long_text) as (chunks & E & _ & Hc & _).
  exists chunks. split; [exact E|]. split.
  - assert (E' : Script.chunks_of Host.no_unicode Host.no_unicode long_text
                 = inr [repeat 97%N 3500; repeat 97%N 3500; [97%N]])
      by (vm_compute; reflexivity).
    rewrite E' in E. inversion E. vm_compute. reflexivity.
  - apply Hc. intros Hin. apply repeat_spec in Hin. discriminate Hin.
Defined.

(** The scenario of the specification: a text of 10000 characters is cut
    into three chunks, of 3500, 3500 and 3000 characters. *)
Example ten_thousand_letters_three_chunks :
  exists chunks,
    Script.chunks_of Host.no_unicode Host.no_unicode (repeat 97%N 10000)
    = inr chunks
    /\ List.map (@List.length char) chunks = [3500; 3500; 3000].
Proof. eexists. split; vm_compute; reflexivity. Qed.



(** C10: for the empty text the list of chunks is empty, and
    [tg_send_html] posts nothing. *)
Theorem C10_empty_text_posts_nothing
    (ua ud : char -> bool)
    (endpoint : list Script.request -> Script.request -> Script.reply)
    (token chat_id : str) (posted : list Script.request) :
  Script.chunks_of ua ud [] = inr []
  /\ Script.tg_send_html ua ud endpoint token chat_id [] posted
     = (posted, inr tt).
Proof.
  assert (E : Script.chunks_of ua ud [] = inr []) by reflexivity.
  split; [exact E|]. unfold Script.tg_send_html. rewrite E. reflexivity.
Qed.

(** ** The time window *)

(** C2 (the code departs from it): run in the zone Europe/Berlin on
    3 April 2024, the script takes as [start] the reading Monday 25 March
    00:00 with the offset +02:00 of the day of the run.  Berlin was at +01:00
    on that Monday: the instant of [start] is Sunday 24 March 23:00 on the
    clock of the zone, and [SINCE] is one hour before the zone's midnight. *)
Theorem C2_berlin_start_is_sunday_evening :
  let monday_25 :=
    Datetime.mkdt (Datetime._ymd2ord 2024 3 25) 0
      (Some (2 * Datetime.HOUR)%Z) in
  Script.start Host.berlin_2024 april_3_2024 = inr monday_25
  /\ Script.end_ Host.berlin_2024 april_3_2024
     = inr (Datetime.mkdt (Datetime._ymd2ord 2024 4 1) 0
              (Some (2 * Datetime.HOUR)%Z))
  /\ Datetime.fromutc Host.berlin_2024 (Datetime.utc_of monday_25)
     = inr (Datetime.mkdt (Datetime._ymd2ord 2024 3 24)
              (23 * Datetime.HOUR)%Z (Some (1 * Datetime.HOUR)%Z))
  /\ Script.SINCE Host.mktime_utc Host.berlin_2024 april_3_2024
     = inr (u8 "2024-03-24T22:00:00+00:00").
Proof. vm_compute. repeat split; reflexivity. Qed.

(** ** The report *)
Section ReportClaims.

Import Datetime Py Script.

Variable str_lower : str -> str.
Variable repr_container : value -> str.
Variable list_lt : list value -> list value -> result bool.
Variable libc_small_year : Z -> str.
Variable mktime : Z -> result Z.
Variable fromisoformat : str -> result datetime.
Variable tz : zone.

(** C3 (the code departs from it): an entry whose [data] is [null] is not
    passed over: [data.get] raises [AttributeError], and [build_report]
    returns no report. *)
Theorem C3_null_data_raises (start_ end_v : datetime) :
  build_report str_lower repr_container list_lt libc_small_year mktime
    fromisoformat tz start_ end_v [PDict [(K_data, PNone)]]
  = inl AttributeError.
Proof. vm_compute. reflexivity. Qed.

(** What the loop does pass over: an entry that is not a dictionary. *)
Lemma read_entry_not_dict a :
  is_dict a = false -> read_entry repr_container a = ret None.
Proof. intros H. unfold read_entry. rewrite H. reflexivity. Qed.






Lemma assoc_hd {A} k (v : A) r : assoc k ((k, v) :: r) = Some v.
Proof.
  simpl. assert (E : str_eqb k k = true) by (apply str_eqb_eq; reflexivity).
  rewrite E. reflexivity.
Qed.

Lemma assoc_tl {A} k k' (v : A) r :
  str_eqb k k' = false -> assoc k ((k', v) :: r) = assoc k r.
Proof. intros E. simpl. rewrite E. reflexivity. Qed.

(** What lines 65-76 read from such an action: the name of the card is
    [Untitled] (in the script's language) when the card has none, and its
    URL is empty when the card has no short link, or a falsy one. *)
Lemma read_action card_fields check_fields date_field :
  read_entry repr_container (action card_fields check_fields date_field)
  = ret (if ne_str (field check_fields K_state PNone) S_complete then None
         else
           Some (mkcompletion
                   (field card_fields K_id PNone)
                   (field card_fields K_name (PStr S_untitled))
                   (let short := field card_fields K_shortLink (PStr []) in
                    if truthy short
                    then S_card_url ++ to_str repr_container short
                    else [])
                   (match date_field with Some d => d | None => PNone end)
                   (field check_fields K_name (PStr [])))).
Proof.
  set (inner := [(K_card, PDict card_fields);
                  (K_checkItem, PDict check_fields)]).
  set (dated := match date_field with Some d => [(K_date, d)] | None => [] end).
  assert (A1 : assoc K_data ((K_data, PDict inner) :: dated)
               = Some (PDict inner)) by apply assoc_hd.
  assert (A2 : assoc K_checkItem inner = Some (PDict check_fields)).
  { unfold inner. rewrite assoc_tl by (vm_compute; reflexivity).
    apply assoc_hd. }
  assert (A3 : assoc K_card inner = Some (PDict card_fields))
    by apply assoc_hd.
  assert (A4 : assoc K_date ((K_data, PDict inner) :: dated) = date_field).
  { rewrite assoc_tl by (vm_compute; reflexivity).
    unfold dated. destruct date_field; [apply assoc_hd|reflexivity]. }
  assert (Ecard : or_ (PDict card_fields) (PDict []) = PDict card_fields)
    by (destruct card_fields; reflexivity).
  unfold read_entry, action, get, field. fold inner. fold dated.
  cbn [is_dict negb]. rewrite A1. cbn [bind ret]. rewrite A2. cbn [bind ret].
  destruct (ne_str _ S_complete); [reflexivity|].
  cbn [bind ret]. rewrite A3, Ecard. cbn [bind ret]. rewrite A4.
  destruct date_field; reflexivity.
Qed.

(** *** Grouping *)

(** C4 (amended): the report groups the kept entries by the identifier of
    their card, and shows each card under the name and the URL of the last
    kept entry of that card; the name is the card's [name], or the default
    when the card has none, and the URL is [https://trello.com/c/] followed
    by the short link, or empty when the card has none. *)
Theorem C4_card_shown_as_in_last_entry (actions : list value) (st : dicts) :
  scan repr_container actions = inr st ->
  exists l,
    kept repr_container actions = inr l
    /\ NoDup (keys (by_card st))
    /\ (forall k, In k (keys (by_card st)) <-> In k (List.map fst l))
    /\ (forall k, dict_get (card_meta st) k = last_meta k l)
    /\ (forall k block,
          card_block repr_container list_lt libc_small_year mktime
            fromisoformat tz st k = inr block ->
          exists m,
            last_meta k l = Some m
            /\ hd_error block = Some (header_line repr_container (fst m) (snd m)))
    /\ (forall card_fields check_fields date_field c,
          read_entry repr_container (action card_fields check_fields date_field)
          = inr (Some c) ->
          card_id c = field card_fields K_id PNone
          /\ card_name c = field card_fields K_name (PStr S_untitled)
          /\ card_url c
             = match assoc K_shortLink card_fields with
               | Some short =>
                   if truthy short
                   then S_card_url ++ to_str repr_container short
                   else []
               | None => []
               end).
Proof.
  intros Hscan. rewrite scan_kept in Hscan.
  destruct (kept repr_container actions) as [?|l]; [discriminate|].
  simpl in Hscan. inversion Hscan; subst st.
  destruct (stored_spec l) as (Hnd & _ & Hin & _ & Hmeta).
  exists l. repeat split; auto; try apply Hin.
  - intros k block Hb. unfold card_block, subscript in Hb.
    rewrite Hmeta in Hb.
    destruct (last_meta k l) as [m|]; [|discriminate]. simpl in Hb.
    exists m. split; [reflexivity|].
    destruct (dict_get (by_card (stored l)) k); [|discriminate].
    simpl in Hb.
    destruct (sorted (lt list_lt) completion_sort_key l0); [discriminate|].
    inversion Hb. reflexivity.
  - rewrite read_action in H.
    destruct (ne_str _ S_complete); inversion H. reflexivity.
  - rewrite read_action in H.
    destruct (ne_str _ S_complete); inversion H. reflexivity.
  - rewrite read_action in H.
    destruct (ne_str _ S_complete); inversion H. simpl.
    unfold field. destruct (assoc K_shortLink card_fields); reflexivity.
Qed.

(** *** Order *)

(** C5 (amended): when the kept entries are tidy (names and timestamps are
    text, the entries of one card agree on its name and URL, two cards
    differ in the lowercased name, and the entries of one card differ in
    their timestamps), [build_report] returns the same report for every
    reordering of the input; every card has one block, and the block of a
    card has each of its completions once. *)
Theorem C5_tidy_report_ignores_order
    (start_ end_v : datetime) (actions actions' : list value)
    (l : list (key * completion)) :
  kept repr_container actions = inr l ->
  tidy str_lower repr_container l = true ->
  Permutation actions actions' ->
  build_report str_lower repr_container list_lt libc_small_year mktime
    fromisoformat tz start_ end_v actions'
  = build_report str_lower repr_container list_lt libc_small_year mktime
      fromisoformat tz start_ end_v actions
  /\ build_report str_lower repr_container list_lt libc_small_year mktime
       fromisoformat tz start_ end_v actions
     = (t <- title libc_small_year start_ end_v ;;
        ret (t, body_of str_lower repr_container libc_small_year mktime
                  fromisoformat tz l))
  /\ NoDup (ordered_cards str_lower l)
  /\ (forall k, In k (ordered_cards str_lower l) <-> In k (List.map fst l))
  /\ (forall k, Permutation (ordered_completions l k) (comps_of k l)).
Proof.
  intros Hk Ht Hp.
  destruct (@kept_perm repr_container actions actions' Hp l Hk)
    as (l' & Hk' & Hl).
  pose proof (@tidy_parts str_lower repr_container l Ht) as (Hn & Hd & _ & _).
  destruct (stored_spec l) as (Hnd & _ & Hin & _).
  split; [|split; [|split; [|split]]].
  - rewrite (@build_report_spec str_lower repr_container list_lt
               libc_small_year mktime fromisoformat tz start_ end_v
               actions l Hk Hn Hd).
    rewrite (@build_report_spec str_lower repr_container list_lt
               libc_small_year mktime fromisoformat tz start_ end_v
               actions' l' Hk'
               (@forallb_perm _ _ l l' Hl Hn) (@forallb_perm _ _ l l' Hl Hd)).
    rewrite (@body_of_reordered str_lower repr_container libc_small_year
               mktime fromisoformat tz l l' Ht Hl).
    reflexivity.
  - apply build_report_spec; assumption.
  - eapply Permutation_NoDup; [|exact Hnd].
    apply Permutation_sym, ordered_cards_perm.
  - intros k. rewrite <- Hin. split; apply Permutation_in;
      [|apply Permutation_sym]; apply ordered_cards_perm.
  - intros k. apply sorted_pure_perm.
Qed.

Lemma scenario_A_B (start_ end_v : datetime) :
  build_report str_lower repr_container list_lt libc_small_year mktime
    fromisoformat tz start_ end_v [item_A; item_B]
  = (t <- title libc_small_year start_ end_v ;;
     ret (t,
          strip
            (join NEWLINE
               [header_line repr_container (PStr (u8 "Card"))
                  (u8 "https://trello.com/c/abc");
                completion_line repr_container libc_small_year mktime
                  fromisoformat tz
                  (PStr (u8 "2024-01-01T09:00:00Z"), PStr (u8 "B"));
                completion_line repr_container libc_small_year mktime
                  fromisoformat tz
                  (PStr (u8 "2024-01-02T10:00:00Z"), PStr (u8 "A"));
                []]))).
Proof.
  set (k := KStr (u8 "c1")).
  set (url := u8 "https://trello.com/c/abc").
  set (cA := mkcompletion (PStr (u8 "c1")) (PStr (u8 "Card")) url
               (PStr (u8 "2024-01-02T10:00:00Z")) (PStr (u8 "A"))).
  set (cB := mkcompletion (PStr (u8 "c1")) (PStr (u8 "Card")) url
               (PStr (u8 "2024-01-01T09:00:00Z")) (PStr (u8 "B"))).
  assert (Hk : kept repr_container [item_A; item_B] = inr [(k, cA); (k, cB)])
    by (vm_compute; reflexivity).
  rewrite (@build_report_spec str_lower repr_container list_lt
             libc_small_year mktime fromisoformat tz start_ end_v
             _ _ Hk eq_refl eq_refl).
  reflexivity.
Qed.

(** C6 (amended): when names and timestamps are text or falsy, the blocks
    of the cards come in ascending order of the lowercased name stored for
    the card, a falsy name counting as the empty string; this is the
    lowercased name the block displays whenever the stored name is a
    string.  In a
    block the lines come in ascending order of the timestamp, a missing or
    empty timestamp counting as the empty string: only lines whose
    timestamp counts as empty come before such a line.  The completions A
    (2 January) and B (1 January) of one card are rendered B first. *)
Theorem C6_cards_by_name_lines_by_timestamp
    (start_ end_v : datetime) (actions : list value)
    (l : list (key * completion)) :
  kept repr_container actions = inr l ->
  names_text l = true ->
  dates_text l = true ->
  build_report str_lower repr_container list_lt libc_small_year mktime
    fromisoformat tz start_ end_v actions
  = (t <- title libc_small_year start_ end_v ;;
     ret (t, body_of str_lower repr_container libc_small_year mktime
               fromisoformat tz l))
  /\ StronglySorted
       (fun k1 k2 =>
          str_ltb (sort_name str_lower l k2) (sort_name str_lower l k1)
          = false)
       (ordered_cards str_lower l)
  /\ (forall k s url,
        last_meta k l = Some (PStr s, url) ->
        sort_name str_lower l k = display_key str_lower repr_container l k)
  /\ (forall k,
        StronglySorted
          (fun c1 c2 =>
             str_ltb (str_of (date_key c2)) (str_of (date_key c1)) = false)
          (ordered_completions l k))
  /\ (forall c, truthy (fst c) = false -> date_key c = PStr [])
  /\ (forall k before c after,
        ordered_completions l k = before ++ c :: after ->
        truthy (fst c) = false ->
        Forall (fun c' => str_of (date_key c') = []) before)
  /\ build_report str_lower repr_container list_lt libc_small_year mktime
       fromisoformat tz start_ end_v [item_A; item_B]
     = (t <- title libc_small_year start_ end_v ;;
        ret (t,
             strip
               (join NEWLINE
                  [header_line repr_container (PStr (u8 "Card"))
                     (u8 "https://trello.com/c/abc");
                   completion_line repr_container libc_small_year mktime
                     fromisoformat tz
                     (PStr (u8 "2024-01-01T09:00:00Z"), PStr (u8 "B"));
                   completion_line repr_container libc_small_year mktime
                     fromisoformat tz
                     (PStr (u8 "2024-01-02T10:00:00Z"), PStr (u8 "A"));
                   []]))).
Proof.
  intros Hk Hn Hd.
  assert (Hasc : forall k,
             StronglySorted
               (fun c1 c2 =>
                  str_ltb (str_of (date_key c2)) (str_of (date_key c1)) = false)
               (ordered_completions l k)).
  { intros k. unfold ordered_completions.
    apply (@sorted_pure_ascending _ _ value_ltb).
    - intros a. apply str_ltb_irrefl.
    - intros a b c. apply str_ltb_trans.
    - intros a b c. apply str_ltb_le_trans. }
  split; [apply build_report_spec; assumption|].
  split.
  { unfold ordered_cards. apply (@sorted_pure_ascending _ _ str_ltb).
    - apply str_ltb_irrefl.
    - intros a b c. apply str_ltb_trans.
    - intros a b c. apply str_ltb_le_trans. }
  split.
  { intros k s url Hm.
    unfold sort_name, display_key, displayed_name, name_key. rewrite Hm.
    destruct s; reflexivity. }
  split; [exact Hasc|].
  split.
  { intros c Hc. unfold date_key, or_. rewrite Hc. reflexivity. }
  split.
  { intros k before c after E Hc.
    specialize (Hasc k). rewrite E in Hasc.
    assert (Hkey : str_of (date_key c) = []).
    { unfold date_key, or_. rewrite Hc. reflexivity. }
    clear E. induction before as [|b r IH]; [constructor|].
    simpl in Hasc. inversion Hasc as [|? ? Hr Hb]; subst.
    constructor; [|apply IH; exact Hr].
    rewrite Forall_forall in Hb.
    specialize (Hb c ltac:(apply in_or_app; right; left; reflexivity)).
    simpl in Hb. rewrite Hkey in Hb.
    destruct (str_of (date_key b)); [reflexivity | discriminate]. }
  apply scenario_A_B.
Qed.

End ReportClaims.

(** C4 (as stated, refuted): the name kept for a card is not the one of its
    first completion.  Line 78 assigns [card_meta[card_id]] at every kept
    entry, so the last one stays. *)
Lemma C4_first_name_is_overwritten :
  ~ (forall (repr_container : Py.value -> str) (actions : list Py.value)
            (st : Script.dicts) (l : list (Py.key * Script.completion))
            (k : Py.key),
        Script.scan repr_container actions = inr st ->
        kept repr_container actions = inr l ->
        Py.dict_get (Script.card_meta st) k = first_meta k l).
Proof.
  intros H.
  specialize (H Host.repr_unused [before_renaming; after_renaming] _ _
                (Py.KStr (u8 "c1")) eq_refl eq_refl).
  vm_compute in H. discriminate H.
Qed.

Lemma C4_witness :
  exists st l,
    Script.scan Host.repr_unused [before_renaming; after_renaming] = inr st
    /\ kept Host.repr_unused [before_renaming; after_renaming] = inr l
    /\ Py.dict_get (Script.card_meta st) (Py.KStr (u8 "c1"))
       = Some (Py.PStr (u8 "New name"), u8 "https://trello.com/c/abc").
Proof.
  eexists. 
  destruct (@C4_card_shown_as_in_last_entry Host.repr_unused
              Host.list_lt_unused Host.glibc_small_year Host.mktime_utc
              Host.fromisoformat Host.moscow
              [before_renaming; after_renaming] _ eq_refl)
    as (l & Hk & _ & _ & Hmeta & _).
  exists l. split; [reflexivity|]. split; [exact Hk|].
  rewrite Hmeta.
  assert (E : kept Host.repr_unused [before_renaming; after_renaming]
              = inr (List.map
                       (fun c => (Py.KStr (u8 "c1"), c))
                       [Script.mkcompletion (Py.PStr (u8 "c1"))
                          (Py.PStr (u8 "Old name"))
                          (u8 "https://trello.com/c/abc")
                          (Py.PStr (u8 "2024-03-26T09:00:00Z"))
                          (Py.PStr (u8 "first"));
                        Script.mkcompletion (Py.PStr (u8 "c1"))
                          (Py.PStr (u8 "New name"))
                          (u8 "https://trello.com/c/abc")
                          (Py.PStr (u8 "2024-03-27T09:00:00Z"))
                          (Py.PStr (u8 "second"))]))
    by (vm_compute; reflexivity).
  rewrite E in Hk. inversion Hk. vm_compute. reflexivity.
Defined.

(** C5 (as stated, refuted): the report depends on the order of the input.
    [sorted] is stable, so two completions of one card with the same
    timestamp are rendered in the order of the input. *)
Lemma C5_ties_follow_input_order :
  ~ (forall (str_lower : str -> str) (repr_container : Py.value -> str)
            (list_lt : list Py.value -> list Py.value -> result bool)
            (libc_small_year : Z -> str) (mktime : Z -> result Z)
            (fromisoformat : str -> result Datetime.datetime)
            (tz : Datetime.zone) (start_ end_v : Datetime.datetime)
            (actions actions' : list Py.value),
        Permutation actions actions' ->
        Script.build_report str_lower repr_container list_lt libc_small_year
          mktime fromisoformat tz start_ end_v actions'
        = Script.build_report str_lower repr_container list_lt
            libc_small_year mktime fromisoformat tz start_ end_v actions).
Proof.
  intros H.
  pose proof (H Host.ascii_lower Host.repr_unused Host.list_lt_unused
                Host.glibc_small_year Host.mktime_utc Host.fromisoformat
                Host.moscow
                (Datetime.mkdt (Datetime._ymd2ord 2024 3 25) 0
                   (Some (3 * Datetime.HOUR)%Z))
                (Datetime.mkdt (Datetime._ymd2ord 2024 4 1) 0
                   (Some (3 * Datetime.HOUR)%Z))
                [tie_A; tie_B] [tie_B; tie_A] (perm_swap _ _ _)) as E.
  vm_compute in E. discriminate E.
Qed.

Lemma C5_witness :
  host_build [item_B; item_A] = host_build [item_A; item_B].
Proof.
  assert (Hk : kept Host.repr_unused [item_A; item_B] = inr kept_A_B)
    by (vm_compute; reflexivity).
  assert (Ht : tidy Host.ascii_lower Host.repr_unused kept_A_B = true)
    by (vm_compute; reflexivity).
  exact (proj1
           (@C5_tidy_report_ignores_order Host.ascii_lower Host.repr_unused
              Host.list_lt_unused Host.glibc_small_year Host.mktime_utc
              Host.fromisoformat Host.moscow
              (Datetime.mkdt (Datetime._ymd2ord 2024 3 25) 0
                 (Some (3 * Datetime.HOUR)%Z))
              (Datetime.mkdt (Datetime._ymd2ord 2024 4 1) 0
                 (Some (3 * Datetime.HOUR)%Z))
              [item_A; item_B] [item_B; item_A] kept_A_B Hk Ht
              (perm_swap _ _ _))).
Defined.

(** C6 (as stated, refuted): the blocks do not always come in the order of
    the lowercased names they display.  A card whose name is null is
    displayed as None and sorted as the empty string: its block comes before
    the block of the card Alpha. *)
Lemma C6_null_name_comes_first :
  host_build [alpha_named; null_named]
  = inr (host_title,
         Py.join Script.NEWLINE
           [Script.S_href ++ [Script.QUOTE] ++ [Script.QUOTE]
              ++ u8 ">None</a>";
            Script.S_item ++ u8 "2024-03-26 12:00 — x";
            [];
            Script.S_href ++ [Script.QUOTE] ++ u8 "https://trello.com/c/abc"
              ++ [Script.QUOTE] ++ u8 ">Alpha</a>";
            Script.S_item ++ u8 "2024-03-27 12:00 — y"])
  /\ ~ (forall (str_lower : str -> str) (repr_container : Py.value -> str)
               (actions : list Py.value)
               (l : list (Py.key * Script.completion)),
          kept repr_container actions = inr l ->
          names_text l = true ->
          dates_text l = true ->
          StronglySorted
            (fun k1 k2 =>
               Py.str_ltb (display_key str_lower repr_container l k2)
                 (display_key str_lower repr_container l k1) = false)
            (ordered_cards str_lower l)).
Proof.
  split; [vm_compute; reflexivity|].
  intros H.
  specialize (H Host.ascii_lower Host.repr_unused [alpha_named; null_named]
                _ eq_refl eq_refl eq_refl).
  vm_compute in H.
  inversion H as [|? ? _ Hf]. inversion Hf as [|? ? Hx _]. discriminate Hx.
Qed.

Lemma C6_witness :
  host_build [item_A; item_B]
  = inr (host_title,
         Py.join Script.NEWLINE
           [Script.S_href ++ [Script.QUOTE] ++ u8 "https://trello.com/c/abc"
              ++ [Script.QUOTE] ++ u8 ">Card</a>";
            Script.S_item ++ u8 "2024-01-01 12:00 — B";
            Script.S_item ++ u8 "2024-01-02 13:00 — A"]).
Proof.
  unfold host_build.
  destruct (@C6_cards_by_name_lines_by_timestamp Host.ascii_lower
              Host.repr_unused Host.list_lt_unused Host.glibc_small_year
              Host.mktime_utc Host.fromisoformat Host.moscow
              (Datetime.mkdt (Datetime._ymd2ord 2024 3 25) 0
                 (Some (3 * Datetime.HOUR)%Z))
              (Datetime.mkdt (Datetime._ymd2ord 2024 4 1) 0
                 (Some (3 * Datetime.HOUR)%Z))
              [item_A; item_B] kept_A_B eq_refl eq_refl eq_refl)
    as (_ & _ & _ & _ & _ & _ & E).
  rewrite E. vm_compute. reflexivity.
Defined.



(** * Further properties *)

(** ** Cutting a text into messages *)
Section WrapMore.

Import Textwrap.

Variables uni_alnum uni_digit : char -> bool.

Lemma fill_line_all width chunks : forall cur_line cur_len,
  cur_len + List.length (List.concat chunks) <= width ->
  fill_line width cur_line cur_len chunks
  = (cur_line ++ chunks, cur_len + List.length (List.concat chunks), []).
Proof.
  induction chunks as [|c r IH]; intros cur_line cur_len H; simpl.
  - rewrite app_nil_r, Nat.add_0_r. reflexivity.
  - simpl in H. rewrite length_app in H.
    destruct (Nat.leb_spec (cur_len + List.length c) width); [|lia].
    rewrite IH by lia. rewrite <- app_assoc, length_app. simpl.
    f_equal. f_equal. lia.
Qed.

Lemma wrap_loop_fits width chunks :
  chunks <> [] ->
  List.length (List.concat chunks) <= width ->
  wrap_loop width chunks = [List.concat chunks].
Proof.
  intros Hne Hfit. destruct chunks as [|c cs]; [congruence|].
  simp wrap_loop. unfold next_line.
  rewrite fill_line_all by (simpl; exact Hfit). simpl.
  simp wrap_loop. reflexivity.
Qed.

(** What [_handle_long_word] takes off a chunk: at most the room that is
    left on the line, and something whenever there is room. *)
Lemma handle_long_word_spec top below cur_line cur_len width :
  exists e,
    _handle_long_word (top :: below) cur_line cur_len width
    = (skipn e top :: below, cur_line ++ [firstn e top])
    /\ e <= (if width <? 1 then 1 else width - cur_len)
    /\ (1 <= (if width <? 1 then 1 else width - cur_len) -> 1 <= e).
Proof.
  unfold _handle_long_word.
  set (space_left := if width <? 1 then 1 else width - cur_len).
  eexists. split; [reflexivity|].
  destruct (space_left <? List.length top); [|lia].
  unfold rfind_hyphen.
  destruct (rfind_go 0 top space_left None) as [h|] eqn:Eh; [|lia].
  apply rfind_go_bound in Eh. destruct Eh as [Eh|Eh]; [discriminate|].
  destruct ((0 <? h) && any_non_hyphen (firstn h top)); lia.
Qed.

Lemma concat_nonempty (l : list str) :
  l <> [] -> Forall (fun c => c <> []) l -> List.concat l <> [].
Proof.
  intros Hne Hall. destruct l as [|c r]; [congruence|].
  inversion Hall; subst. simpl. destruct c; [congruence | discriminate].
Qed.

(** A line taken off a stack of non-empty chunks is not empty, and leaves
    non-empty chunks. *)
Lemma next_line_nonempty width chunks :
  1 <= width -> chunks <> [] ->
  Forall (fun c => c <> []) chunks ->
  List.concat (fst (next_line width chunks)) <> []
  /\ Forall (fun c => c <> []) (snd (next_line width chunks)).
Proof.
  intros Hw Hne Hall. unfold next_line.
  pose proof (fill_line_spec width chunks [] 0) as F.
  destruct (fill_line width [] 0 chunks) as [[cl n] rest].
  destruct F as (taken & Hcl & Hch & Hn & Hle & Htop).
  simpl in Hcl, Hn. subst cl n chunks.
  apply Forall_app in Hall. destruct Hall as [Htaken Hrest].
  destruct rest as [|top below].
  - simpl. rewrite app_nil_r in Hne. split; [|constructor].
    apply concat_nonempty; assumption.
  - destruct (width <? List.length top) eqn:Elong.
    + apply Nat.ltb_lt in Elong.
      destruct (handle_long_word_spec top below taken
                  (List.length (List.concat taken)) width)
        as (e & -> & He1 & He2).
      destruct (Nat.ltb_spec width 1); [lia|].
      specialize (Hle (Nat.le_0_l _)). simpl.
      inversion Hrest; subst. split.
      * rewrite concat_app. simpl. rewrite app_nil_r.
        destruct taken as [|t ts].
        -- simpl in *. assert (1 <= e) by lia.
           destruct top; [simpl in Elong; lia|].
           destruct e; [lia | discriminate].
        -- intros E. apply app_eq_nil in E. destruct E as [E _].
           revert E. apply concat_nonempty; [discriminate | assumption].
      * constructor; [|assumption].
        intros E. apply (f_equal (@List.length _)) in E.
        rewrite length_skipn in E. simpl in E. lia.
    + apply Nat.ltb_ge in Elong. simpl. split; [|exact Hrest].
      apply concat_nonempty; [|assumption].
      destruct taken; [simpl in Htop; lia | discriminate].
Qed.

Lemma wrap_loop_lines_nonempty width chunks :
  1 <= width ->
  Forall (fun c => c <> []) chunks ->
  Forall (fun line => line <> []) (wrap_loop width chunks).
Proof.
  intros Hw. funelim (wrap_loop width chunks); intros Hall;
    try simp wrap_loop.
  destruct (@next_line_nonempty width (c :: cs) Hw ltac:(discriminate) Hall)
    as [Hline Hrest].
  apply Forall_app. split; [|auto].
  destruct (fst (next_line width (c :: cs))) as [|x r] eqn:E;
    [constructor|].
  constructor; [|constructor]. exact Hline.
Qed.

(** When every chunk fits in a line, a line is made of whole chunks. *)
Lemma wrap_loop_whole_chunks width chunks :
  Forall (fun c => List.length c <= width) chunks ->
  exists groups,
    List.concat groups = chunks
    /\ Forall (fun g => g <> []) groups
    /\ wrap_loop width chunks = List.map (@List.concat char) groups.
Proof.
  funelim (wrap_loop width chunks); intros Hall; try simp wrap_loop.
  - exists []. repeat split; constructor.
  - assert (Hstep : exists taken rest,
               next_line width (c :: cs) = (taken, rest)
               /\ c :: cs = taken ++ rest /\ taken <> []).
    { unfold next_line.
      pose proof (fill_line_spec width (c :: cs) [] 0) as F.
      destruct (fill_line width [] 0 (c :: cs)) as [[cl n] rest].
      destruct F as (taken & Hcl & Hch & Hn & Hle & Htop).
      simpl in Hcl, Hn. subst cl n.
      rewrite Hch in Hall. apply Forall_app in Hall.
      destruct Hall as [_ Hrest].
      exists taken, rest.
      destruct rest as [|top below].
      - repeat split; auto. intros ->. discriminate Hch.
      - inversion Hrest; subst.
        destruct (Nat.ltb_spec width (List.length top)); [lia|].
        repeat split; auto.
        destruct taken; [simpl in Htop; lia | discriminate]. }
    destruct Hstep as (taken & rest & E & Hch & Hne).
    rewrite E in *. simpl in *.
    assert (Hrest : Forall (fun c0 => List.length c0 <= width) rest).
    { rewrite Hch in Hall. apply Forall_app in Hall. tauto. }
    match goal with
    | IH : Forall _ rest -> _ |- _ =>
        destruct (IH Hrest) as (groups & Hg & Hgne & Hw)
    end.
    exists (taken :: groups). simpl. rewrite Hg, Hw.
    repeat split; auto.
    destruct taken; [congruence|]. reflexivity.
Qed.

Lemma expandtabs_from_has_no_tab s : forall col,
  ~ In TAB (expandtabs_from 8 col s).
Proof.
  induction s as [|c r IH]; intros col; simpl; [tauto|].
  destruct (N.eqb_spec c TAB) as [->|Hc].
  - intros H. apply in_app_or in H. destruct H as [H|H].
    + apply repeat_spec in H. discriminate H.
    + exact (IH _ H).
  - destruct ((c =? LF) || (c =? CR))%N; intros [H|H]; try congruence;
      exact (IH _ H).
Qed.

Lemma in_concat_chunk (chunks : list str) c x :
  In c chunks -> In x c -> In x (List.concat chunks).
Proof. intros Hc Hx. apply in_concat. exists c. split; assumption. Qed.

(** The chunks of a text: none is empty, none is longer than 3500, none
    holds a tab. *)
Lemma chunks_of_each text chunks :
  Script.chunks_of uni_alnum uni_digit text = inr chunks ->
  Forall (fun c => 1 <= List.length c <= 3500 /\ ~ In TAB c) chunks.
Proof.
  intros E.
  destruct (chunks_of_total uni_alnum uni_digit text)
    as (chunks' & E' & Hc & Hw).
  rewrite E in E'. inversion E'; subst chunks'.
  assert (Hne : Forall (fun line => line <> []) chunks).
  { unfold Script.chunks_of, wrap, _wrap_chunks in E. simpl in E.
    inversion E. apply wrap_loop_lines_nonempty; [lia|].
    apply _split_nonempty. }
  rewrite Forall_forall in *. intros c Hin.
  specialize (Hw c Hin). specialize (Hne c Hin).
  split; [destruct c; [congruence | simpl in *; lia]|].
  intros Htab. apply (@expandtabs_from_has_no_tab text 0).
  fold (expandtabs 8 text). rewrite <- Hc.
  eapply in_concat_chunk; eassumption.
Qed.

End WrapMore.

(** ** Posting the messages *)
Section DeliveryMore.

Import Script.

Variables uni_alnum uni_digit : char -> bool.
Variable endpoint : list request -> request -> reply.

(** Whatever the endpoint answers, what is posted is a run of the first
    chunks, in order. *)
Lemma send_chunks_prefix token chat_id chunks : forall posted,
  exists n,
    fst (send_chunks endpoint token chat_id chunks posted)
    = posted ++ List.map (request_of token chat_id) (firstn n chunks).
Proof.
  induction chunks as [|c rest IH]; intros posted.
  - exists 0. simpl. rewrite app_nil_r. reflexivity.
  - cbn [send_chunks]. unfold post_chunk.
    change (mkreq (S_api ++ token ++ S_sendMessage) chat_id c)
      with (request_of token chat_id c).
    destruct (match endpoint posted (request_of token chat_id c) with
              | Status code => raise_for_status code
              | Broken => raise RequestException
              end) as [e|[]].
    + exists 1. reflexivity.
    + destruct (IH (posted ++ [request_of token chat_id c])) as (n & E).
      exists (S n). rewrite E, <- app_assoc. reflexivity.
Qed.

Lemma in_firstn (A : Type) (l : list A) : forall n x,
  In x (firstn n l) -> In x l.
Proof.
  induction l as [|a l IH]; intros [|n] x H; simpl in *; try tauto.
  destruct H as [H|H]; [left; exact H | right; exact (IH n x H)].
Qed.

Lemma send_chunks_breaks token chat_id chunks : forall n posted,
  n < List.length chunks ->
  (forall i, i < n ->
             accepted (answer endpoint token chat_id posted chunks i)) ->
  answer endpoint token chat_id posted chunks n = Broken ->
  send_chunks endpoint token chat_id chunks posted
  = (posted ++ List.map (request_of token chat_id) (firstn (S n) chunks),
     raise RequestException).
Proof.
  induction chunks as [|c rest IH]; intros n posted Hn Hok Hfail;
    [simpl in Hn; lia|].
  destruct n as [|m].
  - unfold answer in Hfail. simpl in Hfail. rewrite app_nil_r in Hfail.
    cbn [send_chunks]. unfold post_chunk.
    change (mkreq (S_api ++ token ++ S_sendMessage) chat_id c)
      with (request_of token chat_id c).
    rewrite Hfail. reflexivity.
  - destruct (Hok 0%nat (Nat.lt_0_succ _)) as (code & Hr & Hcode).
    unfold answer in Hr. simpl in Hr. rewrite app_nil_r in Hr.
    cbn [send_chunks]. unfold post_chunk.
    change (mkreq (S_api ++ token ++ S_sendMessage) chat_id c)
      with (request_of token chat_id c).
    rewrite Hr, (raise_for_status_ok Hcode). unfold ret.
    rewrite (IH m (posted ++ [request_of token chat_id c])).
    + rewrite <- app_assoc. reflexivity.
    + simpl in Hn. lia.
    + intros i Hi. specialize (Hok (S i) ltac:(lia)).
      unfold answer in *. simpl in Hok. rewrite <- app_assoc. exact Hok.
    + unfold answer in *. simpl in Hfail. rewrite <- app_assoc. exact Hfail.
Qed.

Lemma tg_send_html_sent token chat_id text posted :
  exists sent,
    fst (tg_send_html uni_alnum uni_digit endpoint token chat_id text posted)
    = posted ++ sent
    /\ Forall (bounded_message token chat_id) sent.
Proof.
  unfold tg_send_html.
  destruct (chunks_of uni_alnum uni_digit text) as [e|chunks] eqn:E.
  - exists []. simpl. rewrite app_nil_r. split; [reflexivity | constructor].
  - destruct (send_chunks_prefix token chat_id chunks posted) as (n & Hn).
    exists (List.map (request_of token chat_id) (firstn n chunks)).
    split; [exact Hn|].
    pose proof (chunks_of_each E) as Heach.
    apply Forall_forall. intros rq Hrq. apply in_map_iff in Hrq.
    destruct Hrq as (c & <- & Hc).
    rewrite Forall_forall in Heach.
    specialize (Heach c (in_firstn _ _ _ Hc)).
    unfold bounded_message. simpl. tauto.
Qed.

(** A text that is not empty gives at least one chunk. *)
Lemma expandtabs_from_nonempty s col :
  s <> [] -> Textwrap.expandtabs_from 8 col s <> [].
Proof.
  destruct s as [|c r]; [congruence|]. intros _. cbn [Textwrap.expandtabs_from].
  destruct (c =? Textwrap.TAB)%N.
  - assert (H : 8 - col mod 8 = S (7 - col mod 8)).
    { pose proof (Nat.mod_upper_bound col 8). lia. }
    rewrite H. discriminate.
  - destruct ((c =? Textwrap.LF) || (c =? Textwrap.CR))%N; discriminate.
Qed.

Lemma chunks_of_nonempty text :
  text <> [] ->
  exists c rest, chunks_of uni_alnum uni_digit text = inr (c :: rest).
Proof.
  intros Hne.
  destruct (chunks_of_total uni_alnum uni_digit text) as (chunks & E & Hc & _).
  destruct chunks as [|c rest]; [|eauto].
  exfalso. apply (@expandtabs_from_nonempty text 0 Hne).
  unfold Textwrap.expandtabs in Hc. rewrite <- Hc. reflexivity.
Qed.

End DeliveryMore.

(** X4: a text without a tab, of 1 to 3500 characters, is one chunk, the
    text itself; when the endpoint accepts it, [tg_send_html] posts that one
    message and returns. *)
Theorem X4_short_text_one_message
    (ua ud : char -> bool)
    (endpoint : list Script.request -> Script.request -> Script.reply)
    (token chat_id text : str) (posted : list Script.request) :
  text <> [] ->
  ~ In Textwrap.TAB text ->
  List.length text <= 3500 ->
  Script.chunks_of ua ud text = inr [text]
  /\ (accepted (endpoint posted (request_of token chat_id text)) ->
      Script.tg_send_html ua ud endpoint token chat_id text posted
      = (posted ++ [request_of token chat_id text], inr tt)).
Proof.
  intros Hne Htab Hlen.
  assert (E : Script.chunks_of ua ud text = inr [text]).
  { unfold Script.chunks_of, Textwrap.wrap, Textwrap._wrap_chunks,
      Textwrap._munge_whitespace, Textwrap.expandtabs.
    rewrite (expandtabs_from_no_tab 8 text 0 Htab). simpl. unfold ret.
    rewrite wrap_loop_fits.
    - rewrite _split_concat. reflexivity.
    - intros E. apply Hne. rewrite <- (_split_concat ua ud text), E.
      reflexivity.
    - rewrite _split_concat. simpl. exact Hlen. }
  split; [exact E|].
  intros Hacc. unfold Script.tg_send_html. rewrite E.
  rewrite send_chunks_all; [reflexivity|].
  intros i Hi. simpl in Hi. assert (i = 0) by lia. subst i.
  unfold answer. simpl. rewrite app_nil_r. exact Hacc.
Qed.

Lemma X4_witness :
  Script.tg_send_html Host.no_unicode Host.no_unicode Host.accepting
    (u8 "token") (u8 "42") (u8 "<b>two words</b>") []
  = ([request_of (u8 "token") (u8 "42") (u8 "<b>two words</b>")], inr tt).
Proof.
  apply (@X4_short_text_one_message Host.no_unicode Host.no_unicode
           Host.accepting (u8 "token") (u8 "42") (u8 "<b>two words</b>") []).
  - vm_compute. discriminate.
  - vm_compute. intuition discriminate.
  - vm_compute. lia.
  - exists 200%Z. split; [reflexivity | lia].
Defined.

(** X5: whatever the endpoint answers, every message [tg_send_html] posts
    goes to the [sendMessage] URL of the bot and to the given chat, holds at
    least one character and at most 3500, and holds no tab. *)
Theorem X5_messages_nonempty_bounded
    (ua ud : char -> bool)
    (endpoint : list Script.request -> Script.request -> Script.reply)
    (token chat_id text : str) (posted : list Script.request) :
  exists sent,
    fst (Script.tg_send_html ua ud endpoint token chat_id text posted)
    = posted ++ sent
    /\ Forall (bounded_message token chat_id) sent.
Proof. apply tg_send_html_sent. Qed.

(** X6: when the endpoint accepts every chunk, [tg_send_html] posts one
    message per chunk, in the order of the chunks, and returns. *)
Theorem X6_accepted_chunks_all_posted
    (ua ud : char -> bool)
    (endpoint : list Script.request -> Script.request -> Script.reply)
    (token chat_id text : str) (chunks : list str)
    (posted : list Script.request) :
  Script.chunks_of ua ud text = inr chunks ->
  (forall i, i < List.length chunks ->
             accepted (answer endpoint token chat_id posted chunks i)) ->
  Script.tg_send_html ua ud endpoint token chat_id text posted
  = (posted ++ List.map (request_of token chat_id) chunks, inr tt).
Proof.
  intros E Hok. unfold Script.tg_send_html. rewrite E.
  apply send_chunks_all. exact Hok.
Qed.

Lemma X6_witness :
  Script.tg_send_html Host.no_unicode Host.no_unicode Host.accepting
    [] [] long_text []
  = (List.map (request_of [] [])
       [repeat 97%N 3500; repeat 97%N 3500; [97%N]],
     inr tt).
Proof.
  apply (@X6_accepted_chunks_all_posted Host.no_unicode Host.no_unicode
           Host.accepting [] [] long_text
           [repeat 97%N 3500; repeat 97%N 3500; [97%N]] []).
  - vm_compute. reflexivity.
  - intros i Hi. exists 200%Z. split; [reflexivity | lia].
Defined.

(** X7: when the call that posts chunk [n] itself raises (a timeout, a
    broken connection), the chunks before it having been accepted,
    [tg_send_html] has attempted the chunks up to [n] and no other, and the
    exception propagates. *)
Theorem X7_broken_connection_stops
    (ua ud : char -> bool)
    (endpoint : list Script.request -> Script.request -> Script.reply)
    (token chat_id text : str) (chunks : list str) (n : nat)
    (posted : list Script.request) :
  Script.chunks_of ua ud text = inr chunks ->
  n < List.length chunks ->
  (forall i, i < n ->
             accepted (answer endpoint token chat_id posted chunks i)) ->
  answer endpoint token chat_id posted chunks n = Script.Broken ->
  Script.tg_send_html ua ud endpoint token chat_id text posted
  = (posted ++ List.map (request_of token chat_id) (firstn (S n) chunks),
     inl RequestException).
Proof.
  intros E Hn Hok Hfail. unfold Script.tg_send_html. rewrite E.
  apply send_chunks_breaks; assumption.
Qed.

Lemma X7_witness :
  Script.tg_send_html Host.no_unicode Host.no_unicode
    (Host.unreachable_from 1) [] [] long_text []
  = ([request_of [] [] (repeat 97%N 3500);
      request_of [] [] (repeat 97%N 3500)],
     inl RequestException).
Proof.
  apply (@X7_broken_connection_stops Host.no_unicode Host.no_unicode
           (Host.unreachable_from 1) [] [] long_text
           [repeat 97%N 3500; repeat 97%N 3500; [97%N]] 1 []).
  - vm_compute. reflexivity.
  - simpl. lia.
  - intros i Hi. assert (i = 0) by lia. subst i.
    exists 200%Z. split; [reflexivity | lia].
  - reflexivity.
Defined.

(** X8: when no word of the text (a chunk of [TextWrapper._split], after
    the tabs are expanded) is longer than 3500 characters, every message is
    made of whole words: no word is cut between two messages. *)
Theorem X8_fitting_words_not_split (ua ud : char -> bool) (text : str) :
  Forall (fun w => List.length w <= 3500)
    (Textwrap._split ua ud (Textwrap.expandtabs 8 text)) ->
  exists groups,
    List.concat groups = Textwrap._split ua ud (Textwrap.expandtabs 8 text)
    /\ Forall (fun g => g <> []) groups
    /\ Script.chunks_of ua ud text
       = inr (List.map (@List.concat char) groups).
Proof.
  intros Hall.
  destruct (wrap_loop_whole_chunks Hall) as (groups & Hg & Hne & E).
  exists groups. repeat split; auto.
  unfold Script.chunks_of, Textwrap.wrap, Textwrap._wrap_chunks. simpl.
  unfold Textwrap._munge_whitespace. rewrite <- E. reflexivity.
Qed.

Lemma X8_witness :
  exists groups,
    List.concat groups
    = Textwrap._split Host.no_unicode Host.no_unicode
        (Textwrap.expandtabs 8 (u8 "weekly report"))
    /\ Forall (fun g => g <> []) groups
    /\ Script.chunks_of Host.no_unicode Host.no_unicode (u8 "weekly report")
       = inr (List.map (@List.concat char) groups).
Proof.
  apply (@X8_fitting_words_not_split Host.no_unicode Host.no_unicode
           (u8 "weekly report")).
  vm_compute. repeat (constructor; [lia|]). constructor.
Defined.

(** ** The week and the timestamps *)
Section WindowMore.

Import Datetime Script.
Local Open Scope Z_scope.

Lemma of_wall_ok w off :
  1 <= w / DAY <= MAXORD ->
  of_wall w off = inr (mkdt (w / DAY) (w mod DAY) off).
Proof.
  intros H. unfold of_wall.
  destruct (Z.leb_spec 1 (w / DAY)); destruct (Z.leb_spec (w / DAY) MAXORD);
    simpl; try lia.
  reflexivity.
Qed.

Lemma wall_split o t : 0 <= t < DAY -> (o * DAY + t) / DAY = o
                                        /\ (o * DAY + t) mod DAY = t.
Proof.
  intros H. split.
  - rewrite Z.div_add_l by (unfold DAY; lia).
    rewrite Z.div_small by exact H. lia.
  - rewrite Z.add_comm, Z.mod_add by (unfold DAY; lia).
    apply Z.mod_small. exact H.
Qed.

(** [astimezone] of an aware value keeps the instant and takes the offset of
    the target zone at that instant. *)
Lemma astimezone_aware mktime tz d off d' :
  utcoffset d = Some off ->
  astimezone mktime tz d = inr d' ->
  utc_of d' = utc_of d /\ utcoffset d' = Some (tz (utc_of d)).
Proof.
  intros Hoff. unfold astimezone, utc_of at 2 3. rewrite Hoff. simpl.
  destruct (of_wall (wall d - off) (Some 0)); simpl; [discriminate|].
  unfold fromutc. intros E. apply of_wall_inv in E.
  destruct E as (Ho & Ht & Hf & _ & _).
  unfold utc_of, wall. rewrite Hf, Ho, Ht.
  pose proof (Z.div_mod (wall d - off + tz (wall d - off)) DAY
                ltac:(unfold DAY; lia)).
  unfold wall, DAY in *. split; [lia | reflexivity].
Qed.

(** The window of a run, on the wall clock and as instants *)
Lemma window_instants tz now_utc n :
  now tz now_utc = inr n ->
  14 <= ordinal n ->
  exists s e,
    start tz now_utc = inr s /\ end_ tz now_utc = inr e
    /\ tod s = 0 /\ tod e = 0
    /\ ordinal s = ordinal e - 7
    /\ ordinal e <= ordinal n < ordinal e + 7
    /\ utcoffset s = Some (tz now_utc) /\ utcoffset e = Some (tz now_utc)
    /\ utc_of e <= now_utc < utc_of e + 7 * DAY.
Proof.
  intros Hn H14.
  destruct (window_wall_clock tz now_utc Hn H14)
    as (s & e & Hs & He & Hws & Hts & Hwe & Hte & Hord & Hse & _ & Hd
        & Hos & Hoe & Hle).
  exists s, e.
  pose proof Hn as Hn'. unfold now, fromutc in Hn'.
  apply of_wall_inv in Hn'. destruct Hn' as (Ho & Ht & Hoff & _ & Htod).
  repeat split; try assumption; try lia.
  unfold utc_of, wall. rewrite Hoe, Hte.
  pose proof (Z.div_mod (now_utc + tz now_utc) DAY
                ltac:(unfold DAY; lia)) as E.
  rewrite <- Ho, <- Ht in E. unfold DAY in *. lia.
Qed.

End WindowMore.

(** X1: for a run on or after 15 January of the year 1, [start] and [end]
    exist and read Monday 00:00; [end] is the Monday of the week of the run
    and [start] the Monday before; both carry the offset of [now], so the
    two instants are exactly seven days apart and the run falls in the
    seven days that follow [end]. *)
Theorem X1_window_is_previous_week
    (tz : Datetime.zone) (now_utc : Z) (n : Datetime.datetime) :
  Script.now tz now_utc = inr n ->
  (14 <= Datetime.ordinal n)%Z ->
  exists s e,
    Script.start tz now_utc = inr s /\ Script.end_ tz now_utc = inr e
    /\ Datetime.weekday s = 0%Z /\ Datetime.tod s = 0%Z
    /\ Datetime.weekday e = 0%Z /\ Datetime.tod e = 0%Z
    /\ Datetime.ordinal s = (Datetime.ordinal e - 7)%Z
    /\ (Datetime.ordinal e <= Datetime.ordinal n < Datetime.ordinal e + 7)%Z
    /\ Datetime.utcoffset s = Datetime.utcoffset n
    /\ Datetime.utcoffset e = Datetime.utcoffset n
    /\ (Datetime.utc_of e - Datetime.utc_of s = 7 * Datetime.DAY)%Z
    /\ (Datetime.utc_of e <= now_utc < Datetime.utc_of e + 7 * Datetime.DAY)%Z.
Proof.
  intros Hn H14.
  destruct (window_wall_clock tz now_utc Hn H14)
    as (s & e & Hs & He & Hws & Hts & Hwe & Hte & Hord & Hse & _ & Hd
        & Hos & Hoe & Hle).
  exists s, e.
  pose proof Hn as Hn'. unfold Script.now, Datetime.fromutc in Hn'.
  apply of_wall_inv in Hn'. destruct Hn' as (Ho & Ht & Hoff & _ & Htod).
  repeat split; try assumption; try lia; try congruence.
  unfold Datetime.utc_of, Datetime.wall. rewrite Hoe, Hte.
  pose proof (Z.div_mod (now_utc + tz now_utc) Datetime.DAY
                ltac:(unfold Datetime.DAY; lia)) as E.
  rewrite <- Ho, <- Ht in E. unfold Datetime.DAY in *. lia.
Qed.

Lemma X1_witness :
  exists s e,
    Script.start Host.moscow april_3_2024 = inr s
    /\ Script.end_ Host.moscow april_3_2024 = inr e
    /\ Datetime.weekday s = 0%Z /\ Datetime.tod s = 0%Z
    /\ Datetime.weekday e = 0%Z /\ Datetime.tod e = 0%Z
    /\ Datetime.ordinal s = (Datetime.ordinal e - 7)%Z
    /\ (Datetime.ordinal e <= Datetime._ymd2ord 2024 4 3
        < Datetime.ordinal e + 7)%Z
    /\ Datetime.utcoffset s = Some (3 * Datetime.HOUR)%Z
    /\ Datetime.utcoffset e = Some (3 * Datetime.HOUR)%Z
    /\ (Datetime.utc_of e - Datetime.utc_of s = 7 * Datetime.DAY)%Z
    /\ (Datetime.utc_of e <= april_3_2024
        < Datetime.utc_of e + 7 * Datetime.DAY)%Z.
Proof.
  apply (@X1_window_is_previous_week Host.moscow april_3_2024
           (Datetime.mkdt (Datetime._ymd2ord 2024 4 3)
              (13 * Datetime.HOUR)%Z (Some (3 * Datetime.HOUR)%Z))).
  - vm_compute. reflexivity.
  - vm_compute. discriminate.
Defined.

(** X2: a run seven days later, the zone being at the same offset, takes as
    [start] what this run takes as [end]: the weeks of consecutive weekly
    runs follow each other without a gap and without an overlap. *)
Theorem X2_consecutive_weeks_abut
    (tz : Datetime.zone) (now_utc : Z) (n : Datetime.datetime) :
  Script.now tz now_utc = inr n ->
  (14 <= Datetime.ordinal n)%Z ->
  (Datetime.ordinal n + 7 <= Datetime.MAXORD)%Z ->
  tz (now_utc + 7 * Datetime.DAY)%Z = tz now_utc ->
  Script.start tz (now_utc + 7 * Datetime.DAY)%Z = Script.end_ tz now_utc.
Proof.
  intros Hn H14 Hmax Htz.
  pose proof Hn as Hn'. unfold Script.now, Datetime.fromutc in Hn'.
  apply of_wall_inv in Hn'. destruct Hn' as (Ho & Ht & Hoff & Hr & Htod).
  pose proof (weekday_range n) as Hw.
  assert (Hn7 : Script.now tz (now_utc + 7 * Datetime.DAY)%Z
                = inr (Datetime.mkdt (Datetime.ordinal n + 7)
                         (Datetime.tod n) (Datetime.utcoffset n))).
  { unfold Script.now, Datetime.fromutc. rewrite Htz.
    replace (now_utc + 7 * Datetime.DAY + tz now_utc)%Z
      with (now_utc + tz now_utc + 7 * Datetime.DAY)%Z by lia.
    assert (Hd : ((now_utc + tz now_utc + 7 * Datetime.DAY) / Datetime.DAY
                  = Datetime.ordinal n + 7)%Z).
    { rewrite Z.div_add by (unfold Datetime.DAY; lia). lia. }
    assert (Hm : ((now_utc + tz now_utc + 7 * Datetime.DAY) mod Datetime.DAY
                  = Datetime.tod n)%Z).
    { rewrite Z.mod_add by (unfold Datetime.DAY; lia). lia. }
    rewrite of_wall_ok by (rewrite Hd; lia).
    rewrite Hd, Hm, Hoff. reflexivity. }
  unfold Script.start, Script.end_, Script.monday_this_week.
  rewrite Hn, Hn7. simpl.
  assert (Hw7 : Datetime.weekday
                  (Datetime.mkdt (Datetime.ordinal n + 7) (Datetime.tod n)
                     (Datetime.utcoffset n)) = Datetime.weekday n).
  { unfold Datetime.weekday. simpl.
    replace (Datetime.ordinal n + 7 + 6)%Z
      with (Datetime.ordinal n + 6 + 1 * 7)%Z by lia.
    apply Z.mod_add. lia. }
  rewrite Hw7.
  rewrite !sub_days_ok by (simpl; lia). simpl.
  rewrite sub_days_ok by (simpl; lia). simpl.
  unfold Datetime.replace_midnight. simpl.
  unfold ret. f_equal. f_equal. lia.
Qed.

Lemma X2_witness :
  Script.start Host.moscow (april_3_2024 + 7 * Datetime.DAY)%Z
  = Script.end_ Host.moscow april_3_2024.
Proof.
  apply (@X2_consecutive_weeks_abut Host.moscow april_3_2024
           (Datetime.mkdt (Datetime._ymd2ord 2024 4 3)
              (13 * Datetime.HOUR)%Z (Some (3 * Datetime.HOUR)%Z))).
  - vm_compute. reflexivity.
  - vm_compute. discriminate.
  - vm_compute. discriminate.
  - reflexivity.
Defined.

(** X3: for a zone within a day of UTC and a run between 16 January of the
    year 1 and 30 December 9999, [SINCE] and [BEFORE] exist and are the
    ISO texts of two UTC readings exactly seven days apart; the run falls in
    the seven days that follow the second, whose time of day is midnight
    moved by the offset the zone has at the run. *)
Theorem X3_query_window_is_seven_days
    (mktime : Z -> result Z) (tz : Datetime.zone) (now_utc : Z)
    (n : Datetime.datetime) :
  Script.now tz now_utc = inr n ->
  (15 <= Datetime.ordinal n < Datetime.MAXORD)%Z ->
  (- Datetime.DAY < tz now_utc < Datetime.DAY)%Z ->
  exists s e,
    Script.SINCE mktime tz now_utc = inr (Datetime.isoformat s)
    /\ Script.BEFORE mktime tz now_utc = inr (Datetime.isoformat e)
    /\ Datetime.utcoffset s = Some 0%Z /\ Datetime.utcoffset e = Some 0%Z
    /\ (Datetime.wall e - Datetime.wall s = 7 * Datetime.DAY)%Z
    /\ (Datetime.wall e <= now_utc < Datetime.wall e + 7 * Datetime.DAY)%Z
    /\ Datetime.tod e = ((- tz now_utc) mod Datetime.DAY)%Z.
Proof.
  intros Hn Hrange Htz.
  destruct (@window_instants tz now_utc n Hn ltac:(lia))
    as (s0 & e0 & Hs & He & Hts & Hte & Hord & Hse & Hos & Hoe & Hnow).
  assert (Hconv : forall d,
             Datetime.tod d = 0%Z ->
             Datetime.utcoffset d = Some (tz now_utc) ->
             (2 <= Datetime.ordinal d < Datetime.MAXORD)%Z ->
             let u := (Datetime.wall d - tz now_utc)%Z in
             Script.to_utc_iso mktime d
             = inr (Datetime.isoformat
                      (Datetime.mkdt (u / Datetime.DAY) (u mod Datetime.DAY)
                         (Some 0%Z)))).
  { intros d Ht Hoff Ho u. unfold Script.to_utc_iso, Datetime.astimezone.
    rewrite Hoff. simpl. fold u.
    assert (Hu : (1 <= u / Datetime.DAY <= Datetime.MAXORD)%Z).
    { subst u. unfold Datetime.wall. rewrite Ht.
      unfold Datetime.DAY, Datetime.MAXORD in *.
      split.
      - apply Z.div_le_lower_bound; lia.
      - apply Z.lt_succ_r. apply Z.div_lt_upper_bound; lia. }
    rewrite of_wall_ok by exact Hu. simpl.
    unfold Datetime.fromutc, Datetime.UTC. rewrite Z.add_0_r.
    rewrite of_wall_ok by exact Hu. reflexivity. }
  set (us := (Datetime.wall s0 - tz now_utc)%Z).
  set (ue := (Datetime.wall e0 - tz now_utc)%Z).
  exists (Datetime.mkdt (us / Datetime.DAY) (us mod Datetime.DAY) (Some 0%Z)),
         (Datetime.mkdt (ue / Datetime.DAY) (ue mod Datetime.DAY) (Some 0%Z)).
  unfold Script.SINCE, Script.BEFORE. rewrite Hs, He. simpl.
  rewrite (Hconv s0 Hts Hos ltac:(lia)), (Hconv e0 Hte Hoe ltac:(lia)).
  fold us ue.
  pose proof (Z.div_mod us Datetime.DAY ltac:(unfold Datetime.DAY; lia)).
  pose proof (Z.div_mod ue Datetime.DAY ltac:(unfold Datetime.DAY; lia)).
  assert (Hwe : Datetime.wall
                  (Datetime.mkdt (ue / Datetime.DAY) (ue mod Datetime.DAY)
                     (Some 0%Z)) = ue).
  { unfold Datetime.wall. simpl. lia. }
  assert (Hws : Datetime.wall
                  (Datetime.mkdt (us / Datetime.DAY) (us mod Datetime.DAY)
                     (Some 0%Z)) = us).
  { unfold Datetime.wall. simpl. lia. }
  rewrite Hwe, Hws.
  unfold Datetime.utc_of in Hnow. rewrite Hoe in Hnow.
  split; [reflexivity|]. split; [reflexivity|].
  split; [reflexivity|]. split; [reflexivity|].
  split; [|split].
  - subst us ue. unfold Datetime.wall. rewrite Hts, Hte, Hord.
    unfold Datetime.DAY. lia.
  - subst ue. exact Hnow.
  - simpl. subst ue. unfold Datetime.wall. rewrite Hte.
    replace (Datetime.ordinal e0 * Datetime.DAY + 0 - tz now_utc)%Z
      with (- tz now_utc + Datetime.ordinal e0 * Datetime.DAY)%Z by lia.
    apply Z.mod_add. unfold Datetime.DAY. lia.
Qed.

Lemma X3_witness :
  exists s e,
    Script.SINCE Host.mktime_utc Host.moscow april_3_2024
    = inr (Datetime.isoformat s)
    /\ Script.BEFORE Host.mktime_utc Host.moscow april_3_2024
       = inr (Datetime.isoformat e)
    /\ Datetime.utcoffset s = Some 0%Z /\ Datetime.utcoffset e = Some 0%Z
    /\ (Datetime.wall e - Datetime.wall s = 7 * Datetime.DAY)%Z
    /\ (Datetime.wall e <= april_3_2024
        < Datetime.wall e + 7 * Datetime.DAY)%Z
    /\ Datetime.tod e
       = ((- Host.moscow april_3_2024) mod Datetime.DAY)%Z.
Proof.
  apply (@X3_query_window_is_seven_days Host.mktime_utc Host.moscow
           april_3_2024
           (Datetime.mkdt (Datetime._ymd2ord 2024 4 3)
              (13 * Datetime.HOUR)%Z (Some (3 * Datetime.HOUR)%Z))).
  - vm_compute. reflexivity.
  - vm_compute. split; [discriminate | reflexivity].
  - vm_compute. split; reflexivity.
Defined.


(** X9: [fmt_local] reads the instant of a timestamp, not the way it is
    written: two texts that parse to aware values of the same instant go
    through the same conversion, and when it succeeds both are shown as the
    same text. *)
Theorem X9_same_instant_same_text
    (libc_small_year : Z -> str) (mktime : Z -> result Z)
    (fromisoformat : str -> result Datetime.datetime) (tz : Datetime.zone)
    (s1 s2 : str) (d1 d2 : Datetime.datetime) (o1 o2 : Z) :
  fromisoformat (Py.replace_char 90%N Script.S_utc_offset s1) = inr d1 ->
  fromisoformat (Py.replace_char 90%N Script.S_utc_offset s2) = inr d2 ->
  Datetime.utcoffset d1 = Some o1 ->
  Datetime.utcoffset d2 = Some o2 ->
  Datetime.utc_of d1 = Datetime.utc_of d2 ->
  Script.fmt_local_try libc_small_year mktime fromisoformat tz (Py.PStr s1)
  = Script.fmt_local_try libc_small_year mktime fromisoformat tz (Py.PStr s2)
  /\ (forall v,
        Script.fmt_local_try libc_small_year mktime fromisoformat tz
          (Py.PStr s1) = inr v ->
        Script.fmt_local libc_small_year mktime fromisoformat tz (Py.PStr s1)
        = v
        /\ Script.fmt_local libc_small_year mktime fromisoformat tz
             (Py.PStr s2) = v).
Proof.
  intros H1 H2 Ho1 Ho2 Hu.
  assert (E : Script.fmt_local_try libc_small_year mktime fromisoformat tz
                (Py.PStr s1)
              = Script.fmt_local_try libc_small_year mktime fromisoformat tz
                  (Py.PStr s2)).
  { unfold Script.fmt_local_try. simpl. rewrite H1, H2. simpl.
    unfold Datetime.astimezone. rewrite Ho1, Ho2. simpl.
    unfold Datetime.utc_of in Hu. rewrite Ho1, Ho2 in Hu. rewrite Hu.
    reflexivity. }
  split; [exact E|].
  intros v Hv. unfold Script.fmt_local. rewrite <- E, Hv. split; reflexivity.
Qed.

Lemma X9_witness :
  Script.fmt_local Host.glibc_small_year Host.mktime_utc Host.fromisoformat
    Host.moscow (Py.PStr (u8 "2024-01-02T10:00:00.000Z"))
  = Py.PStr (u8 "2024-01-02 13:00")
  /\ Script.fmt_local Host.glibc_small_year Host.mktime_utc
       Host.fromisoformat Host.moscow
       (Py.PStr (u8 "2024-01-02T15:00:00+05:00"))
     = Py.PStr (u8 "2024-01-02 13:00").
Proof.
  apply (proj2 (@X9_same_instant_same_text Host.glibc_small_year
                  Host.mktime_utc Host.fromisoformat Host.moscow
                  (u8 "2024-01-02T10:00:00.000Z")
                  (u8 "2024-01-02T15:00:00+05:00")
                  (Datetime.mkdt (Datetime._ymd2ord 2024 1 2)
                     (10 * Datetime.HOUR)%Z (Some 0%Z))
                  (Datetime.mkdt (Datetime._ymd2ord 2024 1 2)
                     (15 * Datetime.HOUR)%Z (Some (5 * Datetime.HOUR)%Z))
                  0%Z (5 * Datetime.HOUR)%Z
                  ltac:(vm_compute; reflexivity)
                  ltac:(vm_compute; reflexivity)
                  ltac:(reflexivity) ltac:(reflexivity)
                  ltac:(vm_compute; reflexivity))).
  vm_compute. reflexivity.
Defined.

(** ** The report, whatever the entries *)
Section ReportMore.

Import Datetime Py Script.

Variable str_lower : str -> str.
Variable repr_container : value -> str.
Variable list_lt : list value -> list value -> result bool.
Variable libc_small_year : Z -> str.
Variable mktime : Z -> result Z.
Variable fromisoformat : str -> result datetime.
Variable tz : zone.
Variables start_ end_v : datetime.

Lemma for_each_skipped actions : forall st,
  for_each (scan_step repr_container)
    (filter (fun a => negb (skipped repr_container a)) actions) st
  = for_each (scan_step repr_container) actions st.
Proof.
  induction actions as [|a r IH]; intros st; [reflexivity|].
  cbn [filter]. unfold skipped at 1.
  destruct (read_entry repr_container a) as [e|[c|]] eqn:E; cbn [negb].
  - cbn [for_each]. unfold scan_step. rewrite E. reflexivity.
  - cbn [for_each]. destruct (scan_step repr_container st a); simpl;
      [reflexivity | apply IH].
  - cbn [for_each]. unfold scan_step at 2. rewrite E. simpl. apply IH.
Qed.

(** *** Lengths are kept by [sorted] *)
Lemma map_result_length (A B : Type) (f : A -> result B) (l : list A) :
  forall l', map_result f l = inr l' -> List.length l' = List.length l.
Proof.
  induction l as [|x r IH]; simpl; intros l' E.
  - inversion E. reflexivity.
  - destruct (f x); simpl in E; [discriminate|].
    destruct (map_result f r) as [|ys]; simpl in E; [discriminate|].
    inversion E. simpl. rewrite (IH ys eq_refl). reflexivity.
Qed.

Lemma insert_by_length (A K : Type) (ltb : K -> K -> result bool)
    (x : K * A) (l : list (K * A)) :
  forall l', insert_by ltb x l = inr l' -> List.length l' = S (List.length l).
Proof.
  induction l as [|y r IH]; simpl; intros l' E.
  - inversion E. reflexivity.
  - destruct (ltb (fst y) (fst x)) as [|[|]]; simpl in E; [discriminate| |].
    + destruct (insert_by ltb x r) as [|r']; simpl in E; [discriminate|].
      inversion E. simpl. rewrite (IH r' eq_refl). reflexivity.
    + inversion E. reflexivity.
Qed.

Lemma sort_by_length (A K : Type) (ltb : K -> K -> result bool)
    (l : list (K * A)) :
  forall l', sort_by ltb l = inr l' -> List.length l' = List.length l.
Proof.
  induction l as [|x r IH]; simpl; intros l' E.
  - inversion E. reflexivity.
  - destruct (sort_by ltb r) as [|s]; simpl in E; [discriminate|].
    rewrite (insert_by_length _ _ _ E), (IH s eq_refl). reflexivity.
Qed.

Lemma sorted_length (A K : Type) (ltb : K -> K -> result bool)
    (key : A -> result K) (l l' : list A) :
  sorted ltb key l = inr l' -> List.length l' = List.length l.
Proof.
  unfold sorted. intros E.
  destruct (map_result _ l) as [|keyed] eqn:Ek; simpl in E; [discriminate|].
  destruct (sort_by ltb keyed) as [|s] eqn:Es; simpl in E; [discriminate|].
  inversion E. rewrite length_map.
  rewrite (sort_by_length _ _ Es). exact (map_result_length _ _ Ek).
Qed.

(** *** [strip] *)
Lemma lstrip_head s :
  match lstrip s with
  | c :: _ => isspace c = false
  | [] => True
  end.
Proof.
  induction s as [|c r IH]; simpl; [exact I|].
  destruct (isspace c) eqn:E; [exact IH | exact E].
Qed.

Lemma lstrip_keeps_last s c :
  isspace c = false -> exists s', lstrip (s ++ [c]) = s' ++ [c].
Proof.
  intros Hc. induction s as [|x r IH]; simpl.
  - rewrite Hc. exists []. reflexivity.
  - destruct (isspace x); [exact IH|]. exists (x :: r). reflexivity.
Qed.

Lemma strip_edges c r :
  isspace c = false ->
  strip (c :: r) <> []
  /\ isspace (hd 32%N (strip (c :: r))) = false
  /\ isspace (last (strip (c :: r)) 32%N) = false.
Proof.
  intros Hc. unfold strip, rstrip. cbn [lstrip]. rewrite Hc.
  cbn [rev]. destruct (lstrip_keeps_last (rev r) c Hc) as (s' & E).
  pose proof (lstrip_head (rev r ++ [c])) as Hh.
  rewrite E in *. rewrite rev_app_distr. cbn [rev app].
  split; [discriminate|]. split; [exact Hc|].
  destruct s' as [|x t].
  - simpl. exact Hc.
  - simpl in Hh. change (c :: rev (x :: t)) with ([c] ++ rev (x :: t)).
    cbn [rev]. rewrite app_assoc, last_last. exact Hh.
Qed.

Lemma header_line_head name url :
  exists r, header_line repr_container name url = 128313%N :: r.
Proof. unfold header_line. eexists. reflexivity. Qed.

Lemma join_head sep h rest : exists t, join sep (h :: rest) = h ++ t.
Proof.
  destruct rest as [|x r]; simpl.
  - exists []. rewrite app_nil_r. reflexivity.
  - eexists. reflexivity.
Qed.

Lemma report_lines_head st lines :
  by_card st <> [] ->
  report_lines str_lower repr_container list_lt libc_small_year mktime
    fromisoformat tz st = inr lines ->
  exists r, join NEWLINE lines = 128313%N :: r.
Proof.
  intros Hne. unfold report_lines. intros E.
  destruct (sorted _ (card_sort_key str_lower st) (keys (by_card st)))
    as [|ids] eqn:Es; simpl in E; [discriminate|].
  destruct (map_result _ ids) as [|blocks] eqn:Em; simpl in E; [discriminate|].
  inversion E; subst lines. clear E.
  apply sorted_length in Es.
  destruct ids as [|id ids'].
  { unfold keys in Es. rewrite length_map in Es.
    destruct (by_card st); [congruence | discriminate]. }
  simpl in Em.
  destruct (card_block repr_container list_lt libc_small_year mktime
              fromisoformat tz st id) as [|b] eqn:Eb; simpl in Em;
    [discriminate|].
  destruct (map_result _ ids') as [|bs]; simpl in Em; [discriminate|].
  inversion Em; subst blocks. clear Em.
  unfold card_block in Eb.
  destruct (subscript (card_meta st) id) as [|meta]; simpl in Eb;
    [discriminate|].
  destruct (subscript (by_card st) id) as [|comps]; simpl in Eb;
    [discriminate|].
  destruct (sorted _ _ comps) as [|ordered]; simpl in Eb; [discriminate|].
  inversion Eb; subst b. clear Eb.
  cbn [concat app].
  destruct (header_line_head (fst meta) (snd meta)) as (r & Hr).
  destruct (join_head NEWLINE (header_line repr_container (fst meta) (snd meta))
              ((List.map (completion_line repr_container libc_small_year
                            mktime fromisoformat tz) ordered ++ [[]])
                 ++ concat bs)) as (t & Ht).
  rewrite Ht, Hr. eexists. reflexivity.
Qed.

Lemma build_report_body actions ttl body :
  build_report str_lower repr_container list_lt libc_small_year mktime
    fromisoformat tz start_ end_v actions = inr (ttl, body) ->
  body <> []
  /\ isspace (hd 32%N body) = false
  /\ isspace (last body 32%N) = false.
Proof.
  unfold build_report. intros E.
  destruct (scan repr_container actions) as [|st]; simpl in E;
    [discriminate|].
  destruct (title libc_small_year start_ end_v) as [|t]; simpl in E;
    [discriminate|].
  destruct (by_card st) as [|kv d] eqn:Eby.
  - inversion E. vm_compute. repeat split. discriminate.
  - destruct (report_lines str_lower repr_container list_lt libc_small_year
                mktime fromisoformat tz st) as [|lines] eqn:El;
      simpl in E; [discriminate|].
    inversion E.
    destruct (@report_lines_head st lines) as (r & Hr);
      [rewrite Eby; discriminate | exact El |].
    rewrite Hr.
    destruct (@strip_edges 128313%N r eq_refl) as (Hne & Hhd & Hlast).
    split; [exact Hne|]. split; [exact Hhd | exact Hlast].
Qed.

End ReportMore.

(** X10: the entries the loop passes over (those that are not a dictionary,
    and those whose item is not in the state [complete]) leave no trace:
    without them [build_report] returns, or raises, the same. *)
Theorem X10_skipped_entries_do_not_count
    (str_lower : str -> str) (repr_container : Py.value -> str)
    (list_lt : list Py.value -> list Py.value -> result bool)
    (libc_small_year : Z -> str) (mktime : Z -> result Z)
    (fromisoformat : str -> result Datetime.datetime) (tz : Datetime.zone)
    (start_ end_v : Datetime.datetime) (actions : list Py.value) :
  Script.build_report str_lower repr_container list_lt libc_small_year mktime
    fromisoformat tz start_ end_v
    (filter (fun a => negb (skipped repr_container a)) actions)
  = Script.build_report str_lower repr_container list_lt libc_small_year
      mktime fromisoformat tz start_ end_v actions.
Proof.
  unfold Script.build_report, Script.scan.
  rewrite for_each_skipped. reflexivity.
Qed.

(** X11: a body that [build_report] returns is never empty, and neither
    starts nor ends with a white-space character. *)
Theorem X11_body_is_not_blank
    (str_lower : str -> str) (repr_container : Py.value -> str)
    (list_lt : list Py.value -> list Py.value -> result bool)
    (libc_small_year : Z -> str) (mktime : Z -> result Z)
    (fromisoformat : str -> result Datetime.datetime) (tz : Datetime.zone)
    (start_ end_v : Datetime.datetime) (actions : list Py.value)
    (title body : str) :
  Script.build_report str_lower repr_container list_lt libc_small_year mktime
    fromisoformat tz start_ end_v actions = inr (title, body) ->
  body <> []
  /\ Py.isspace (hd 32%N body) = false
  /\ Py.isspace (last body 32%N) = false.
Proof.
  apply (@build_report_body str_lower repr_container list_lt libc_small_year
           mktime fromisoformat tz start_ end_v actions title).
Qed.

Lemma X11_witness :
  exists title body,
    host_build [item_A; item_B] = inr (title, body)
    /\ body <> []
    /\ Py.isspace (hd 32%N body) = false
    /\ Py.isspace (last body 32%N) = false.
Proof.
  eexists. eexists. split; [vm_compute; reflexivity|].
  apply (@X11_body_is_not_blank Host.ascii_lower Host.repr_unused
           Host.list_lt_unused Host.glibc_small_year Host.mktime_utc
           Host.fromisoformat Host.moscow
           (Datetime.mkdt (Datetime._ymd2ord 2024 3 25) 0
              (Some (3 * Datetime.HOUR)%Z))
           (Datetime.mkdt (Datetime._ymd2ord 2024 4 1) 0
              (Some (3 * Datetime.HOUR)%Z))
           [item_A; item_B] host_title).
  vm_compute. reflexivity.
Defined.

(** ** Every kept entry has its line *)
Section ReportLines.

Import Datetime Py Script.

Variable str_lower : str -> str.
Variable repr_container : value -> str.
Variable list_lt : list value -> list value -> result bool.
Variable libc_small_year : Z -> str.
Variable mktime : Z -> result Z.
Variable fromisoformat : str -> result datetime.
Variable tz : zone.

(** *** [sorted] permutes, also when its comparison can raise *)
Lemma insert_by_perm (A K : Type) (ltb : K -> K -> result bool)
    (x : K * A) (l : list (K * A)) :
  forall l', insert_by ltb x l = inr l' -> Permutation l' (x :: l).
Proof.
  induction l as [|y r IH]; simpl; intros l' E.
  - inversion E. apply Permutation_refl.
  - destruct (ltb (fst y) (fst x)) as [|[|]]; simpl in E; [discriminate| |].
    + destruct (insert_by ltb x r) as [|r']; simpl in E; [discriminate|].
      inversion E.
      apply perm_trans with (y :: x :: r);
        [apply perm_skip; apply IH; reflexivity | apply perm_swap].
    + inversion E. apply Permutation_refl.
Qed.

Lemma sort_by_perm (A K : Type) (ltb : K -> K -> result bool)
    (l : list (K * A)) :
  forall l', sort_by ltb l = inr l' -> Permutation l' l.
Proof.
  induction l as [|x r IH]; simpl; intros l' E.
  - inversion E. apply Permutation_refl.
  - destruct (sort_by ltb r) as [|s]; simpl in E; [discriminate|].
    apply perm_trans with (x :: s);
      [exact (insert_by_perm _ _ _ E) | apply perm_skip; apply IH; reflexivity].
Qed.

Lemma map_result_keyed (A K : Type) (key : A -> result K) (l : list A) :
  forall keyed,
    map_result (fun x => k <- key x ;; ret (k, x)) l = inr keyed ->
    List.map snd keyed = l.
Proof.
  induction l as [|x r IH]; simpl; intros keyed E.
  - inversion E. reflexivity.
  - destruct (key x); simpl in E; [discriminate|].
    destruct (map_result _ r) as [|ys]; simpl in E; [discriminate|].
    inversion E. simpl. rewrite (IH ys eq_refl). reflexivity.
Qed.

Lemma sorted_perm (A K : Type) (ltb : K -> K -> result bool)
    (key : A -> result K) (l s : list A) :
  sorted ltb key l = inr s -> Permutation s l.
Proof.
  unfold sorted. intros E.
  destruct (map_result _ l) as [|keyed] eqn:Ek; simpl in E; [discriminate|].
  destruct (sort_by ltb keyed) as [|s'] eqn:Es; simpl in E; [discriminate|].
  inversion E. rewrite <- (map_result_keyed _ _ Ek).
  apply Permutation_map. exact (sort_by_perm _ _ Es).
Qed.

(** *** The groups are a partition of the kept entries *)
Lemma partition_perm (A : Type) (p : A -> bool) (l : list A) :
  Permutation (filter p l ++ filter (fun x => negb (p x)) l) l.
Proof.
  induction l as [|x r IH]; simpl; [constructor|].
  destruct (p x); simpl.
  - apply perm_skip. exact IH.
  - apply Permutation_sym.
    apply perm_trans with (x :: filter p r ++ filter (fun x => negb (p x)) r).
    + apply perm_skip. apply Permutation_sym. exact IH.
    + apply Permutation_middle.
Qed.

Lemma flat_map_agree (A B : Type) (f g : A -> list B) (l : list A) :
  (forall a, In a l -> f a = g a) -> flat_map f l = flat_map g l.
Proof.
  induction l as [|x r IH]; intros H; simpl; [reflexivity|].
  rewrite (H x (or_introl eq_refl)), IH; [reflexivity|].
  intros a Ha. apply H. right. exact Ha.
Qed.

Lemma of_card_without k k' (l : list (key * completion)) :
  k' <> k ->
  of_card k' (filter (fun x => negb (key_eqb (fst x) k)) l) = of_card k' l.
Proof.
  intros Hne. unfold of_card.
  induction l as [|x r IHl]; simpl; [reflexivity|].
  destruct (key_eqb (fst x) k') eqn:E1; destruct (key_eqb (fst x) k) eqn:E2;
    simpl; rewrite ?E1.
  - apply key_eqb_eq in E1, E2. congruence.
  - f_equal. apply IHl.
  - apply IHl.
  - apply IHl.
Qed.

Lemma groups_partition (ks : list key) :
  forall l : list (key * completion),
    NoDup ks ->
    (forall k, In k ks <-> In k (List.map fst l)) ->
    Permutation (flat_map (fun k => of_card k l) ks) l.
Proof.
  induction ks as [|k ks IH]; intros l Hnd Hin.
  - destruct l as [|x r]; [constructor|].
    exfalso. apply (Hin (fst x)). left. reflexivity.
  - inversion Hnd as [|? ? Hk Hnd']; subst.
    set (rest := filter (fun x => negb (key_eqb (fst x) k)) l).
    assert (Hrest : forall k', In k' ks <-> In k' (List.map fst rest)).
    { intros k'. split.
      - intros Hk'. assert (Hl : In k' (List.map fst l))
          by (apply Hin; right; exact Hk').
        apply in_map_iff in Hl. destruct Hl as (x & Hx & Hxl).
        apply in_map_iff. exists x. split; [exact Hx|].
        apply filter_In. split; [exact Hxl|].
        destruct (key_eqb (fst x) k) eqn:E; [|reflexivity].
        apply key_eqb_eq in E. congruence.
      - intros Hk'. apply in_map_iff in Hk'. destruct Hk' as (x & Hx & Hxl).
        apply filter_In in Hxl. destruct Hxl as [Hxl Hne].
        assert (Hl : In k' (k :: ks)).
        { apply Hin. apply in_map_iff. exists x. tauto. }
        destruct Hl as [->|Hl]; [|exact Hl].
        rewrite <- Hx, key_eqb_refl in Hne. discriminate. }
    cbn [flat_map].
    apply perm_trans with (of_card k l ++ rest);
      [|apply (partition_perm (fun x => key_eqb (fst x) k) l)].
    apply Permutation_app_head.
    rewrite (@flat_map_agree _ _ (fun k' => of_card k' l)
               (fun k' => of_card k' rest)).
    + apply IH; assumption.
    + intros k' Hk'. symmetry. apply of_card_without.
      intros ->. contradiction.
Qed.

(** *** The lines of a card, and of the report *)
Lemma card_block_inv l id b :
  card_block repr_container list_lt libc_small_year mktime fromisoformat tz
    (stored l) id = inr b ->
  exists ordered,
    Permutation ordered (List.map (line_of repr_container libc_small_year mktime fromisoformat tz) (of_card id l))
    /\ b = header_of repr_container l id :: ordered ++ [[]].
Proof.
  unfold card_block, subscript, header_of.
  destruct (stored_spec l) as (_ & _ & _ & Hby & Hmeta).
  rewrite Hmeta, Hby.
  destruct (last_meta id l) as [meta|]; simpl; [|discriminate].
  destruct (of_card id l) as [|x r] eqn:Eo; simpl; [discriminate|].
  destruct (sorted _ _ (comps_of id l)) as [|ordered] eqn:Es; simpl;
    [discriminate|].
  intros E. inversion E.
  exists (List.map (completion_line repr_container libc_small_year mktime
                      fromisoformat tz) ordered).
  split; [|reflexivity].
  apply sorted_perm in Es. unfold comps_of in Es.
  change (Permutation
            (List.map (completion_line repr_container libc_small_year mktime
                         fromisoformat tz) ordered)
            (List.map (line_of repr_container libc_small_year mktime fromisoformat tz) (x :: r))).
  rewrite <- Eo. unfold line_of.
  rewrite <- (map_map (fun x => (date (snd x), item_name (snd x)))
                (completion_line repr_container libc_small_year mktime
                   fromisoformat tz)).
  apply Permutation_map. exact Es.
Qed.

Lemma blocks_perm l ids : forall blocks,
  map_result (card_block repr_container list_lt libc_small_year mktime
                fromisoformat tz (stored l)) ids = inr blocks ->
  Permutation (List.concat blocks)
    (List.map (header_of repr_container l) ids
       ++ List.map (line_of repr_container libc_small_year mktime fromisoformat tz) (flat_map (fun k => of_card k l) ids)
       ++ repeat [] (List.length ids)).
Proof.
  induction ids as [|id ids IH]; simpl; intros blocks E.
  - inversion E. constructor.
  - destruct (card_block repr_container list_lt libc_small_year mktime
                fromisoformat tz (stored l) id) as [|b] eqn:Eb; simpl in E;
      [discriminate|].
    destruct (map_result _ ids) as [|bs]; simpl in E; [discriminate|].
    inversion E; subst blocks. clear E.
    apply card_block_inv in Eb. destruct Eb as (ordered & Hord & ->).
    specialize (IH bs eq_refl).
    set (H' := List.map (header_of repr_container l) ids) in *.
    set (C' := List.map (line_of repr_container libc_small_year mktime fromisoformat tz) (flat_map (fun k => of_card k l) ids)) in *.
    set (E' := repeat (@nil char) (List.length ids)) in *.
    cbn [concat app]. apply perm_skip.
    rewrite map_app. set (C0 := List.map (line_of repr_container libc_small_year mktime fromisoformat tz) (of_card id l)) in *.
    rewrite <- !app_assoc.
    apply perm_trans with (C0 ++ [[]] ++ H' ++ C' ++ E').
    { apply Permutation_app; [exact Hord|].
      apply Permutation_app_head. exact IH. }
    apply perm_trans with (C0 ++ H' ++ C' ++ [] :: E').
    { apply Permutation_app_head. cbn [app].
      apply perm_trans with ((H' ++ C') ++ [] :: E').
      - rewrite (app_assoc H' C' E'). apply Permutation_middle.
      - rewrite <- app_assoc. apply Permutation_refl. }
    apply Permutation_app_swap_app.
Qed.

End ReportLines.

(** X12: the lines of the report are one header for each card, one line
    for each kept entry and one empty line for each card, and no other;
    this holds whenever the loop and the rendering raise nothing. *)
Theorem X12_each_kept_entry_has_one_line
    (str_lower : str -> str) (repr_container : Py.value -> str)
    (list_lt : list Py.value -> list Py.value -> result bool)
    (libc_small_year : Z -> str) (mktime : Z -> result Z)
    (fromisoformat : str -> result Datetime.datetime) (tz : Datetime.zone)
    (actions : list Py.value) (st : Script.dicts) (lines : list str) :
  Script.scan repr_container actions = inr st ->
  Script.report_lines str_lower repr_container list_lt libc_small_year mktime
    fromisoformat tz st = inr lines ->
  exists l,
    kept repr_container actions = inr l
    /\ Permutation lines
         (List.map (header_of repr_container l)
            (Py.keys (Script.by_card st))
          ++ List.map
               (line_of repr_container libc_small_year mktime fromisoformat
                  tz) l
          ++ repeat [] (List.length (Script.by_card st))).
Proof.
  intros Hscan Hlines. rewrite scan_kept in Hscan.
  destruct (kept repr_container actions) as [|l]; simpl in Hscan;
    [discriminate|].
  inversion Hscan; subst st. clear Hscan.
  exists l. split; [reflexivity|].
  unfold Script.report_lines in Hlines.
  destruct (Py.sorted _ (Script.card_sort_key str_lower (stored l))
              (Py.keys (Script.by_card (stored l)))) as [|ids] eqn:Es;
    simpl in Hlines; [discriminate|].
  destruct (map_result _ ids) as [|blocks] eqn:Em; simpl in Hlines;
    [discriminate|].
  inversion Hlines; subst lines. clear Hlines.
  apply sorted_perm in Es.
  apply perm_trans
    with (1 := @blocks_perm repr_container list_lt libc_small_year mktime
                 fromisoformat tz l ids blocks Em).
  destruct (stored_spec l) as (Hnd & _ & Hin & _ & _).
  apply Permutation_app; [apply Permutation_map; exact Es|].
  apply Permutation_app.
  - apply Permutation_map.
    apply perm_trans
      with (flat_map (fun k => of_card k l)
              (Py.keys (Script.by_card (stored l)))).
    + apply Permutation_flat_map. exact Es.
    + apply groups_partition; assumption.
  - rewrite (Permutation_length Es). unfold Py.keys. rewrite length_map.
    apply Permutation_refl.
Qed.

Lemma X12_witness :
  exists st lines l,
    Script.scan Host.repr_unused [item_A; item_B] = inr st
    /\ Script.report_lines Host.ascii_lower Host.repr_unused
         Host.list_lt_unused Host.glibc_small_year Host.mktime_utc
         Host.fromisoformat Host.moscow st = inr lines
    /\ kept Host.repr_unused [item_A; item_B] = inr l
    /\ Permutation lines
         (List.map (header_of Host.repr_unused l)
            (Py.keys (Script.by_card st))
          ++ List.map
               (line_of Host.repr_unused Host.glibc_small_year
                  Host.mktime_utc Host.fromisoformat Host.moscow) l
          ++ repeat [] (List.length (Script.by_card st))).
Proof.
  set (st := match Script.scan Host.repr_unused [item_A; item_B] with
             | inr st => st
             | inl _ => Script.no_dicts
             end).
  set (lines := match Script.report_lines Host.ascii_lower Host.repr_unused
                        Host.list_lt_unused Host.glibc_small_year
                        Host.mktime_utc Host.fromisoformat Host.moscow st with
                | inr lines => lines
                | inl _ => []
                end).
  assert (Hs : Script.scan Host.repr_unused [item_A; item_B] = inr st)
    by (vm_compute; reflexivity).
  assert (Hl : Script.report_lines Host.ascii_lower Host.repr_unused
                 Host.list_lt_unused Host.glibc_small_year Host.mktime_utc
                 Host.fromisoformat Host.moscow st = inr lines)
    by (vm_compute; reflexivity).
  destruct (@X12_each_kept_entry_has_one_line Host.ascii_lower
              Host.repr_unused Host.list_lt_unused Host.glibc_small_year
              Host.mktime_utc Host.fromisoformat Host.moscow
              [item_A; item_B] st lines Hs Hl) as (l & Hk & Hp).
  exists st, lines, l. repeat split; assumption.
Defined.

(** ** [sorted] is stable *)
Section Stable.

Context {A K : Type}.
Variable cmp : K -> K -> bool.

(** [p] picks a class of elements none of which is before another. *)
Variable p : K * A -> bool.
Hypothesis class_ties :
  forall x y, p x = true -> p y = true -> cmp (fst y) (fst x) = false.

Lemma insert_pure_filter (x : K * A) (l : list (K * A)) :
  filter p (insert_pure cmp x l) = filter p (x :: l).
Proof.
  induction l as [|y r IH]; [reflexivity|].
  cbn [insert_pure].
  destruct (cmp (fst y) (fst x)) eqn:E; [|reflexivity].
  cbn [filter] in *. rewrite IH.
  destruct (p x) eqn:Px; destruct (p y) eqn:Py; try reflexivity.
  rewrite (@class_ties x y Px Py) in E. discriminate.
Qed.

Lemma isort_filter (l : list (K * A)) :
  filter p (isort cmp l) = filter p l.
Proof.
  induction l as [|x r IH]; [reflexivity|].
  cbn [isort]. rewrite insert_pure_filter. cbn [filter]. rewrite IH.
  reflexivity.
Qed.

End Stable.

Lemma sorted_pure_filter (A K : Type) (cmp : K -> K -> bool) (f : A -> K)
    (q : K -> bool) (l : list A) :
  (forall a b, q a = true -> q b = true -> cmp b a = false) ->
  filter (fun x => q (f x)) (sorted_pure cmp f l)
  = filter (fun x => q (f x)) l.
Proof.
  intros Hq. unfold sorted_pure.
  assert (Hmap : forall L : list (K * A),
             (forall kx, In kx L -> fst kx = f (snd kx)) ->
             filter (fun x => q (f x)) (List.map snd L)
             = List.map snd (filter (fun kx => q (fst kx)) L)).
  { induction L as [|kx L IH]; intros HL; [reflexivity|].
    cbn [List.map filter]. rewrite (HL kx (or_introl eq_refl)).
    rewrite IH by (intros y Hy; apply HL; right; exact Hy).
    destruct (q (f (snd kx))); reflexivity. }
  assert (Hkeyed : forall kx, In kx (List.map (fun x => (f x, x)) l) ->
                              fst kx = f (snd kx)).
  { intros kx Hkx. apply in_map_iff in Hkx. destruct Hkx as (x & <- & _).
    reflexivity. }
  rewrite Hmap.
  - rewrite (@isort_filter A K cmp (fun kx => q (fst kx)))
      by (intros x y; apply Hq).
    rewrite <- Hmap by exact Hkeyed.
    rewrite map_map. cbn [snd]. rewrite map_id. reflexivity.
  - intros kx Hkx. apply Hkeyed.
    eapply Permutation_in; [apply isort_perm | exact Hkx].
Qed.

(** X13: when the timestamps of a card's completions are text, sorting
    them raises nothing, and the completions that carry one and the same
    timestamp come out in the order they had in the input. *)
Theorem X13_equal_timestamps_keep_order
    (list_lt : list Py.value -> list Py.value -> result bool)
    (comps : list (Py.value * Py.value)) :
  Forall (fun c => text_or_falsy (fst c) = true) comps ->
  exists ordered,
    Py.sorted (Py.lt list_lt) Script.completion_sort_key comps = inr ordered
    /\ forall t,
         filter (fun x => str_eqb (str_of (date_key x)) t) ordered
         = filter (fun x => str_eqb (str_of (date_key x)) t) comps.
Proof.
  intros Hall. exists (sorted_pure value_ltb date_key comps).
  split; [exact (sorted_completions_spec list_lt Hall)|].
  intros t.
  apply (@sorted_pure_filter _ _ value_ltb date_key
           (fun k => str_eqb (str_of k) t)).
  intros a b Ha Hb. apply str_eqb_eq in Ha, Hb. unfold value_ltb.
  rewrite Ha, Hb. apply str_ltb_irrefl.
Qed.

Lemma X13_witness :
  exists ordered,
    Py.sorted (Py.lt Host.list_lt_unused) Script.completion_sort_key
      [(Py.PStr (u8 "2024-03-27"), Py.PStr (u8 "later"));
       (Py.PStr (u8 "2024-03-26"), Py.PStr (u8 "b"));
       (Py.PStr (u8 "2024-03-26"), Py.PStr (u8 "a"))]
    = inr ordered
    /\ forall t,
         filter (fun x => str_eqb (str_of (date_key x)) t) ordered
         = filter (fun x => str_eqb (str_of (date_key x)) t)
             [(Py.PStr (u8 "2024-03-27"), Py.PStr (u8 "later"));
              (Py.PStr (u8 "2024-03-26"), Py.PStr (u8 "b"));
              (Py.PStr (u8 "2024-03-26"), Py.PStr (u8 "a"))].
Proof.
  apply (@X13_equal_timestamps_keep_order Host.list_lt_unused).
  repeat constructor.
Defined.

(** ** Entries that cannot make the report fail *)
Section PlainEntries.

Import Datetime Py Script.

Variable repr_container : value -> str.

Lemma kept_plain (entries : list entry_fields) :
  forallb plain entries = true ->
  exists l,
    kept repr_container (List.map action_of entries) = inr l
    /\ names_text l = true /\ dates_text l = true.
Proof.
  induction entries as [|e r IH]; intros Hall.
  - exists []. repeat split; reflexivity.
  - cbn [forallb] in Hall. apply andb_prop in Hall.
    destruct Hall as [He Hr]. destruct (IH Hr) as (l & Hk & Hn & Hd).
    unfold plain in He. apply andb_prop in He. destruct He as [He Hdate].
    apply andb_prop in He. destruct He as [Hid Hname].
    cbn [List.map kept]. unfold keyed_entry.
    change (action_of e) with (action (fst (fst e)) (snd (fst e)) (snd e)).
    rewrite read_action. cbn [bind ret].
    destruct (ne_str (field (snd (fst e)) K_state PNone) S_complete).
    + cbn [bind ret]. rewrite Hk. cbn [bind ret]. exists l. auto.
    + cbn [bind ret card_id].
      destruct (hash (field (fst (fst e)) K_id PNone)) as [|k];
        [discriminate|].
      cbn [bind ret]. rewrite Hk. cbn [bind ret].
      eexists. split; [reflexivity|].
      unfold names_text, dates_text in *. cbn [forallb snd card_name date].
      rewrite Hname, Hdate, Hn, Hd. auto.
Qed.

End PlainEntries.

(** X14: on entries in the shape of the board API (the data, the card and
    the item are objects) whose card identifier can be a dictionary key and
    whose card name and date are text, null or missing, [build_report]
    raises nothing, provided the day before [end] exists. *)
Theorem X14_plain_entries_never_raise
    (str_lower : str -> str) (repr_container : Py.value -> str)
    (list_lt : list Py.value -> list Py.value -> result bool)
    (libc_small_year : Z -> str) (mktime : Z -> result Z)
    (fromisoformat : str -> result Datetime.datetime) (tz : Datetime.zone)
    (start_ end_v : Datetime.datetime) (entries : list entry_fields) :
  forallb plain entries = true ->
  (1 <= Datetime.ordinal end_v - 1 <= Datetime.MAXORD)%Z ->
  exists title body,
    Script.build_report str_lower repr_container list_lt libc_small_year
      mktime fromisoformat tz start_ end_v (List.map action_of entries)
    = inr (title, body).
Proof.
  intros Hall Hend.
  destruct (kept_plain repr_container entries Hall) as (l & Hk & Hn & Hd).
  rewrite (@build_report_spec str_lower repr_container list_lt
             libc_small_year mktime fromisoformat tz start_ end_v _ l
             Hk Hn Hd).
  unfold Script.title. rewrite (@sub_days_ok end_v 1 Hend). cbn [bind ret].
  eexists. eexists. reflexivity.
Qed.

Lemma X14_witness :
  exists title body,
    host_build
      (List.map action_of
         [([(Script.K_id, Py.PInt 7); (Script.K_name, Py.PNone)],
           [(Script.K_state, Py.PStr Script.S_complete)], None);
          ([], [(Script.K_state, Py.PStr Script.S_complete)],
           Some (Py.PStr (u8 "yesterday")))])
    = inr (title, body).
Proof.
  apply (@X14_plain_entries_never_raise Host.ascii_lower Host.repr_unused
           Host.list_lt_unused Host.glibc_small_year Host.mktime_utc
           Host.fromisoformat Host.moscow
           (Datetime.mkdt (Datetime._ymd2ord 2024 3 25) 0
              (Some (3 * Datetime.HOUR)%Z))
           (Datetime.mkdt (Datetime._ymd2ord 2024 4 1) 0
              (Some (3 * Datetime.HOUR)%Z))).
  - vm_compute. reflexivity.
  - vm_compute. split; discriminate.
Defined.

(** ** The settings, the fetch and [main] *)
Section MainFacts.

Import Datetime Py Script Program.

Variables uni_alnum uni_digit : char -> bool.
Variable str_lower : str -> str.
Variable repr_container : value -> str.
Variable list_lt : list value -> list value -> result bool.
Variable libc_small_year : Z -> str.
Variable mktime : Z -> result Z.
Variable fromisoformat : str -> result datetime.
Variable tz : zone.
Variables start_ end_v : datetime.

Lemma for_each_not_dicts (l : list value) : forall st,
  Forall (fun a => is_dict a = false) l ->
  for_each (scan_step repr_container) l st = ret st.
Proof.
  induction l as [|a r IH]; intros st Hall; [reflexivity|].
  inversion Hall as [|? ? Ha Hr]; subst.
  cbn [for_each]. unfold scan_step.
  rewrite (read_entry_not_dict repr_container a Ha). cbn [bind ret].
  apply IH. exact Hr.
Qed.

Lemma build_report_not_dicts (l : list value) :
  Forall (fun a => is_dict a = false) l ->
  build_report str_lower repr_container list_lt libc_small_year mktime
    fromisoformat tz start_ end_v l
  = (t <- title libc_small_year start_ end_v ;; ret (t, S_nothing)).
Proof.
  intros Hall. unfold build_report, scan.
  rewrite (for_each_not_dicts no_dicts Hall). reflexivity.
Qed.

End MainFacts.

(** X15: the settings are read only when the five required variables are
    all set and not empty; otherwise the script stops on the first of them,
    in the order of the source, that is unset or empty.  [TZ_NAME] takes its
    default only when it is unset: an empty value is kept. *)
Theorem X15_settings_are_required (env : Program.environ) :
  let required :=
    [Program.N_TRELLO_KEY; Program.N_TRELLO_TOKEN; Program.N_BOARD_ID;
     Program.N_TG_TOKEN; Program.N_TG_CHAT_ID] in
  let present name :=
    exists c r, Program.getenv env name = Some (c :: r) in
  match Program.load_settings env with
  | inr cfg =>
      List.map (Program.getenv env) required
      = List.map (@Some str)
          [Program.TRELLO_KEY cfg; Program.TRELLO_TOKEN cfg;
           Program.BOARD_ID cfg; Program.TG_TOKEN cfg;
           Program.TG_CHAT_ID cfg]
      /\ Forall present required
      /\ Program.TZ_NAME cfg
         = match Program.getenv env Program.N_TZ_NAME with
           | Some v => v
           | None => Program.S_Europe_Moscow
           end
  | inl e =>
      exists before name after,
        e = Program.Required name
        /\ required = before ++ name :: after
        /\ Forall present before
        /\ (Program.getenv env name = None
            \/ Program.getenv env name = Some [])
  end.
Proof.
  intros required present. unfold Program.load_settings, Program.need.
  assert (Hp : forall name c r,
             Program.getenv env name = Some (c :: r) -> present name)
    by (intros name c r H; exists c, r; exact H).
  assert (Hall : forall names,
             Forall (fun n => exists c r,
                       Program.getenv env n = Some (c :: r)) names ->
             Forall present names)
    by (intros names H; exact H).
  destruct (Program.getenv env Program.N_TRELLO_KEY) as [[|c1 r1]|] eqn:E1;
    cbn [Program.and_then];
    [exists [], Program.N_TRELLO_KEY; eexists; repeat split; auto | |
     exists [], Program.N_TRELLO_KEY; eexists; repeat split; auto].
  destruct (Program.getenv env Program.N_TRELLO_TOKEN) as [[|c2 r2]|] eqn:E2;
    cbn [Program.and_then];
    [exists [Program.N_TRELLO_KEY], Program.N_TRELLO_TOKEN; eexists;
     repeat split; auto; apply Hall; repeat constructor; eauto | |
     exists [Program.N_TRELLO_KEY], Program.N_TRELLO_TOKEN; eexists;
     repeat split; auto; apply Hall; repeat constructor; eauto].
  destruct (Program.getenv env Program.N_BOARD_ID) as [[|c3 r3]|] eqn:E3;
    cbn [Program.and_then];
    [exists [Program.N_TRELLO_KEY; Program.N_TRELLO_TOKEN],
       Program.N_BOARD_ID; eexists; repeat split; auto; apply Hall;
     repeat constructor; eauto | |
     exists [Program.N_TRELLO_KEY; Program.N_TRELLO_TOKEN],
       Program.N_BOARD_ID; eexists; repeat split; auto; apply Hall;
     repeat constructor; eauto].
  destruct (Program.getenv env Program.N_TG_TOKEN) as [[|c4 r4]|] eqn:E4;
    cbn [Program.and_then];
    [exists [Program.N_TRELLO_KEY; Program.N_TRELLO_TOKEN;
             Program.N_BOARD_ID], Program.N_TG_TOKEN; eexists;
     repeat split; auto; apply Hall; repeat constructor; eauto | |
     exists [Program.N_TRELLO_KEY; Program.N_TRELLO_TOKEN;
             Program.N_BOARD_ID], Program.N_TG_TOKEN; eexists;
     repeat split; auto; apply Hall; repeat constructor; eauto].
  destruct (Program.getenv env Program.N_TG_CHAT_ID) as [[|c5 r5]|] eqn:E5;
    cbn [Program.and_then];
    [exists [Program.N_TRELLO_KEY; Program.N_TRELLO_TOKEN;
             Program.N_BOARD_ID; Program.N_TG_TOKEN], Program.N_TG_CHAT_ID;
     eexists; repeat split; auto; apply Hall; repeat constructor; eauto | |
     exists [Program.N_TRELLO_KEY; Program.N_TRELLO_TOKEN;
             Program.N_BOARD_ID; Program.N_TG_TOKEN], Program.N_TG_CHAT_ID;
     eexists; repeat split; auto; apply Hall; repeat constructor; eauto].
  cbn [Program.TRELLO_KEY Program.TRELLO_TOKEN Program.BOARD_ID
       Program.TG_TOKEN Program.TG_CHAT_ID Program.TZ_NAME].
  subst required. cbn [List.map]. rewrite E1, E2, E3, E4, E5.
  repeat split; auto. apply Hall. repeat constructor; eauto.
Qed.

(** X16: whatever the board and the messaging endpoint answer, everything
    [main] posts is a message for the configured chat through the configured
    bot, of 1 to 3500 characters; and [OK] is printed exactly when [main]
    returns without an exception. *)
Theorem X16_main_posts_bounded_messages
    (ua ud : char -> bool) (str_lower : str -> str)
    (repr_container : Py.value -> str)
    (list_lt : list Py.value -> list Py.value -> result bool)
    (libc_small_year : Z -> str) (mktime : Z -> result Z)
    (fromisoformat : str -> result Datetime.datetime) (tz : Datetime.zone)
    (cfg : Program.settings) (start_ end_v : Datetime.datetime)
    (since before : str)
    (board : Program.get_request -> Program.get_reply)
    (json : str -> result Py.value)
    (endpoint : list Script.request -> Script.request -> Script.reply)
    (posted : list Script.request) :
  let run :=
    Program.main ua ud str_lower repr_container list_lt libc_small_year
      mktime fromisoformat tz cfg start_ end_v since before board json
      endpoint posted in
  exists sent,
    fst (fst run) = posted ++ sent
    /\ Forall
         (bounded_message (Program.TG_TOKEN cfg) (Program.TG_CHAT_ID cfg))
         sent
    /\ (snd (fst run) = [Program.S_OK] /\ snd run = inr tt
        \/ snd (fst run) = [] /\ exists e, snd run = inl e).
Proof.
  intros run. subst run. unfold Program.main.
  destruct (Program.get_actions cfg since before board json) as [e|actions].
  { exists []. rewrite app_nil_r. cbn [fst snd]. repeat split; eauto. }
  destruct (Program.build_report_of str_lower repr_container list_lt
              libc_small_year mktime fromisoformat tz start_ end_v actions)
    as [e|[title body]].
  { exists []. rewrite app_nil_r. cbn [fst snd]. repeat split; eauto. }
  destruct (tg_send_html_sent ua ud endpoint (Program.TG_TOKEN cfg)
              (Program.TG_CHAT_ID cfg)
              (Program.S_b ++ title ++ Program.S_b_end) posted)
    as (sent1 & H1 & F1).
  destruct (Script.tg_send_html ua ud endpoint (Program.TG_TOKEN cfg)
              (Program.TG_CHAT_ID cfg)
              (Program.S_b ++ title ++ Program.S_b_end) posted)
    as [posted1 [e|u]].
  { exists sent1. cbn [fst snd] in *. repeat split; eauto. }
  cbn [fst] in H1. subst posted1.
  destruct (tg_send_html_sent ua ud endpoint (Program.TG_TOKEN cfg)
              (Program.TG_CHAT_ID cfg) body (posted ++ sent1))
    as (sent2 & H2 & F2).
  destruct (Script.tg_send_html ua ud endpoint (Program.TG_TOKEN cfg)
              (Program.TG_CHAT_ID cfg) body (posted ++ sent1))
    as [posted2 [e|u2]];
    cbn [fst snd] in *; subst posted2; exists (sent1 ++ sent2);
    rewrite app_assoc; (split; [reflexivity|]);
    (split; [apply Forall_app; split; assumption|]); eauto.
Qed.

(** X17: when the board cannot be reached, or answers with a status from
    400 to 599, or with a body that is not JSON, [main] posts nothing,
    prints nothing and ends with the exception. *)
Theorem X17_failed_fetch_posts_nothing
    (ua ud : char -> bool) (str_lower : str -> str)
    (repr_container : Py.value -> str)
    (list_lt : list Py.value -> list Py.value -> result bool)
    (libc_small_year : Z -> str) (mktime : Z -> result Z)
    (fromisoformat : str -> result Datetime.datetime) (tz : Datetime.zone)
    (cfg : Program.settings) (start_ end_v : Datetime.datetime)
    (since before : str)
    (board : Program.get_request -> Program.get_reply)
    (json : str -> result Py.value)
    (endpoint : list Script.request -> Script.request -> Script.reply)
    (posted : list Script.request) :
  match board (Program.actions_request cfg since before) with
  | Program.Unreachable => True
  | Program.Answer code body =>
      (400 <= code < 600)%Z \/ exists e, json body = inl e
  end ->
  exists e,
    Program.main ua ud str_lower repr_container list_lt libc_small_year
      mktime fromisoformat tz cfg start_ end_v since before board json
      endpoint posted
    = (posted, [], inl e).
Proof.
  intros H. unfold Program.main, Program.get_actions.
  destruct (board (Program.actions_request cfg since before))
    as [code body|]; [|eexists; reflexivity].
  destruct H as [Hcode|(e & He)].
  - rewrite (raise_for_status_error Hcode). eexists. reflexivity.
  - destruct (Script.raise_for_status code) as [e'|[]]; cbn [bind];
      [eexists; reflexivity|].
    rewrite He. eexists. reflexivity.
Qed.

Lemma X17_witness :
  exists e,
    Program.main Host.no_unicode Host.no_unicode Host.ascii_lower
      Host.repr_unused Host.list_lt_unused Host.glibc_small_year
      Host.mktime_utc Host.fromisoformat Host.moscow
      (Program.mksettings [] [] [] [] [] [])
      (Datetime.mkdt (Datetime._ymd2ord 2024 3 25) 0
         (Some (3 * Datetime.HOUR)%Z))
      (Datetime.mkdt (Datetime._ymd2ord 2024 4 1) 0
         (Some (3 * Datetime.HOUR)%Z))
      [] [] (fun _ => Program.Answer 401 (u8 "invalid key"))
      (fun _ => inr (Py.PList [])) Host.accepting []
    = ([], [], inl e).
Proof.
  apply (@X17_failed_fetch_posts_nothing Host.no_unicode Host.no_unicode
           Host.ascii_lower Host.repr_unused Host.list_lt_unused
           Host.glibc_small_year Host.mktime_utc Host.fromisoformat
           Host.moscow (Program.mksettings [] [] [] [] [] [])
           (Datetime.mkdt (Datetime._ymd2ord 2024 3 25) 0
              (Some (3 * Datetime.HOUR)%Z))
           (Datetime.mkdt (Datetime._ymd2ord 2024 4 1) 0
              (Some (3 * Datetime.HOUR)%Z))
           [] [] (fun _ => Program.Answer 401 (u8 "invalid key"))
           (fun _ => inr (Py.PList [])) Host.accepting []).
  left. lia.
Defined.

(** X18: when the board answers with entries from which a report is built
    and the endpoint accepts every message, [main] posts the chunks of the
    title in bold, then the chunks of the body, at least one of each, prints
    [OK] and returns. *)
Theorem X18_main_posts_title_then_body
    (ua ud : char -> bool) (str_lower : str -> str)
    (repr_container : Py.value -> str)
    (list_lt : list Py.value -> list Py.value -> result bool)
    (libc_small_year : Z -> str) (mktime : Z -> result Z)
    (fromisoformat : str -> result Datetime.datetime) (tz : Datetime.zone)
    (cfg : Program.settings) (start_ end_v : Datetime.datetime)
    (since before : str)
    (board : Program.get_request -> Program.get_reply)
    (json : str -> result Py.value)
    (endpoint : list Script.request -> Script.request -> Script.reply)
    (posted : list Script.request)
    (actions : Py.value) (ttl body : str) :
  Program.get_actions cfg since before board json = inr actions ->
  Program.build_report_of str_lower repr_container list_lt libc_small_year
    mktime fromisoformat tz start_ end_v actions = inr (ttl, body) ->
  (forall p rq, accepted (endpoint p rq)) ->
  exists t ts b bs,
    Script.chunks_of ua ud (Program.S_b ++ ttl ++ Program.S_b_end)
    = inr (t :: ts)
    /\ Script.chunks_of ua ud body = inr (b :: bs)
    /\ Program.main ua ud str_lower repr_container list_lt libc_small_year
         mktime fromisoformat tz cfg start_ end_v since before board json
         endpoint posted
       = (posted
            ++ List.map
                 (request_of (Program.TG_TOKEN cfg) (Program.TG_CHAT_ID cfg))
                 ((t :: ts) ++ (b :: bs)),
          [Program.S_OK], inr tt).
Proof.
  intros Hget Hbuild Hacc.
  assert (Hbody : body <> []).
  { unfold Program.build_report_of in Hbuild.
    destruct (Program.iterate actions) as [|l]; simpl in Hbuild;
      [discriminate|].
    apply (@build_report_body str_lower repr_container list_lt
             libc_small_year mktime fromisoformat tz start_ end_v l ttl body
             Hbuild). }
  assert (Htitle : Program.S_b ++ ttl ++ Program.S_b_end <> []).
  { destruct Program.S_b as [|c r] eqn:Eb;
      [vm_compute in Eb; discriminate | discriminate]. }
  destruct (chunks_of_nonempty ua ud Htitle) as (t & ts & Et).
  destruct (chunks_of_nonempty ua ud Hbody) as (b & bs & Eb).
  exists t, ts, b, bs. split; [exact Et|]. split; [exact Eb|].
  unfold Program.main. rewrite Hget, Hbuild.
  unfold Script.tg_send_html. rewrite Et.
  rewrite send_chunks_all by (intros i _; apply Hacc).
  unfold ret. rewrite Eb.
  rewrite send_chunks_all by (intros i _; apply Hacc).
  unfold ret. rewrite <- app_assoc, <- map_app. reflexivity.
Qed.

Lemma X18_witness :
  exists t ts b bs,
    Script.chunks_of Host.no_unicode Host.no_unicode
      (Program.S_b ++ host_title ++ Program.S_b_end) = inr (t :: ts)
    /\ Script.chunks_of Host.no_unicode Host.no_unicode Script.S_nothing
       = inr (b :: bs)
    /\ Program.main Host.no_unicode Host.no_unicode Host.ascii_lower
         Host.repr_unused Host.list_lt_unused Host.glibc_small_year
         Host.mktime_utc Host.fromisoformat Host.moscow
         (Program.mksettings [] [] [] (u8 "token") (u8 "42") [])
         (Datetime.mkdt (Datetime._ymd2ord 2024 3 25) 0
            (Some (3 * Datetime.HOUR)%Z))
         (Datetime.mkdt (Datetime._ymd2ord 2024 4 1) 0
            (Some (3 * Datetime.HOUR)%Z))
         [] [] (fun _ => Program.Answer 200 [])
         (fun _ => inr (Py.PList [])) Host.accepting []
       = ([]
            ++ List.map (request_of (u8 "token") (u8 "42"))
                 ((t :: ts) ++ (b :: bs)),
          [Program.S_OK], inr tt).
Proof.
  apply (@X18_main_posts_title_then_body Host.no_unicode Host.no_unicode
           Host.ascii_lower Host.repr_unused Host.list_lt_unused
           Host.glibc_small_year Host.mktime_utc Host.fromisoformat
           Host.moscow
           (Program.mksettings [] [] [] (u8 "token") (u8 "42") [])
           (Datetime.mkdt (Datetime._ymd2ord 2024 3 25) 0
              (Some (3 * Datetime.HOUR)%Z))
           (Datetime.mkdt (Datetime._ymd2ord 2024 4 1) 0
              (Some (3 * Datetime.HOUR)%Z))
           [] [] (fun _ => Program.Answer 200 [])
           (fun _ => inr (Py.PList [])) Host.accepting []
           (Py.PList []) host_title Script.S_nothing).
  - vm_compute. reflexivity.
  - vm_compute. reflexivity.
  - intros p rq. exists 200%Z. split; [reflexivity | lia].
Defined.

(** X19: an answer of the board that is not an array.  An object is read
    as the sequence of its keys and a text as the sequence of its
    characters: every element is passed over and the report says that
    nothing was completed.  Null, a boolean and a number cannot be iterated:
    [build_report] raises [TypeError]. *)
Theorem X19_answer_that_is_no_array
    (str_lower : str -> str) (repr_container : Py.value -> str)
    (list_lt : list Py.value -> list Py.value -> result bool)
    (libc_small_year : Z -> str) (mktime : Z -> result Z)
    (fromisoformat : str -> result Datetime.datetime) (tz : Datetime.zone)
    (start_ end_v : Datetime.datetime) :
  let report :=
    Program.build_report_of str_lower repr_container list_lt libc_small_year
      mktime fromisoformat tz start_ end_v in
  let nothing :=
    t <- Script.title libc_small_year start_ end_v ;;
    ret (t, Script.S_nothing) in
  (forall d, report (Py.PDict d) = nothing)
  /\ (forall s, report (Py.PStr s) = nothing)
  /\ report Py.PNone = inl TypeError
  /\ (forall b, report (Py.PBool b) = inl TypeError)
  /\ (forall z, report (Py.PInt z) = inl TypeError).
Proof.
  intros report nothing. subst report nothing.
  unfold Program.build_report_of.
  split; [|split; [|repeat split]].
  - intros d. cbn [Program.iterate bind ret].
    apply build_report_not_dicts.
    apply Forall_forall. intros a Ha. apply in_map_iff in Ha.
    destruct Ha as (kv & <- & _). reflexivity.
  - intros s. cbn [Program.iterate bind ret].
    apply build_report_not_dicts.
    apply Forall_forall. intros a Ha. apply in_map_iff in Ha.
    destruct Ha as (c & <- & _). reflexivity.
Qed.
